(** * The fastai callback dispatch core, as presented in the study-group notebooks

    Shallow embedding of the Python cells of
    - lesson14/Callbacks.ipynb          ([Callback.__call__]),
    - lesson15/Learner_part_1.ipynb     ([add_cb], [remove_cb], [_call_one],
                                         [_with_events], the training loop),
    - the "Learner: Part 2" notebook    ([run_cbs], the shortened [__call__]).

    Python objects live in a store indexed by object identity; exceptions are
    an explicit result; the learner is threaded through every call. *)

From stdpp Require Import gmap strings list sorting.
From Stdlib Require Import ZArith Lia.

Local Open Scope string_scope.
Local Open Scope Z_scope.
Local Open Scope list_scope.
Local Open Scope stdpp_scope.

(** ** Exceptions and results *)

(** The seven [Cancel*Exception] classes named by the notebooks. *)
Inductive CancelKind :=
| CancelFit | CancelEpoch | CancelTrain | CancelValid
| CancelBatch | CancelBackward | CancelStep.

(** A raised exception: one of the cancellation classes, or an instance of
    any other subclass of [Exception] with its class name and [e.args]. *)
Inductive exn :=
| Cancel (k : CancelKind)
| Exc (cls : string) (args : list string).

(** Values a handler may return. *)
Inductive value :=
| VNone
| VInt (z : Z)
| VStr (s : string).

Inductive Res (A : Type) :=
| Ok (a : A)
| Raise (e : exn).
Arguments Ok {A} a.
Arguments Raise {A} e.

#[global] Instance CancelKind_eq_dec : EqDecision CancelKind.
Proof. solve_decision. Defined.
#[global] Instance exn_eq_dec : EqDecision exn.
Proof. solve_decision. Defined.

(** ** Objects *)

Record Tensor := mkTensor { t_data : Z; t_device : nat }.

(** A batch is a Python tuple of tensors. *)
Definition Batch := list Tensor.

(** A callback object.  [cls] is [self.__class__.__name__], [mro] the names of
    the classes it is an instance of, [learn] tells whether [self.learn] is
    set (there is one learner). *)
Record Callback := mkCallback {
  cls : string;
  mro : list string;
  name : string;
  order : Z;
  run : bool;
  run_train : bool;
  run_valid : bool;
  learn : bool
}.

Definition set_run (b : bool) (c : Callback) : Callback :=
  mkCallback (cls c) (mro c) (name c) (order c) b (run_train c) (run_valid c) (learn c).

Definition set_learn (b : bool) (c : Callback) : Callback :=
  mkCallback (cls c) (mro c) (name c) (order c) (run c) (run_train c) (run_valid c) b.

(** The base class [Callback] of lesson14: [order = 0], [learn = None],
    [run = run_train = run_valid = True]. *)
Definition base_callback (cls_name attr_name : string) : Callback :=
  mkCallback cls_name [cls_name; "Callback"] attr_name 0 true true true false.

(** The learner.  [heap] maps object identities to callback objects, [cbs] is
    [self.cbs] (references, in registration order), [attrs] the attributes
    that [add_cb] sets with [setattr(self, cb.name, cb)].  [training] is
    [None] while the attribute has never been set.  [store] holds whatever
    else callbacks and collaborators keep on the learner.  [inherited] are
    the names that [hasattr(self, name)] finds without an attribute of the
    instance: the attributes and methods of the class [Learner] and, through
    [GetAttr] with [_default = 'model'], the attributes of the model;
    [delattr] cannot delete them.  The names of callbacks are taken to differ
    from the data attributes kept in the other fields. *)
Record Learner := mkLearner {
  heap : gmap nat Callback;
  next_id : nat;
  cbs : list nat;
  attrs : gmap string nat;
  training : option bool;
  n_epoch : nat;
  epoch : nat;
  n_iter : nat;
  iter : nat;
  dls : list (list Batch);
  dls_n_inp : option Z;
  dls_device : option nat;
  model_device : option nat;
  dl : list Batch;
  xb : Batch;
  yb : Batch;
  pred : option Tensor;
  loss_grad : option Tensor;
  loss : option Tensor;
  opt : bool;
  store : gmap string Z;
  inherited : gset string
}.

Definition with_heap (h : gmap nat Callback) (l : Learner) : Learner :=
  mkLearner h (next_id l) (cbs l) (attrs l) (training l) (n_epoch l) (epoch l)
    (n_iter l) (iter l) (dls l) (dls_n_inp l) (dls_device l) (model_device l)
    (dl l) (xb l) (yb l) (pred l) (loss_grad l) (loss l) (opt l) (store l) (inherited l).

Definition with_next_id (n : nat) (l : Learner) : Learner :=
  mkLearner (heap l) n (cbs l) (attrs l) (training l) (n_epoch l) (epoch l)
    (n_iter l) (iter l) (dls l) (dls_n_inp l) (dls_device l) (model_device l)
    (dl l) (xb l) (yb l) (pred l) (loss_grad l) (loss l) (opt l) (store l) (inherited l).

Definition with_cbs (c : list nat) (l : Learner) : Learner :=
  mkLearner (heap l) (next_id l) c (attrs l) (training l) (n_epoch l) (epoch l)
    (n_iter l) (iter l) (dls l) (dls_n_inp l) (dls_device l) (model_device l)
    (dl l) (xb l) (yb l) (pred l) (loss_grad l) (loss l) (opt l) (store l) (inherited l).

Definition with_attrs (a : gmap string nat) (l : Learner) : Learner :=
  mkLearner (heap l) (next_id l) (cbs l) a (training l) (n_epoch l) (epoch l)
    (n_iter l) (iter l) (dls l) (dls_n_inp l) (dls_device l) (model_device l)
    (dl l) (xb l) (yb l) (pred l) (loss_grad l) (loss l) (opt l) (store l) (inherited l).

Definition with_training (t : option bool) (l : Learner) : Learner :=
  mkLearner (heap l) (next_id l) (cbs l) (attrs l) t (n_epoch l) (epoch l)
    (n_iter l) (iter l) (dls l) (dls_n_inp l) (dls_device l) (model_device l)
    (dl l) (xb l) (yb l) (pred l) (loss_grad l) (loss l) (opt l) (store l) (inherited l).

Definition with_n_epoch (n : nat) (l : Learner) : Learner :=
  mkLearner (heap l) (next_id l) (cbs l) (attrs l) (training l) n (epoch l)
    (n_iter l) (iter l) (dls l) (dls_n_inp l) (dls_device l) (model_device l)
    (dl l) (xb l) (yb l) (pred l) (loss_grad l) (loss l) (opt l) (store l) (inherited l).

Definition with_epoch (n : nat) (l : Learner) : Learner :=
  mkLearner (heap l) (next_id l) (cbs l) (attrs l) (training l) (n_epoch l) n
    (n_iter l) (iter l) (dls l) (dls_n_inp l) (dls_device l) (model_device l)
    (dl l) (xb l) (yb l) (pred l) (loss_grad l) (loss l) (opt l) (store l) (inherited l).

Definition with_n_iter (n : nat) (l : Learner) : Learner :=
  mkLearner (heap l) (next_id l) (cbs l) (attrs l) (training l) (n_epoch l) (epoch l)
    n (iter l) (dls l) (dls_n_inp l) (dls_device l) (model_device l)
    (dl l) (xb l) (yb l) (pred l) (loss_grad l) (loss l) (opt l) (store l) (inherited l).

Definition with_iter (n : nat) (l : Learner) : Learner :=
  mkLearner (heap l) (next_id l) (cbs l) (attrs l) (training l) (n_epoch l) (epoch l)
    (n_iter l) n (dls l) (dls_n_inp l) (dls_device l) (model_device l)
    (dl l) (xb l) (yb l) (pred l) (loss_grad l) (loss l) (opt l) (store l) (inherited l).

Definition with_dl (d : list Batch) (l : Learner) : Learner :=
  mkLearner (heap l) (next_id l) (cbs l) (attrs l) (training l) (n_epoch l) (epoch l)
    (n_iter l) (iter l) (dls l) (dls_n_inp l) (dls_device l) (model_device l)
    d (xb l) (yb l) (pred l) (loss_grad l) (loss l) (opt l) (store l) (inherited l).

Definition with_xb_yb (x y : Batch) (l : Learner) : Learner :=
  mkLearner (heap l) (next_id l) (cbs l) (attrs l) (training l) (n_epoch l) (epoch l)
    (n_iter l) (iter l) (dls l) (dls_n_inp l) (dls_device l) (model_device l)
    (dl l) x y (pred l) (loss_grad l) (loss l) (opt l) (store l) (inherited l).

Definition with_pred (p : option Tensor) (l : Learner) : Learner :=
  mkLearner (heap l) (next_id l) (cbs l) (attrs l) (training l) (n_epoch l) (epoch l)
    (n_iter l) (iter l) (dls l) (dls_n_inp l) (dls_device l) (model_device l)
    (dl l) (xb l) (yb l) p (loss_grad l) (loss l) (opt l) (store l) (inherited l).

Definition with_loss_grad (p : option Tensor) (l : Learner) : Learner :=
  mkLearner (heap l) (next_id l) (cbs l) (attrs l) (training l) (n_epoch l) (epoch l)
    (n_iter l) (iter l) (dls l) (dls_n_inp l) (dls_device l) (model_device l)
    (dl l) (xb l) (yb l) (pred l) p (loss l) (opt l) (store l) (inherited l).

Definition with_loss (p : option Tensor) (l : Learner) : Learner :=
  mkLearner (heap l) (next_id l) (cbs l) (attrs l) (training l) (n_epoch l) (epoch l)
    (n_iter l) (iter l) (dls l) (dls_n_inp l) (dls_device l) (model_device l)
    (dl l) (xb l) (yb l) (pred l) (loss_grad l) p (opt l) (store l) (inherited l).

Definition with_store (st : gmap string Z) (l : Learner) : Learner :=
  mkLearner (heap l) (next_id l) (cbs l) (attrs l) (training l) (n_epoch l) (epoch l)
    (n_iter l) (iter l) (dls l) (dls_n_inp l) (dls_device l) (model_device l)
    (dl l) (xb l) (yb l) (pred l) (loss_grad l) (loss l) (opt l) st (inherited l).

(** A dead object stands for a reference that was never allocated; Python
    references cannot dangle, so it is only ever read for identities outside
    the store. *)
Definition dead : Callback := mkCallback "" [] "" 0 false false false false.

Definition obj (l : Learner) (i : nat) : Callback := default dead (heap l !! i).

(** [cb.attr = v] on the object with identity [i]. *)
Definition upd_obj (i : nat) (f : Callback -> Callback) (l : Learner) : Learner :=
  with_heap (<[i := f (obj l i)]> (heap l)) l.

(** ** The execution monad

    A computation runs on the learner and a ghost log, and either returns a
    value or raises.  Handlers and collaborators see the learner only. *)

Inductive LogItem :=
| EvDispatch (event_name : string)           (* [Learner._call_one] was entered *)
| EvCall (cb : nat) (event_name : string)    (* [getcallable(cb, event_name)()] was executed *)
| EvRaise (e : exn).                         (* a handler or a collaborator raised [e] *)

#[global] Instance LogItem_eq_dec : EqDecision LogItem.
Proof. solve_decision. Defined.

Record World := mkWorld { learner : Learner; log : list LogItem }.

Definition M (A : Type) : Type := World -> World * Res A.

(** Code outside the dispatch core: handlers, the model, the optimizer. *)
Definition Ext (A : Type) : Type := Learner -> Learner * Res A.

Definition ret {A} (a : A) : M A := fun w => (w, Ok a).

Definition raise {A} (e : exn) : M A := fun w => (w, Raise e).

Definition bind {A B} (m : M A) (k : A -> M B) : M B :=
  fun w => match m w with
           | (w', Ok a) => k a w'
           | (w', Raise e) => (w', Raise e)
           end.

Declare Scope py_scope.
Delimit Scope py_scope with py.
Notation "x <- m ;; k" := (bind m (fun x => k))
  (at level 100, m at next level, right associativity) : py_scope.
Notation "m ;; k" := (bind m (fun _ => k))
  (at level 100, right associativity) : py_scope.
Local Open Scope py_scope.

(** [try: body  except ...: ...]: [handler e] is the body of the first
    [except] clause that matches [e], or [None] when none does. *)
Definition try_except {A} (body : M A) (handler : exn -> option (M A)) : M A :=
  fun w => match body w with
           | (w', Raise e) =>
               match handler e with
               | Some h => h w'
               | None => (w', Raise e)
               end
           | r => r
           end.

Definition emit (it : LogItem) : M unit :=
  fun w => (mkWorld (learner w) (log w ++ [it]), Ok tt).

(** Read and write the learner. *)
Definition get : M Learner := fun w => (w, Ok (learner w)).

Definition modify (f : Learner -> Learner) : M unit :=
  fun w => (mkWorld (f (learner w)) (log w), Ok tt).

(** Run outside code; an exception it raises is noted in the log. *)
Definition ext {A} (f : Ext A) : M A :=
  fun w => match f (learner w) with
           | (l', Ok a) => (mkWorld l' (log w), Ok a)
           | (l', Raise e) => (mkWorld l' (log w ++ [EvRaise e]), Raise e)
           end.

(** [for x in xs: body(x)] *)
Fixpoint for_each {A} (xs : list A) (body : A -> M unit) : M unit :=
  match xs with
  | [] => ret tt
  | x :: xs' => body x ;; for_each xs' body
  end.

(** ** The program around the core *)

(** A method body: receives [self] (an identity) and the learner. *)
Definition Method := nat -> Ext value.

(** What the notebooks import or receive from outside: fastai's [_inner_loop]
    and [event] name lists, the callback classes with their event methods,
    and the collaborators called by the training loop. *)
Record Env := mkEnv {
  _inner_loop : list string;
  event : list string;
  methods : string -> string -> option Method;
  new_cb : string -> Callback;
  model : Batch -> Ext Tensor;
  loss_func : Tensor -> Batch -> Ext Tensor;
  backward : Tensor -> Ext unit;
  opt_step : Ext unit;
  opt_zero_grad : Ext unit;
  create_opt : Ext unit;
  set_hypers : string -> Z -> Ext unit;
  _end_cleanup : Ext unit
}.

(** [getcallable(self, event_name)]: the method when the class defines it,
    else [noop], which returns [None]. *)
Definition getcallable (E : Env) (self : nat) (event_name : string) : Ext value :=
  fun l => match methods E (cls (obj l self)) event_name with
           | Some m => m self l
           | None => (l, Ok VNone)
           end.

Definition nl_tab : string := String (Ascii.ascii_of_nat 10) (String (Ascii.ascii_of_nat 9) "").

(** fastcore's [modify_exception(e, msg, replace=True)]: the same exception
    with [e.args = [msg]]. *)
Definition modify_exception (e : exn) (msg : string) : exn :=
  match e with
  | Exc c _ => Exc c [msg]
  | Cancel k => Cancel k
  end.

Definition occured_msg (cls_name event_name arg0 : string) : string :=
  "Exception occured in `" +:+ cls_name +:+ "` when calling event `" +:+
  event_name +:+ "`:" +:+ nl_tab +:+ arg0.

(** The two [except] clauses shared by both presentations of
    [Callback.__call__]: cancellations are re-raised as they are; any other
    exception is passed to [modify_exception] with a message built from
    [e.args[0]], whose evaluation raises [IndexError] on empty [args]. *)
Definition call_handlers {A} (cls_name event_name : string) (e : exn) : option (M A) :=
  match e with
  | Cancel k => Some (raise (Cancel k))
  | Exc c args =>
      match args with
      | [] => Some (raise (Exc "IndexError" ["tuple index out of range"]))
      | a0 :: _ => Some (raise (modify_exception e (occured_msg cls_name event_name a0)))
      end
  end.

(** lesson14/Callbacks.ipynb *)
Module Callbacks.

(** [getattr(self, 'training', default)].  A callback has no attribute
    [training] of its own, and the class [Callback] of this notebook does not
    set [_default]: [GetAttr.__getattr__] then looks for the attribute
    [default] of the callback, finds none and raises [AttributeError], so
    that [getattr] returns its default whatever [self.learn.training] is. *)
Definition getattr_training (l : Learner) (c : Callback) (dflt : bool) : bool := dflt.

(** The local [_run] of [__call__]. *)
Definition _run (E : Env) (l : Learner) (c : Callback) (event_name : string) : bool :=
  negb (bool_decide (event_name ∈ _inner_loop E))
  || (run_train c && getattr_training l c true)
  || (run_valid c && negb (getattr_training l c false)).

Definition __call__ (E : Env) (self : nat) (event_name : string) : M value :=
  l <- get ;;
  let c := obj l self in
  let _run := _run E l c event_name in
  res <- (if run c && _run
          then try_except
                 (emit (EvCall self event_name) ;; ext (getcallable E self event_name))
                 (call_handlers (cls c) event_name)
          else ret VNone) ;;
  (if bool_decide (event_name = "after_fit")
   then modify (upd_obj self (set_run true))
   else ret tt) ;;
  ret res.

End Callbacks.

(** ** Python built-ins used by the learner *)

(** [sorted(xs, key=key)] and fastcore's [L.sorted(key)]: Python guarantees a
    stable sort, so the result is the one a stable insertion sort gives. *)
Fixpoint insert_by {A} (key : A -> Z) (x : A) (xs : list A) : list A :=
  match xs with
  | [] => [x]
  | y :: ys => if key x <=? key y then x :: y :: ys else y :: insert_by key x ys
  end.

Fixpoint sorted {A} (key : A -> Z) (xs : list A) : list A :=
  match xs with
  | [] => []
  | x :: xs' => insert_by key x (sorted key xs')
  end.

(** [xs.remove(x)]: drops the first occurrence (the caller checks [x in xs]). *)
Fixpoint list_remove_first (x : nat) (xs : list nat) : list nat :=
  match xs with
  | [] => []
  | y :: ys => if bool_decide (y = x) then ys else y :: list_remove_first x ys
  end.

(** The position a slice bound [i] denotes in a sequence of length [n]:
    negative bounds count from the end, and the result is clipped to [0..n]. *)
Definition slice_bound (n : nat) (i : Z) : nat :=
  Z.to_nat (Z.min (Z.of_nat n) (Z.max 0 (if i <? 0 then i + Z.of_nat n else i))).

(** [b[:i]] and [b[i:]] *)
Definition slice_to {A} (b : list A) (i : Z) : list A := take (slice_bound (length b) i) b.
Definition slice_from {A} (b : list A) (i : Z) : list A := drop (slice_bound (length b) i) b.

(** [enumerate(xs)] *)
Definition enumerate {A} (xs : list A) : list (nat * A) := imap (fun i x => (i, x)) xs.

(** [to_device(b, device)] and [default_device()] *)
Definition to_device (b : Batch) (d : nat) : Batch := map (fun t => mkTensor (t_data t) d) b.
Definition default_device : nat := 0%nat.

(** [isinstance(e, ex)] for one of the seven cancellation classes [ex]; they
    all derive from [Exception] directly. *)
Definition isinstance_cancel (ex : CancelKind) (e : exn) : bool :=
  match e with
  | Cancel k => bool_decide (k = ex)
  | Exc _ _ => false
  end.

(** lesson15/Learner_part_1.ipynb *)
Module LearnerPart1.

(** The argument of [add_cb] and [remove_cb]: a callback class or an instance. *)
Inductive CbArg :=
| CbType (cls_name : string)
| CbInst (cb : nat).

Definition add_cb (E : Env) (cb : CbArg) : M unit :=
  cb <- match cb with
        | CbType c =>
            l <- get ;;
            let i := next_id l in
            modify (fun l => with_next_id (S i) (with_heap (<[i := new_cb E c]> (heap l)) l)) ;;
            ret i
        | CbInst i => ret i
        end ;;
  modify (upd_obj cb (set_learn true)) ;;
  modify (fun l => with_attrs (<[name (obj l cb) := cb]> (attrs l)) l) ;;
  modify (fun l => with_cbs (cbs l ++ [cb]) l).

Definition add_cbs (E : Env) (cbs : list CbArg) : M unit :=
  for_each cbs (add_cb E).

Definition _grab_cbs (cb_cls : string) (l : Learner) : list nat :=
  filter (fun cb => cb_cls ∈ mro (obj l cb)) (cbs l).

(** The [else] branch of [remove_cb]: [cb] is an instance.
    [hasattr(self, cb.name)] holds for an attribute of the instance and for
    an [inherited] name; [delattr] deletes the former, and raises
    [AttributeError] when there is none (its message is the name up to
    Python 3.10, and a sentence with the name from 3.11 on; the name is kept
    here). *)
Definition remove_cb_instance (cb : nat) : M unit :=
  modify (upd_obj cb (set_learn false)) ;;
  l <- get ;;
  (if bool_decide (is_Some (attrs l !! name (obj l cb)))
   then modify (fun l => with_attrs (delete (name (obj l cb)) (attrs l)) l)
   else if bool_decide (name (obj l cb) ∈ inherited l)
   then raise (Exc "AttributeError" [name (obj l cb)])
   else ret tt) ;;
  l <- get ;;
  (if bool_decide (cb ∈ cbs l)
   then modify (fun l => with_cbs (list_remove_first cb (cbs l)) l)
   else ret tt).

(** [remove_cb]; for a class, [remove_cbs(self._grab_cbs(cb))] comes back to
    the instance branch for every grabbed callback. *)
Definition remove_cb (cb : CbArg) : M unit :=
  match cb with
  | CbType c => l <- get ;; for_each (_grab_cbs c l) remove_cb_instance
  | CbInst i => remove_cb_instance i
  end.

Definition remove_cbs (cbs : list CbArg) : M unit :=
  for_each cbs remove_cb.

Definition _call_one (E : Env) (event_name : string) : M unit :=
  emit (EvDispatch event_name) ;;
  (if bool_decide (event_name ∈ event E)
   then ret tt
   else raise (Exc "Exception" ["missing " +:+ event_name])) ;;
  l <- get ;;
  for_each (sorted (fun cb => order (obj l cb)) (cbs l))
           (fun cb => _ <- Callbacks.__call__ E cb event_name ;; ret tt).

(** [Learner.__call__]: [L(event_name)] is the list of the names passed. *)
Definition __call__ (E : Env) (event_name : list string) : M unit :=
  for_each event_name (_call_one E).

Definition noop : M unit := ret tt.

Definition _with_events (E : Env) (f : M unit) (event_type : string)
    (ex : CancelKind) (final : M unit) : M unit :=
  try_except
    (__call__ E ["before_" +:+ event_type] ;; f)
    (fun e => if isinstance_cancel ex e
              then Some (__call__ E ["after_cancel_" +:+ event_type])
              else None) ;;
  __call__ E ["after_" +:+ event_type] ;;
  final.

Definition _set_device (b : Batch) : M Batch :=
  l <- get ;;
  match model_device l with
  | None => raise (Exc "StopIteration" [])
  | Some model_device =>
      let dls_device := default default_device (dls_device l) in
      if bool_decide (model_device = dls_device)
      then ret (to_device b dls_device)
      else ret (to_device b model_device)
  end.

Definition _split (b : Batch) : M unit :=
  l <- get ;;
  let i := default (if bool_decide (length b = 1%nat) then 1
                    else Z.of_nat (length b) - 1) (dls_n_inp l) in
  modify (with_xb_yb (slice_to b i) (slice_from b i)).

Definition _backward (E : Env) : M unit :=
  l <- get ;;
  match loss_grad l with
  | Some g => ext (backward E g)
  | None => raise (Exc "AttributeError" ["loss_grad"])
  end.

Definition _step (E : Env) : M unit := ext (opt_step E).

Definition _do_one_batch (E : Env) : M unit :=
  l <- get ;;
  p <- ext (model E (xb l)) ;;
  modify (with_pred (Some p)) ;;
  __call__ E ["after_pred"] ;;
  l <- get ;;
  (if bool_decide (length (yb l) ≠ 0%nat)
   then match pred l with
        | Some p =>
            g <- ext (loss_func E p (yb l)) ;;
            modify (with_loss_grad (Some g)) ;;
            modify (with_loss (Some g))
        | None => raise (Exc "AttributeError" ["pred"])
        end
   else ret tt) ;;
  __call__ E ["after_loss"] ;;
  l <- get ;;
  match training l with
  | None => raise (Exc "AttributeError" ["training"])
  | Some training =>
      if negb training || bool_decide (length (yb l) = 0%nat)
      then ret tt
      else _with_events E (_backward E) "backward" CancelBackward noop ;;
           _with_events E (_step E) "step" CancelStep noop ;;
           ext (opt_zero_grad E)
  end.

Definition one_batch (E : Env) (i : nat) (b : Batch) : M unit :=
  modify (with_iter i) ;;
  b <- _set_device b ;;
  _split b ;;
  _with_events E (_do_one_batch E) "batch" CancelBatch noop.

Definition all_batches (E : Env) : M unit :=
  l <- get ;;
  modify (with_n_iter (length (dl l))) ;;
  for_each (enumerate (dl l)) (fun o => one_batch E o.1 o.2).

Definition _do_epoch_train (E : Env) : M unit :=
  l <- get ;;
  match dls l !! 0%nat with
  | None => raise (Exc "IndexError" ["list index out of range"])
  | Some train => modify (with_dl train)
  end ;;
  _with_events E (all_batches E) "train" CancelTrain noop.

Definition _do_epoch_validate (E : Env) (ds_idx : nat) (dl : option (list Batch)) : M unit :=
  dl <- match dl with
        | None =>
            l <- get ;;
            match dls l !! ds_idx with
            | None => raise (Exc "IndexError" ["list index out of range"])
            | Some d => ret d
            end
        | Some d => ret d
        end ;;
  modify (with_dl dl) ;;
  _with_events E (all_batches E) "validate" CancelValid noop.

Definition _do_epoch (E : Env) : M unit :=
  _do_epoch_train E ;;
  _do_epoch_validate E 1 None.

Definition _do_fit (E : Env) : M unit :=
  l <- get ;;
  for_each (seq 0 (n_epoch l))
           (fun epoch =>
              modify (with_epoch epoch) ;;
              _with_events E (_do_epoch E) "epoch" CancelEpoch noop).

(** [fit] as called with [cbs=None] and [start_epoch=0]: [added_cbs] then
    adds and removes nothing.  [self.lr] and [self.wd] are kept in [store]. *)
Definition fit (E : Env) (n_epoch : nat) (lr wd : option Z) (reset_opt : bool) : M unit :=
  l <- get ;;
  (if reset_opt || negb (opt l) then ext (create_opt E) else ret tt) ;;
  l <- get ;;
  let wd := match wd with None => store l !! "wd" | Some _ => wd end in
  match wd with
  | Some wd => ext (set_hypers E "wd" wd)
  | None => ret tt
  end ;;
  l <- get ;;
  match (match lr with None => store l !! "lr" | Some _ => lr end) with
  | Some lr => ext (set_hypers E "lr" lr)
  | None => raise (Exc "AttributeError" ["lr"])
  end ;;
  modify (with_n_epoch n_epoch) ;;
  _with_events E (_do_fit E) "fit" CancelFit (ext (_end_cleanup E)).

End LearnerPart1.

(** The "Learner: Part 2" notebook *)
Module LearnerPart2.

(** The shortened [Callback.__call__] shown there: [res] is only bound
    inside [if self.run:], and [return res] reads it in every case. *)
Definition __call__ (E : Env) (self : nat) (event_name : string) : M value :=
  l <- get ;;
  let c := obj l self in
  res <- (if run c
          then r <- try_except
                      (emit (EvCall self event_name) ;; ext (getcallable E self event_name))
                      (call_handlers (cls c) event_name) ;;
               ret (Some r)
          else ret None) ;;
  match res with
  | Some r => ret r
  | None => raise (Exc "UnboundLocalError"
                       ["local variable 'res' referenced before assignment"])
  end.

(** MiniAI's [run_cbs]: the method found on the callback, if any, is called
    as it is. *)
Definition run_cbs (E : Env) (cbs : list nat) (method_nm : string) : M unit :=
  l <- get ;;
  for_each (sorted (fun cb => order (obj l cb)) cbs)
           (fun cb =>
              l <- get ;;
              match methods E (cls (obj l cb)) method_nm with
              | Some method =>
                  emit (EvCall cb method_nm) ;;
                  _ <- ext (method cb) ;;
                  ret tt
              | None => ret tt
              end).

End LearnerPart2.

(** ** Vocabulary of the statements *)

(** The event reached the callback: the first thing the call added to the log
    is the execution of its handler. *)
Definition delivered (self : nat) (event_name : string) (w w' : World) : Prop :=
  exists rest, log w' = log w ++ EvCall self event_name :: rest.

(** The guarded part of [__call__]: the handler call with its [except] clauses. *)
Definition guarded_call (E : Env) (self : nat) (event_name : string) (c : Callback) : M value :=
  try_except (emit (EvCall self event_name) ;; ext (getcallable E self event_name))
             (call_handlers (cls c) event_name).

(** What a call added to the log. *)
Definition new_log (w w' : World) : list LogItem := drop (length (log w)) (log w').

(** The names of the events dispatched, in order. *)
Definition dispatched (l : list LogItem) : list string :=
  omap (fun it => match it with EvDispatch ev => Some ev | _ => None end) l.

(** The handler executions, in order. *)
Definition calls (l : list LogItem) : list (nat * string) :=
  omap (fun it => match it with EvCall cb ev => Some (cb, ev) | _ => None end) l.

(** The callback passes the test of [Callback.__call__] ([self.run and _run]). *)
Definition passes (E : Env) (event_name : string) (l : Learner) (cb : nat) : bool :=
  run (obj l cb) && Callbacks._run E l (obj l cb) event_name.

(** The callback has a method of that name, the test of [run_cbs]. *)
Definition has_method (E : Env) (method_nm : string) (l : Learner) (cb : nat) : bool :=
  bool_decide (is_Some (methods E (cls (obj l cb)) method_nm)).

(** The bodies of the loops of [_call_one] and of [run_cbs]. *)
Definition call_step (E : Env) (event_name : string) (cb : nat) : M unit :=
  _ <- Callbacks.__call__ E cb event_name ;; ret tt.

Definition run_cbs_step (E : Env) (method_nm : string) (cb : nat) : M unit :=
  l <- get ;;
  match methods E (cls (obj l cb)) method_nm with
  | Some method =>
      emit (EvCall cb method_nm) ;;
      _ <- ext (method cb) ;;
      ret tt
  | None => ret tt
  end.

(** The handlers that a loop [for cb in xs: step(cb)] is to execute, in
    order: those of the callbacks of [xs] that pass [test] when their turn
    comes, in the order of [xs], up to and including the first one whose step
    raises. *)
Fixpoint handled (test : Learner -> nat -> bool) (step : nat -> M unit)
    (event_name : string) (xs : list nat) (w : World) : list (nat * string) :=
  match xs with
  | [] => []
  | cb :: xs' =>
      (if test (learner w) cb then [(cb, event_name)] else []) ++
      match step cb w with
      | (w', Ok _) => handled test step event_name xs' w'
      | (_, Raise _) => []
      end
  end.

(** The call raised instead of returning. *)
Definition fails_loudly {A} (r : Res A) : Prop := exists e, r = Raise e.

(** "All but the last element are inputs, the last one is the target." *)
Definition all_but_last_split (b xb yb : Batch) : Prop :=
  xb = take (length b - 1) b /\ yb = drop (length b - 1) b.

(** The [try:] suite of [_with_events]. *)
Definition try_suite (E : Env) (f : M unit) (event_type : string) : M unit :=
  LearnerPart1.__call__ E ["before_" +:+ event_type] ;; f.

(** What one [Callback.__call__] adds: nothing, the handler execution, or the
    handler execution and the exception it raised; a cancellation raised by
    the handler is the one that comes out. *)
Inductive call_shape (self : nat) (ev : string) : list LogItem -> option exn -> Prop :=
| shape_skipped : call_shape self ev [] None
| shape_returned : call_shape self ev [EvCall self ev] None
| shape_raised e e' :
    (forall k, e = Cancel k \/ e' = Cancel k -> e' = e) ->
    call_shape self ev [EvCall self ev; EvRaise e] (Some e').

Definition outcome {A} (r : Res A) : option exn :=
  match r with
  | Ok _ => None
  | Raise e => Some e
  end.

(** [m] only appends to the log, and what it appends, together with the way
    it ends, satisfies [P]. *)
Definition extends_by {A} (P : list LogItem -> option exn -> Prop) (m : M A) : Prop :=
  forall w, exists l, log (m w).1 = log w ++ l /\ P l (outcome (m w).2).

(** Properties of log segments that are kept by everything the loop does
    below the phase that dispatches [bad]: sequencing, the [except] clause of
    a phase other than fit, exceptions of the core itself, outside code,
    callback calls and dispatches of events other than [bad]. *)
Record inner_pred (bad : string) (P : list LogItem -> option exn -> Prop) : Prop := {
  ip_nil : P [] None;
  ip_app : forall l1 l2 o, P l1 None -> P l2 o -> P (l1 ++ l2) o;
  ip_catch : forall l1 l2 o k,
      k ≠ CancelFit -> P l1 (Some (Cancel k)) -> P l2 o -> P (l1 ++ l2) o;
  ip_exc : forall c a, P [] (Some (Exc c a));
  ip_ext : forall e, P [EvRaise e] (Some e);
  ip_call : forall self ev l o, call_shape self ev l o -> P l o;
  ip_dispatch : forall ev, ev ≠ bad -> P [EvDispatch ev] None
}.

(** The events dispatched inside [_do_one_batch], and inside [_do_fit]. *)
Definition batch_body_events : list string :=
  ["after_pred"; "after_loss"; "before_backward"; "after_cancel_backward";
   "after_backward"; "before_step"; "after_cancel_step"; "after_step"].

Definition fit_body_events : list string :=
  ["before_epoch"; "after_cancel_epoch"; "after_epoch";
   "before_train"; "after_cancel_train"; "after_train";
   "before_validate"; "after_cancel_validate"; "after_validate";
   "before_batch"; "after_cancel_batch"; "after_batch"] ++ batch_body_events.

(** No [CancelFitException] was raised and [after_fit] was not dispatched. *)
Definition quiet (l : list LogItem) : Prop :=
  Forall (fun it => it ≠ EvRaise (Cancel CancelFit) /\ it ≠ EvDispatch "after_fit") l.

(** What happens below the fit phase: either nothing raised
    [CancelFitException] and the outcome is not that signal, or the signal
    was raised once, nothing ran after it, and it is the outcome. *)
Definition fit_signal_tracked (l : list LogItem) (o : option exn) : Prop :=
  (quiet l /\ o ≠ Some (Cancel CancelFit)) \/
  (exists l0, l = l0 ++ [EvRaise (Cancel CancelFit)] /\ quiet l0 /\
              o = Some (Cancel CancelFit)).

(** The number of [before_batch] dispatches. *)
Definition batches_begun (l : list LogItem) : nat :=
  length (filter (fun ev => ev = "before_batch") (dispatched l)).

(** The statements of [fit] that precede its [_with_events]. *)
Definition fit_prologue (E : Env) (n_epoch : nat) (lr wd : option Z) (reset_opt : bool) : M unit :=
  l <- get ;;
  (if reset_opt || negb (opt l) then ext (create_opt E) else ret tt) ;;
  l <- get ;;
  let wd := match wd with None => store l !! "wd" | Some _ => wd end in
  match wd with
  | Some wd => ext (set_hypers E "wd" wd)
  | None => ret tt
  end ;;
  l <- get ;;
  match (match lr with None => store l !! "lr" | Some _ => lr end) with
  | Some lr => ext (set_hypers E "lr" lr)
  | None => raise (Exc "AttributeError" ["lr"])
  end ;;
  modify (with_n_epoch n_epoch).

(** The fit phase itself. *)
Definition fit_phase (E : Env) : M unit :=
  LearnerPart1._with_events E (LearnerPart1._do_fit E) "fit" CancelFit (ext (_end_cleanup E)).

(** ** A concrete program

    The callbacks of the notebooks and of the scenarios of the specification,
    run on a learner with three training batches and two validation batches.
    It instantiates the statements below on concrete inputs. *)
Module Demo.

(** fastai's [_inner_loop] and the names of its [event] class. *)
Definition inner_loop : list string :=
  ["before_batch"; "after_pred"; "after_loss"; "before_backward";
   "after_cancel_backward"; "after_backward"; "before_step"; "after_step";
   "after_cancel_batch"; "after_batch"].

Definition events : list string :=
  ["after_create"; "before_fit"; "before_epoch"; "before_train"; "before_batch";
   "after_pred"; "after_loss"; "before_backward"; "after_cancel_backward";
   "after_backward"; "before_step"; "after_cancel_step"; "after_step";
   "after_cancel_batch"; "after_batch"; "after_cancel_train"; "after_train";
   "before_validate"; "after_cancel_validate"; "after_validate";
   "after_cancel_epoch"; "after_epoch"; "after_cancel_fit"; "after_fit"].

(** [self.learn.k += 1] on a counter kept on the learner. *)
Definition bump (k : string) (l : Learner) : Learner :=
  with_store (<[k := default 0 (store l !! k) + 1]> (store l)) l.

Definition returns (f : Learner -> Learner) : Method :=
  fun _ l => (f l, Ok VNone).

Definition raises (e : exn) : Method :=
  fun _ l => (l, Raise e).

(** The event methods of each class:
    - [TrainEvalCallback] of the notebooks, reduced to what it writes on
      [self.learn]: the counters and the training flag,
    - [ProgressCallback.before_fit], reduced to its [assert hasattr(self.learn, 'recorder')],
    - [CountBatches], which counts [after_batch],
    - [StopTrain], which raises [CancelTrainException] in [before_batch]
      when [self.learn.training] is true,
    - [StopFit], which raises [CancelFitException] in [after_loss],
    - [Broken], which raises a [RuntimeError] in [after_loss]. *)
Definition method_table : list (string * string * Method) :=
  [ ("TrainEvalCallback", "before_fit",
       returns (fun l => with_epoch 0 (with_store (<["train_iter" := 0]> (store l)) l)));
    ("TrainEvalCallback", "after_batch", returns (bump "train_iter"));
    ("TrainEvalCallback", "before_train", returns (with_training (Some true)));
    ("TrainEvalCallback", "before_validate", returns (with_training (Some false)));
    ("ProgressCallback", "before_fit",
       fun _ l => match attrs l !! "recorder" with
                  | Some _ => (l, Ok VNone)
                  | None => (l, Raise (Exc "AssertionError" []))
                  end);
    ("CountBatches", "after_batch", returns (bump "count"));
    ("StopTrain", "before_batch",
       fun _ l => match training l with
                  | Some true => (l, Raise (Cancel CancelTrain))
                  | _ => (l, Ok VNone)
                  end);
    ("StopFit", "after_loss", raises (Cancel CancelFit));
    ("Broken", "after_loss", raises (Exc "RuntimeError" ["boom"])) ].

Fixpoint lookup_method (t : list (string * string * Method)) (c ev : string) : option Method :=
  match t with
  | [] => None
  | (c', ev', m) :: t' =>
      if bool_decide (c' = c) && bool_decide (ev' = ev) then Some m else lookup_method t' c ev
  end.

Definition instance (c : string) : Callback :=
  if bool_decide (c = "TrainEvalCallback")
  then mkCallback c [c; "Callback"] "train_eval" (-10) true true false false
  else if bool_decide (c = "ProgressCallback")
  then mkCallback c [c; "Callback"] "progress" 60 true true true false
  else if bool_decide (c = "StopTrain")
  then mkCallback c [c; "Callback"] "stop_train" 0 true true false false
  else base_callback c c.

Definition E : Env :=
  mkEnv inner_loop events (lookup_method method_table) instance
        (fun xb l => (l, Ok (mkTensor (foldr (fun t a => t_data t + a) 0 xb) 0)))
        (fun p yb l => (l, Ok p))
        (fun _ l => (l, Ok tt))
        (fun l => (bump "steps" l, Ok tt))
        (fun l => (l, Ok tt))
        (fun l => (l, Ok tt))
        (fun k v l => (with_store (<[k := v]> (store l)) l, Ok tt))
        (fun l => (bump "cleanup" l, Ok tt)).

Definition batch (x y : Z) : Batch := [mkTensor x 0; mkTensor y 0].

(** A learner that has just been constructed: no callback, no callback
    attribute; some of the names found on the class and on the model. *)
Definition empty_learner : Learner :=
  mkLearner ∅ 0 [] ∅ None 1 0 0 0
    [ [batch 1 0; batch 2 1; batch 3 0]; [batch 4 1; batch 5 0] ]
    None None (Some 0%nat) [] [] [] None None None true ({["lr" := 3]})
    (list_to_set ["fit"; "add_cb"; "remove_cb"; "training"; "parameters"; "forward"]).

Definition start : World := mkWorld empty_learner [].

(** The world after [add_cbs(classes)] on the fresh learner. *)
Definition world_with (classes : list string) : World :=
  (LearnerPart1.add_cbs E (map LearnerPart1.CbType classes) start).1.

(** The counter [k] kept on the learner. *)
Definition counter (k : string) (w : World) : Z := default 0 (store (learner w) !! k).

(** The same world inside the training or validation part of an epoch. *)
Definition in_phase (train : bool) (classes : list string) : World :=
  mkWorld (with_training (Some train) (learner (world_with classes))) [].

End Demo.

(** ** Further vocabulary *)

(** The number of dispatches of [ev]. *)
Definition count_dispatch (ev : string) (l : list LogItem) : nat :=
  length (filter (fun ev' => ev' = ev) (dispatched l)).

(** Properties of the events dispatched: [always S] holds however the
    computation ends, [on_return S] when it returns. *)
Definition always (S : list string -> Prop) : list LogItem -> option exn -> Prop :=
  fun l _ => S (dispatched l).

Definition on_return (S : list string -> Prop) : list LogItem -> option exn -> Prop :=
  fun l o => o = None -> S (dispatched l).

(** The events of a phase of [_with_events] whose body dispatches nothing,
    when the phase returns. *)
Definition phase_shape (event_type : string) (d : list string) : Prop :=
  exists cancelled,
    (cancelled = [] \/ cancelled = ["after_cancel_" +:+ event_type]) /\
    d = ["before_" +:+ event_type] ++ cancelled ++ ["after_" +:+ event_type].

(** The events a batch can dispatch when [_do_one_batch] returns: the two
    of the forward pass, then possibly the backward and step phases, each
    with or without its [after_cancel] event. *)
Definition batch_body_shape (d : list string) : Prop :=
  d = ["after_pred"; "after_loss"] \/
  exists cancelled_backward cancelled_step,
    (cancelled_backward = [] \/ cancelled_backward = ["after_cancel_backward"]) /\
    (cancelled_step = [] \/ cancelled_step = ["after_cancel_step"]) /\
    d = ["after_pred"; "after_loss"; "before_backward"] ++ cancelled_backward ++
        ["after_backward"; "before_step"] ++ cancelled_step ++ ["after_step"].

(** The three events of a phase of [_with_events]. *)
Definition phase_events (event_type : string) : list string :=
  ["before_" +:+ event_type; "after_cancel_" +:+ event_type; "after_" +:+ event_type].

(** The events of a phase that returns: [before], the events of its body,
    none of which is an event of the phase, and [after]; either the body
    ran to its end, as [completed] describes, or the phase was cancelled and
    [after_cancel] precedes [after]. *)
Definition phase_trace (event_type : string) (completed : list string -> Prop)
    (d : list string) : Prop :=
  exists body cancelled,
    d = ["before_" +:+ event_type] ++ body ++ cancelled ++ ["after_" +:+ event_type] /\
    Forall (fun ev => ev ∉ phase_events event_type) body /\
    ((cancelled = [] /\ completed body) \/ cancelled = ["after_cancel_" +:+ event_type]).

(** [n] traces in a row. *)
Definition repeated (n : nat) (S : list string -> Prop) (d : list string) : Prop :=
  exists ds, d = concat ds /\ length ds = n /\ Forall S ds.

(** The events of the training loop, level by level, when each level
    returns: a batch, the batches of a loader, an epoch with its training
    and validation parts, a fit. *)
Definition batch_trace : list string -> Prop := phase_trace "batch" batch_body_shape.

Definition batches_trace (d : list string) : Prop := exists n, repeated n batch_trace d.

Definition epoch_body_trace (d : list string) : Prop :=
  exists t v, d = t ++ v /\
    phase_trace "train" batches_trace t /\ phase_trace "validate" batches_trace v.

Definition epochs_trace (d : list string) : Prop :=
  exists n, repeated n (phase_trace "epoch" epoch_body_trace) d.

Definition fit_trace : list string -> Prop := phase_trace "fit" epochs_trace.

(** The events dispatched inside [all_batches]. *)
Definition batch_loop_events : list string :=
  ["before_batch"; "after_cancel_batch"; "after_batch"] ++ batch_body_events.

(** The events dispatched inside [_do_epoch]. *)
Definition epoch_body_events : list string :=
  ["before_train"; "after_cancel_train"; "after_train";
   "before_validate"; "after_cancel_validate"; "after_validate";
   "before_batch"; "after_cancel_batch"; "after_batch"] ++ batch_body_events.

(** ** The callback context manager of the "Learner: Part 2" notebook

    [callback_ctx] is a generator under [@contextmanager]; the definitions
    follow the statement [with self.callback_ctx(nm): body] through
    [__enter__], the block and [__exit__].  Event names are ASCII. *)
Module FlexibleLearner.

(** [str.title]: the first letter of every run of letters in upper case,
    the other letters of the run in lower case. *)
Definition is_upper (a : Ascii.ascii) : bool :=
  (65 <=? Ascii.nat_of_ascii a)%nat && (Ascii.nat_of_ascii a <=? 90)%nat.

Definition is_lower (a : Ascii.ascii) : bool :=
  (97 <=? Ascii.nat_of_ascii a)%nat && (Ascii.nat_of_ascii a <=? 122)%nat.

Definition to_upper (a : Ascii.ascii) : Ascii.ascii :=
  if is_lower a then Ascii.ascii_of_nat (Ascii.nat_of_ascii a - 32) else a.

Definition to_lower (a : Ascii.ascii) : Ascii.ascii :=
  if is_upper a then Ascii.ascii_of_nat (Ascii.nat_of_ascii a + 32) else a.

Fixpoint title_from (previous_is_cased : bool) (s : string) : string :=
  match s with
  | EmptyString => EmptyString
  | String a s' =>
      String (if previous_is_cased then to_lower a else to_upper a)
             (title_from (is_upper a || is_lower a) s')
  end.

Definition title (s : string) : string := title_from false s.

(** [callback]: [run_cbs(self.cbs, method_nm)]; the call is noted in the log. *)
Definition callback (E : Env) (method_nm : string) : M unit :=
  emit (EvDispatch method_nm) ;;
  l <- get ;;
  LearnerPart2.run_cbs E (cbs l) method_nm.

(** An exception on its way out of a generator frame: a [StopIteration]
    becomes a [RuntimeError] (PEP 479). *)
Definition leaves_generator (e : exn) : exn :=
  match e with
  | Exc cls _ =>
      if bool_decide (cls = "StopIteration")
      then Exc "RuntimeError" ["generator raised StopIteration"]
      else e
  | Cancel _ => e
  end.

Definition on_raise {A} (f : exn -> exn) (m : M A) : M A :=
  fun w => match m w with
           | (w', Raise e) => (w', Raise (f e))
           | r => r
           end.

(** The [except] clause, for [e] raised in the [try:] suite: the class is
    looked up in [globals()] when the clause is evaluated.  [None]: the
    exception is handled ([pass]); otherwise the exception that is pending
    when the [finally:] suite starts. *)
Definition except_clause (globals : string -> option CancelKind) (nm : string)
    (e : exn) : option exn :=
  match globals ("Cancel" +:+ title nm +:+ "Exception") with
  | None => Some (Exc "KeyError" ["Cancel" +:+ title nm +:+ "Exception"])
  | Some k => if isinstance_cancel k e then None else Some e
  end.

(** The [finally:] suite, as seen from outside the generator. *)
Definition finally_suite (E : Env) (nm : string) : M unit :=
  on_raise leaves_generator (callback E ("after_" +:+ nm)).

(** [with self.callback_ctx(nm): body].
    - [__enter__] runs the generator to its [yield]; when the [before]
      callbacks raise, the generator ends without yielding: handled, it
      returns and [__enter__] raises [RuntimeError]; not handled, the
      exception leaves the generator.
    - The block runs; [__exit__] resumes the generator, or throws the
      exception of the block into it at the [yield]: handled, the [with]
      statement completes; not handled, the exception of the block goes on;
      an exception of the [finally:] suite replaces it. *)
Definition with_callback_ctx (E : Env) (globals : string -> option CancelKind)
    (nm : string) (body : M unit) : M unit :=
  try_except (callback E ("before_" +:+ nm))
    (fun e => Some (finally_suite E nm ;;
                    match except_clause globals nm e with
                    | None => raise (Exc "RuntimeError" ["generator didn't yield"])
                    | Some e' => raise (leaves_generator e')
                    end)) ;;
  thrown <- try_except (body ;; ret None) (fun e => Some (ret (Some e))) ;;
  match thrown with
  | None => finally_suite E nm
  | Some e =>
      finally_suite E nm ;;
      match except_clause globals nm e with
      | None => ret tt
      | Some e' => raise e'
      end
  end.

End FlexibleLearner.

(** The cancellation classes that fastai defines, by name. *)
Definition fastai_globals (name : string) : option CancelKind :=
  if bool_decide (name = "CancelFitException") then Some CancelFit
  else if bool_decide (name = "CancelEpochException") then Some CancelEpoch
  else if bool_decide (name = "CancelTrainException") then Some CancelTrain
  else if bool_decide (name = "CancelValidException") then Some CancelValid
  else if bool_decide (name = "CancelBatchException") then Some CancelBatch
  else if bool_decide (name = "CancelBackwardException") then Some CancelBackward
  else if bool_decide (name = "CancelStepException") then Some CancelStep
  else None.

(** A second concrete program: the demo with callbacks that raise late.
    - [Grumpy] raises a [RuntimeError] in [after_fit],
    - [StopLate] raises [CancelFitException] in [after_fit],
    - [SkipBackward] raises [CancelBackwardException] in [before_backward],
    - [SkipEpoch] raises [CancelEpochException] in [before_train],
    - [StopEarly] raises [CancelFitException] in [before_fit],
    - [Retire] sets [self.run = False] in [after_fit]. *)
Module Demo2.

Definition method_table : list (string * string * Method) :=
  [ ("Grumpy", "after_fit", Demo.raises (Exc "RuntimeError" ["late"]));
    ("StopLate", "after_fit", Demo.raises (Cancel CancelFit));
    ("SkipBackward", "before_backward", Demo.raises (Cancel CancelBackward));
    ("SkipEpoch", "before_train", Demo.raises (Cancel CancelEpoch));
    ("StopEarly", "before_fit", Demo.raises (Cancel CancelFit));
    ("Retire", "after_fit", fun self l => (upd_obj self (set_run false) l, Ok VNone)) ]
  ++ Demo.method_table.

Definition E : Env :=
  mkEnv Demo.inner_loop Demo.events (Demo.lookup_method method_table) Demo.instance
        (model Demo.E) (loss_func Demo.E) (backward Demo.E) (opt_step Demo.E)
        (opt_zero_grad Demo.E) (create_opt Demo.E) (set_hypers Demo.E) (_end_cleanup Demo.E).

End Demo2.

(** ** The optimizer of the "Optimizers" notebook

    [Optimizer.all_params], [clear_state], [state_dict] and
    [load_state_dict].  Parameters are tensors, known by their identity; the
    state of a parameter and the hyper-parameters of a group are dicts from
    names to values of a type [V].  [self.state] starts as a
    [defaultdict(dict)], for which reading a missing key inserts an empty
    dict, and is a plain dict after [load_state_dict], for which it raises
    [KeyError].  None of the four methods changes a dict in place, so dicts
    are kept by value. *)
Module Optimizers.

Inductive error :=
| AssertionError
| KeyError (p : nat).

Inductive R (A : Type) :=
| Done (a : A)
| Fail (e : error).
Arguments Done {A} a.
Arguments Fail {A} e.

Section optimizer.
Context {V : Type}.

Record Optimizer := mkOptimizer {
  param_lists : list (list nat);
  hypers : list (gmap string V);
  state : gmap nat (gmap string V);
  state_is_defaultdict : bool
}.

(** What [state_dict] returns and [load_state_dict] takes. *)
Record StateDict := mkStateDict {
  sd_state : list (gmap string V);
  sd_hypers : list (gmap string V)
}.

Definition with_state (s : gmap nat (gmap string V)) (o : Optimizer) : Optimizer :=
  mkOptimizer (param_lists o) (hypers o) s (state_is_defaultdict o).

(** [self.state[p]] *)
Definition getitem (p : nat) (o : Optimizer) : Optimizer * R (gmap string V) :=
  match state o !! p with
  | Some s => (o, Done s)
  | None =>
      if state_is_defaultdict o
      then (with_state (<[p := ∅]> (state o)) o, Done ∅)
      else (o, Fail (KeyError p))
  end.

(** [self.state[p] for p in ps], in order. *)
Fixpoint getitems (ps : list nat) (o : Optimizer) : Optimizer * R (list (gmap string V)) :=
  match ps with
  | [] => (o, Done [])
  | p :: ps' =>
      match getitem p o with
      | (o1, Done s) =>
          match getitems ps' o1 with
          | (o2, Done ss) => (o2, Done (s :: ss))
          | (o2, Fail e) => (o2, Fail e)
          end
      | (o1, Fail e) => (o1, Fail e)
      end
  end.

(** The tuples [(p, pg, self.state[p], hyper)] of [all_params]. *)
Definition Item : Type := nat * list nat * gmap string V * gmap string V.

Fixpoint all_params_of (groups : list (list nat * gmap string V)) (o : Optimizer)
    : Optimizer * R (list Item) :=
  match groups with
  | [] => (o, Done [])
  | (pg, hyper) :: groups' =>
      match getitems pg o with
      | (o1, Done ss) =>
          match all_params_of groups' o1 with
          | (o2, Done res) =>
              (o2, Done (((fun ps => (ps.1, pg, ps.2, hyper)) <$> zip pg ss) ++ res))
          | (o2, Fail e) => (o2, Fail e)
          end
      | (o1, Fail e) => (o1, Fail e)
      end
  end.

(** [all_params]; [has_grad p] stands for
    [hasattr(p, 'grad') and p.grad is not None]. *)
Definition all_params (has_grad : nat -> bool) (with_grad : bool) (o : Optimizer)
    : Optimizer * R (list Item) :=
  match all_params_of (zip (param_lists o) (hypers o)) o with
  | (o1, Done res) =>
      (o1, Done (if with_grad then filter (fun it => has_grad it.1.1.1 = true) res else res))
  | (o1, Fail e) => (o1, Fail e)
  end.

Definition _keep_on_clear : list string := ["force_train"; "do_wd"].

(** [{k: state[k] for k in self._keep_on_clear if k in state}] *)
Definition kept (s : gmap string V) : gmap string V :=
  foldl (fun d k => match s !! k with
                    | Some v => <[k := v]> d
                    | None => d
                    end) ∅ _keep_on_clear.

Definition clear_state (has_grad : nat -> bool) (o : Optimizer) : Optimizer * R unit :=
  match all_params has_grad false o with
  | (o1, Done res) =>
      (foldl (fun o' (it : Item) => with_state (<[it.1.1.1 := kept it.1.2]> (state o')) o')
             o1 res,
       Done tt)
  | (o1, Fail e) => (o1, Fail e)
  end.

Definition state_dict (has_grad : nat -> bool) (o : Optimizer) : Optimizer * R StateDict :=
  match all_params has_grad false o with
  | (o1, Done res) =>
      match getitems ((fun it : Item => it.1.1.1) <$> res) o1 with
      | (o2, Done ss) => (o2, Done (mkStateDict ss (hypers o2)))
      | (o2, Fail e) => (o2, Fail e)
      end
  | (o1, Fail e) => (o1, Fail e)
  end.

(** [{p: s for p,s in zip(ps, ss)}]: a later pair replaces an earlier one. *)
Definition dict_of (pairs : list (nat * gmap string V)) : gmap nat (gmap string V) :=
  foldl (fun d ps => <[ps.1 := ps.2]> d) ∅ pairs.

Definition load_state_dict (has_grad : nat -> bool) (sd : StateDict) (o : Optimizer)
    : Optimizer * R unit :=
  if negb (bool_decide (length (sd_hypers sd) = length (param_lists o)))
  then (o, Fail AssertionError)
  else if negb (bool_decide (length (sd_state sd) = sum_list (length <$> param_lists o)))
  then (o, Fail AssertionError)
  else
    let o1 := mkOptimizer (param_lists o) (sd_hypers sd) (state o) (state_is_defaultdict o) in
    match all_params has_grad false o1 with
    | (o2, Done res) =>
        (mkOptimizer (param_lists o2) (hypers o2)
           (dict_of (zip ((fun it : Item => it.1.1.1) <$> res) (sd_state sd))) false,
         Done tt)
    | (o2, Fail e) => (o2, Fail e)
    end.

(** The state of [p] as a reader sees it. *)
Definition state_of (o : Optimizer) (p : nat) : gmap string V :=
  default ∅ (state o !! p).

(** Every parameter can be read: [self.state] is the [defaultdict], or has
    an entry for each parameter. *)
Definition readable (o : Optimizer) : Prop :=
  state_is_defaultdict o = true \/
  forall p, p ∈ concat (param_lists o) -> is_Some (state o !! p).

(** [o'] is [o] with, possibly, the empty entries that reading [ps] has
    added. *)
Definition grown (ps : list nat) (o o' : Optimizer) : Prop :=
  param_lists o' = param_lists o /\
  hypers o' = hypers o /\
  state_is_defaultdict o' = state_is_defaultdict o /\
  (forall q, state_of o' q = state_of o q) /\
  (forall q, is_Some (state o !! q) -> is_Some (state o' !! q)) /\
  (forall q, q ∉ ps -> state o' !! q = state o !! q).

End optimizer.

Arguments Optimizer V : clear implicits.
Arguments StateDict V : clear implicits.

(** An optimizer with two parameter groups, and a state for the first
    parameter only. *)
Definition demo : Optimizer Z :=
  mkOptimizer [[0; 1]; [2]]%nat [{["lr" := 3]}; {["lr" := 1]}]
    {[0%nat := {["grad_avg" := 5; "do_wd" := 1]}]} true.

End Optimizers.

(** Decidable facts about concrete values. *)
Ltac by_compute := refine (bool_decide_unpack _ _); vm_compute; exact I.

(** ** Facts about [Callback.__call__] *)

Lemma guarded_call_log E self ev c w :
  log (guarded_call E self ev c w).1 = log w ++ [EvCall self ev] \/
  exists e, log (guarded_call E self ev c w).1 = log w ++ [EvCall self ev; EvRaise e].
Proof.
  unfold guarded_call, try_except, bind, emit, ext; simpl.
  destruct (getcallable E self ev (learner w)) as [l' [v|e]]; simpl.
  - by left.
  - right. exists e. destruct e as [k|c0 [|a0 args]]; simpl; by rewrite <- app_assoc.
Qed.

Lemma call_enabled E self ev w :
  run (obj (learner w) self) && Callbacks._run E (learner w) (obj (learner w) self) ev = true ->
  Callbacks.__call__ E self ev w =
    (res <- guarded_call E self ev (obj (learner w) self) ;;
     (if bool_decide (ev = "after_fit") then modify (upd_obj self (set_run true)) else ret tt) ;;
     ret res) w.
Proof.
  intros H. unfold Callbacks.__call__. unfold bind at 1. unfold get at 1.
  by rewrite H.
Qed.

Lemma call_disabled E self ev w :
  run (obj (learner w) self) && Callbacks._run E (learner w) (obj (learner w) self) ev = false ->
  Callbacks.__call__ E self ev w =
    (if bool_decide (ev = "after_fit")
     then (mkWorld (upd_obj self (set_run true) (learner w)) (log w), Ok VNone)
     else (w, Ok VNone)).
Proof.
  intros H. unfold Callbacks.__call__. unfold bind at 1. unfold get at 1.
  rewrite H. unfold bind, ret, modify. by case_bool_decide.
Qed.

Lemma call_log_enabled E self ev w :
  run (obj (learner w) self) && Callbacks._run E (learner w) (obj (learner w) self) ev = true ->
  delivered self ev w (Callbacks.__call__ E self ev w).1.
Proof.
  intros H. rewrite call_enabled by done. unfold delivered, bind.
  pose proof (guarded_call_log E self ev (obj (learner w) self) w) as Hl.
  destruct (guarded_call E self ev (obj (learner w) self) w) as [w1 [v|e]]; simpl in *.
  - unfold modify, ret. case_bool_decide; simpl;
      (destruct Hl as [Hl|[e Hl]]; rewrite Hl; eauto).
  - destruct Hl as [Hl|[e' Hl]]; rewrite Hl; eauto.
Qed.

Lemma call_log_disabled E self ev w :
  run (obj (learner w) self) && Callbacks._run E (learner w) (obj (learner w) self) ev = false ->
  log (Callbacks.__call__ E self ev w).1 = log w.
Proof.
  intros H. rewrite call_disabled by done. by case_bool_decide.
Qed.

Lemma obj_upd_obj_same l i f : obj (upd_obj i f l) i = f (obj l i).
Proof. unfold obj at 1, upd_obj; simpl. by rewrite lookup_insert_eq. Qed.

(** The local [_run] of [__call__] does not depend on the learner. *)
Lemma run_without_training E l c ev :
  Callbacks._run E l c ev =
    negb (bool_decide (ev ∈ _inner_loop E)) || run_train c || run_valid c.
Proof.
  unfold Callbacks._run, Callbacks.getattr_training. by rewrite !andb_true_r.
Qed.

(** C6 on the code: [getattr(self, 'training', ...)] never reaches the
    learner, so the only callbacks that an event of [_inner_loop] skips are
    those with [run_train] and [run_valid] both false.  A callback with
    [run] true and one of [run_train], [run_valid] true is handed every
    event, whatever [learn.training] and the other flag are.
    [TrainEvalCallback] ([run_valid = False]) is handed [after_batch] in a
    validation phase; and a callback that counts [after_batch], with
    [run_valid = False], counts a batch of the validation phase. *)
Theorem run_valid_false_called_in_validation :
  (forall E self ev w,
     run (obj (learner w) self) = true ->
     run_train (obj (learner w) self) = true \/ run_valid (obj (learner w) self) = true ->
     delivered self ev w (Callbacks.__call__ E self ev w).1) /\
  (let w := Demo.in_phase false ["TrainEvalCallback"] in
   let c := obj (learner w) 0 in
   (run c = true /\ run_train c = true /\ run_valid c = false /\ learn c = true) /\
   training (learner w) = Some false /\
   ("after_batch" ∈ _inner_loop Demo.E) /\
   delivered 0 "after_batch" w (Callbacks.__call__ Demo.E 0 "after_batch" w).1) /\
  (let train_only := fun c => mkCallback (cls c) (mro c) (name c) (order c)
                                 true true false (learn c) in
   let w := mkWorld (upd_obj 0 train_only (learner (Demo.in_phase false ["CountBatches"]))) [] in
   let c := obj (learner w) 0 in
   let r := Callbacks.__call__ Demo.E 0 "after_batch" w in
   (run c = true /\ run_train c = true /\ run_valid c = false /\ learn c = true) /\
   training (learner w) = Some false /\
   delivered 0 "after_batch" w r.1 /\
   r.2 = Ok VNone /\
   Demo.counter "count" w = 0 /\
   Demo.counter "count" r.1 = 1).
Proof.
  split; [|split].
  - intros E self ev w Hrun Hflag. apply call_log_enabled.
    rewrite run_without_training, Hrun. destruct Hflag as [-> | ->]; by rewrite ?orb_true_r.
  - intros w c. split; [repeat split; reflexivity|]. split; [reflexivity|].
    split; [by_compute|]. exists []. vm_compute. reflexivity.
  - intros train_only w c r. split; [repeat split; reflexivity|]. split; [reflexivity|].
    split; [exists []; vm_compute; reflexivity|]. repeat split; vm_compute; reflexivity.
Qed.

(** The call itself never writes the [run] flag outside [after_fit]: it is
    the guarded handler call, or nothing at all. *)
Lemma call_other_event E self ev w :
  ev ≠ "after_fit" ->
  Callbacks.__call__ E self ev w =
    if run (obj (learner w) self) && Callbacks._run E (learner w) (obj (learner w) self) ev
    then guarded_call E self ev (obj (learner w) self) w
    else (w, Ok VNone).
Proof.
  intros Hev.
  destruct (run (obj (learner w) self) && Callbacks._run E (learner w) (obj (learner w) self) ev)
    eqn:Hg.
  - rewrite call_enabled by done. unfold bind.
    destruct (guarded_call E self ev (obj (learner w) self) w) as [w1 [v|e]]; [|done].
    rewrite bool_decide_eq_false_2 by done. done.
  - rewrite call_disabled by done. by rewrite bool_decide_eq_false_2.
Qed.

(** C10: a dispatch of [after_fit] to a callback that returns leaves its
    [run] flag true whatever it was before; the only dispatch that does not
    return is one whose enabled handler raised, and then [__call__] wrote
    nothing.  A callback with [run = False] is re-enabled without any handler
    being run and without any other change.  For every other event name
    [__call__] is the guarded handler call, or nothing: it does not write the
    flag. *)
Theorem after_fit_resets_run E self w :
  let c := obj (learner w) self in
  let r := Callbacks.__call__ E self "after_fit" w in
  (((exists v, r.2 = Ok v) /\ run (obj (learner r.1) self) = true) \/
   ((exists e, r.2 = Raise e) /\ run c = true /\
    r = guarded_call E self "after_fit" c w)) /\
  (run c = false ->
     r = (mkWorld (upd_obj self (set_run true) (learner w)) (log w), Ok VNone)) /\
  (forall ev, ev ≠ "after_fit" ->
     Callbacks.__call__ E self ev w =
       if run c && Callbacks._run E (learner w) c ev
       then guarded_call E self ev c w
       else (w, Ok VNone)).
Proof.
  intros c r. split; [|split].
  - subst r.
    destruct (run c && Callbacks._run E (learner w) c "after_fit") eqn:Hg.
    + rewrite call_enabled by done. unfold bind. fold c.
      destruct (guarded_call E self "after_fit" c w) as [w1 [v|e]] eqn:Hgc; simpl.
      * left. split; [by eexists|]. by rewrite obj_upd_obj_same.
      * right. split; [by eexists|]. split; [|done].
        by apply andb_true_iff in Hg as [? _].
    + rewrite call_disabled by done. simpl. left. split; [by eexists|].
      by rewrite obj_upd_obj_same.
  - intros Hrun. subst r. rewrite call_disabled; [done|]. fold c. by rewrite Hrun.
  - intros ev Hev. by apply call_other_event.
Qed.

(** The three statements of C10 on [TrainEvalCallback], disabled, in a
    validation phase. *)
Lemma after_fit_resets_run_witness :
  let w := mkWorld (upd_obj 0 (set_run false) (learner (Demo.in_phase false ["TrainEvalCallback"]))) [] in
  run (obj (learner w) 0) = false /\
  run (obj (learner (Callbacks.__call__ Demo.E 0 "after_fit" w).1) 0) = true /\
  Callbacks.__call__ Demo.E 0 "after_batch" w = (w, Ok VNone).
Proof.
  intros w.
  destruct (after_fit_resets_run Demo.E 0 w) as (_ & Hoff & Hother).
  split; [reflexivity|]. split.
  - rewrite (Hoff eq_refl). reflexivity.
  - rewrite (Hother "after_batch"); [reflexivity | discriminate].
Defined.

(** The shortened [__call__] is the guarded handler call when the callback is
    enabled. *)
Lemma part2_call_enabled E self ev w :
  run (obj (learner w) self) = true ->
  LearnerPart2.__call__ E self ev w = guarded_call E self ev (obj (learner w) self) w.
Proof.
  intros Hrun. unfold LearnerPart2.__call__. unfold bind at 1. unfold get at 1.
  rewrite Hrun.
  change (try_except _ _) with (guarded_call E self ev (obj (learner w) self)).
  generalize (guarded_call E self ev (obj (learner w) self)). intros g.
  unfold bind, ret. by destruct (g w) as [w1 [v|e]].
Qed.

Lemma upd_obj_id i f l c : heap l !! i = Some c -> f c = c -> upd_obj i f l = l.
Proof.
  intros Hi Hf. unfold upd_obj, obj. rewrite Hi. simpl. rewrite Hf.
  rewrite insert_id by done. by destruct l.
Qed.

Lemma set_run_id c : run c = true -> set_run true c = c.
Proof. intros Hc. destruct c. cbn in *. by subst. Qed.

(** C9, as amended: the shortened [__call__] of the Part 2 notebook and the
    full one of the Callbacks notebook return the same result, run the same
    handler and leave the same state whenever [run] is true, the event passes
    the [_inner_loop] test of the full version, and, for [after_fit], the
    handler that returns leaves the callback with [run] true. *)
Theorem call_versions_agree E self ev w :
  run (obj (learner w) self) = true ->
  Callbacks._run E (learner w) (obj (learner w) self) ev = true ->
  (ev = "after_fit" ->
   forall w1 v, guarded_call E self ev (obj (learner w) self) w = (w1, Ok v) ->
     exists c, heap (learner w1) !! self = Some c /\ run c = true) ->
  LearnerPart2.__call__ E self ev w = Callbacks.__call__ E self ev w.
Proof.
  intros Hrun Hgate Hfit.
  rewrite part2_call_enabled by done.
  rewrite call_enabled by (by rewrite Hrun, Hgate). unfold bind.
  destruct (guarded_call E self ev (obj (learner w) self) w) as [w1 [v|e]] eqn:Hg; [|done].
  case_bool_decide as Hev; [|done].
  destruct (Hfit Hev w1 v eq_refl) as (c & Hc & Hrunc).
  unfold modify, ret. rewrite (upd_obj_id _ _ _ c Hc (set_run_id c Hrunc)).
  by destruct w1.
Qed.

(** [CountBatches] has no [after_fit] method of its own: the call returns
    and the callback is as it was. *)
Lemma call_versions_agree_witness :
  LearnerPart2.__call__ Demo.E 0 "after_batch" (Demo.in_phase true ["TrainEvalCallback"]) =
    Callbacks.__call__ Demo.E 0 "after_batch" (Demo.in_phase true ["TrainEvalCallback"]) /\
  LearnerPart2.__call__ Demo.E 0 "after_fit" (Demo.world_with ["CountBatches"]) =
    Callbacks.__call__ Demo.E 0 "after_fit" (Demo.world_with ["CountBatches"]).
Proof.
  split.
  - apply (call_versions_agree Demo.E 0 "after_batch" (Demo.in_phase true ["TrainEvalCallback"])).
    + reflexivity.
    + reflexivity.
    + discriminate.
  - apply (call_versions_agree Demo.E 0 "after_fit" (Demo.world_with ["CountBatches"])).
    + reflexivity.
    + reflexivity.
    + intros _ w1 v Hcall. vm_compute in Hcall. injection Hcall as <- <-.
      eexists. split; reflexivity.
Defined.

(** C9 as stated fails.  With [run = False] the full version returns [None]
    and the shortened one raises [UnboundLocalError]; a callback with
    [run_train] and [run_valid] both false is skipped for [after_batch] by
    the full version and run by the shortened one; and after an [after_fit]
    handler that sets [self.run = False] the full version leaves [run] true
    and the shortened one leaves it false. *)
Lemma call_versions_differ :
  let off := mkWorld (upd_obj 0 (set_run false) (learner (Demo.world_with ["CountBatches"]))) [] in
  let idle := mkWorld (upd_obj 0 (fun c => mkCallback (cls c) (mro c) (name c) (order c)
                                             true false false (learn c))
                         (learner (Demo.world_with ["CountBatches"]))) [] in
  let late := Demo.world_with ["Retire"] in
  (Callbacks.__call__ Demo.E 0 "after_batch" off).2 = Ok VNone /\
  (exists a, (LearnerPart2.__call__ Demo.E 0 "after_batch" off).2 =
             Raise (Exc "UnboundLocalError" a)) /\
  calls (log (Callbacks.__call__ Demo.E 0 "after_batch" idle).1) = [] /\
  calls (log (LearnerPart2.__call__ Demo.E 0 "after_batch" idle).1) = [(0%nat, "after_batch")] /\
  LearnerPart2.__call__ Demo.E 0 "after_batch" off <> Callbacks.__call__ Demo.E 0 "after_batch" off /\
  LearnerPart2.__call__ Demo.E 0 "after_batch" idle <> Callbacks.__call__ Demo.E 0 "after_batch" idle /\
  run (obj (learner late) 0) = true /\
  Callbacks._run Demo2.E (learner late) (obj (learner late) 0) "after_fit" = true /\
  run (obj (learner (Callbacks.__call__ Demo2.E 0 "after_fit" late).1) 0) = true /\
  run (obj (learner (LearnerPart2.__call__ Demo2.E 0 "after_fit" late).1) 0) = false /\
  LearnerPart2.__call__ Demo2.E 0 "after_fit" late <> Callbacks.__call__ Demo2.E 0 "after_fit" late.
Proof.
  intros off idle late. split; [vm_compute; reflexivity|].
  split; [eexists; vm_compute; reflexivity|].
  split; [vm_compute; reflexivity|]. split; [vm_compute; reflexivity|].
  split; [|split; [|split; [reflexivity|split; [reflexivity|split; [reflexivity|split;
    [reflexivity|]]]]]].
  - intros H. apply (f_equal snd) in H. vm_compute in H. discriminate.
  - intros H. apply (f_equal (fun r => log r.1)) in H. vm_compute in H. discriminate.
  - intros H. apply (f_equal (fun r => run (obj (learner r.1) 0))) in H. vm_compute in H.
    discriminate.
Qed.

(** With [run = False] the shortened version does not return at all. *)
Lemma part2_call_disabled E self ev w :
  run (obj (learner w) self) = false ->
  LearnerPart2.__call__ E self ev w =
    (w, Raise (Exc "UnboundLocalError" ["local variable 'res' referenced before assignment"])).
Proof.
  intros Hrun. unfold LearnerPart2.__call__. unfold bind at 1. unfold get at 1.
  by rewrite Hrun.
Qed.

(** What the [except] clauses of [__call__] do with an exception of the
    handler: a cancellation comes out as it is, any other exception with
    non-empty [args] comes out as the same class carrying the message that
    names the callback class and the event, and something is always raised. *)
Lemma guarded_call_raises E self ev c w l' e :
  getcallable E self ev (learner w) = (l', Raise e) ->
  exists e', guarded_call E self ev c w =
               (mkWorld l' (log w ++ [EvCall self ev; EvRaise e]), Raise e') /\
    match e with
    | Cancel k => e' = Cancel k
    | Exc x (a0 :: _) => e' = Exc x [occured_msg (cls c) ev a0]
    | Exc x [] => e' = Exc "IndexError" ["tuple index out of range"]
    end.
Proof.
  intros Hh. unfold guarded_call, try_except, bind, emit, ext; simpl. rewrite Hh.
  destruct e as [k|x [|a0 args]]; simpl; rewrite <- app_assoc; eauto.
Qed.

(** C5 on the code: [ProgressCallback.before_fit] is
    [assert hasattr(self.learn, 'recorder')]; without a recorder the handler
    raises [AssertionError()] with empty [args], and what [__call__] raises is
    the [IndexError] of [e.args[0]], which names neither the callback nor the
    event. *)
Theorem assert_without_message_loses_context :
  getcallable Demo.E 0 "before_fit" (learner (Demo.world_with ["ProgressCallback"])) =
    (learner (Demo.world_with ["ProgressCallback"]), Raise (Exc "AssertionError" [])) /\
  (Callbacks.__call__ Demo.E 0 "before_fit" (Demo.world_with ["ProgressCallback"])).2 =
    Raise (Exc "IndexError" ["tuple index out of range"]).
Proof. split; reflexivity. Qed.

(** ** [_split] *)

Lemma slice_bound_default (n : nat) :
  slice_bound n (if bool_decide (n = 1%nat) then 1 else Z.of_nat n - 1) =
  if bool_decide (n = 1%nat) then 1%nat else (n - 1)%nat.
Proof. unfold slice_bound. case_bool_decide; destruct (_ <? _) eqn:?; lia. Qed.

(** C7, as amended: [_split] cuts the batch at [n_inp] when the data loaders
    define it ([xb = b[:n_inp]], [yb = b[n_inp:]]); without it, a batch whose
    length is not 1 is cut before its last element, and a batch of length 1
    is all input with no target.  The two parts always make up the batch. *)
Theorem split_default_and_n_inp (b : Batch) (w : World) :
  let l' := learner (LearnerPart1._split b w).1 in
  (LearnerPart1._split b w).2 = Ok tt /\
  xb l' ++ yb l' = b /\
  (forall i, dls_n_inp (learner w) = Some i ->
     xb l' = slice_to b i /\ yb l' = slice_from b i) /\
  (dls_n_inp (learner w) = None -> length b ≠ 1%nat -> all_but_last_split b (xb l') (yb l')) /\
  (dls_n_inp (learner w) = None -> length b = 1%nat -> xb l' = b /\ yb l' = []).
Proof.
  unfold LearnerPart1._split, bind, get, modify; simpl.
  split; [done|]. split; [apply take_drop|]. split; [|split].
  - intros i ->. done.
  - intros -> Hlen. simpl. unfold all_but_last_split, slice_to, slice_from.
    rewrite slice_bound_default. by rewrite bool_decide_eq_false_2.
  - intros -> Hlen. simpl. unfold slice_to, slice_from.
    rewrite slice_bound_default. rewrite bool_decide_eq_true_2 by done.
    rewrite <- Hlen. by rewrite take_ge, drop_ge.
Qed.

Lemma split_default_and_n_inp_witness :
  xb (learner (LearnerPart1._split (Demo.batch 1 0) Demo.start).1) = [mkTensor 1 0] /\
  yb (learner (LearnerPart1._split (Demo.batch 1 0) Demo.start).1) = [mkTensor 0 0] /\
  xb (learner (LearnerPart1._split [mkTensor 7 0] Demo.start).1) = [mkTensor 7 0] /\
  yb (learner (LearnerPart1._split [mkTensor 7 0] Demo.start).1) = [].
Proof.
  destruct (split_default_and_n_inp (Demo.batch 1 0) Demo.start) as (_ & _ & _ & H2 & _).
  destruct (split_default_and_n_inp [mkTensor 7 0] Demo.start) as (_ & _ & _ & _ & H1).
  destruct (H2 eq_refl) as [Hx Hy]; [discriminate|].
  destruct (H1 eq_refl eq_refl) as [Hx1 Hy1].
  rewrite Hx, Hy, Hx1, Hy1. repeat split; reflexivity.
Defined.

(** C7 as stated fails on a batch of length 1: its only element becomes the
    input and there is no target. *)
Lemma split_singleton_not_all_but_last :
  ~ all_but_last_split [mkTensor 7 0]
      (xb (learner (LearnerPart1._split [mkTensor 7 0] Demo.start).1))
      (yb (learner (LearnerPart1._split [mkTensor 7 0] Demo.start).1)).
Proof. intros [Hx _]. vm_compute in Hx. discriminate. Qed.

(** ** [add_cb] and [remove_cb] *)

Lemma for_each_ok {A} (xs : list A) (body : A -> M unit) :
  (forall x w, (body x w).2 = Ok tt) -> forall w, (for_each xs body w).2 = Ok tt.
Proof.
  intros Hb. induction xs as [|x xs IH]; intros w; simpl; [done|].
  unfold bind. specialize (Hb x w). destruct (body x w) as [w1 r]; simpl in *.
  subst r. apply IH.
Qed.

(** [remove_cb] of an instance, by what [hasattr(self, cb.name)] finds. *)
Lemma remove_cb_instance_spec cb w :
  LearnerPart1.remove_cb_instance cb w =
    if bool_decide (is_Some (attrs (learner w) !! name (obj (learner w) cb)))
       || negb (bool_decide (name (obj (learner w) cb) ∈ inherited (learner w)))
    then
      (mkWorld
         (with_cbs (if bool_decide (cb ∈ cbs (learner w))
                    then list_remove_first cb (cbs (learner w))
                    else cbs (learner w))
            (with_attrs (delete (name (obj (learner w) cb)) (attrs (learner w)))
               (upd_obj cb (set_learn false) (learner w))))
         (log w), Ok tt)
    else
      (mkWorld (upd_obj cb (set_learn false) (learner w)) (log w),
       Raise (Exc "AttributeError" [name (obj (learner w) cb)])).
Proof.
  unfold LearnerPart1.remove_cb_instance, bind, modify, get, ret, raise; simpl.
  assert (Hname : name (obj (upd_obj cb (set_learn false) (learner w)) cb) =
                  name (obj (learner w) cb)) by (by rewrite obj_upd_obj_same).
  rewrite !Hname. destruct w as [l lg]. simpl in *.
  case_bool_decide as Hattr; simpl.
  - case_bool_decide; simpl; rewrite ?Hname; done.
  - assert (Hdel : delete (name (obj l cb)) (attrs l) = attrs l).
    { apply delete_id. destruct (attrs l !! _) eqn:Heq; [|done].
      exfalso. apply Hattr. by eexists. }
    rewrite Hdel. case_bool_decide as Hinh; simpl; [done|].
    case_bool_decide; simpl; destruct l; reflexivity.
Qed.

Lemma remove_cb_instance_ok cb w :
  is_Some (attrs (learner w) !! name (obj (learner w) cb)) \/
    name (obj (learner w) cb) ∉ inherited (learner w) ->
  (LearnerPart1.remove_cb_instance cb w).2 = Ok tt.
Proof.
  intros Hok. rewrite remove_cb_instance_spec.
  destruct Hok as [Hok|Hok].
  - by rewrite (bool_decide_eq_true_2 _ Hok).
  - by rewrite (bool_decide_eq_false_2 _ Hok), orb_true_r.
Qed.

Lemma list_remove_first_notin x xs : x ∉ xs -> list_remove_first x xs = xs.
Proof.
  induction xs as [|y ys IH]; simpl; [done|]. intros Hn.
  rewrite bool_decide_eq_false_2 by set_solver. f_equal. apply IH. set_solver.
Qed.

(** C8, as amended: [remove_cb] of an instance that is not registered
    leaves [self.cbs] as it is and clears the callback's [learn]; it returns
    normally exactly when the name of the callback is an attribute of the
    instance or is not found by [hasattr] at all, and otherwise (the name is
    found on the class or on the model only) it raises the [AttributeError]
    of [delattr].  [add_cb] never raises, and for an instance that is already
    registered it appends it once more. *)
Theorem remove_unknown_add_duplicate_silent E (cb : nat) (w : World) :
  let nm := name (obj (learner w) cb) in
  let r := LearnerPart1.remove_cb (LearnerPart1.CbInst cb) w in
  (forall arg, (LearnerPart1.add_cb E arg w).2 = Ok tt) /\
  (cb ∉ cbs (learner w) ->
     cbs (learner r.1) = cbs (learner w) /\
     learn (obj (learner r.1) cb) = false /\
     log r.1 = log w /\
     (r.2 = Ok tt <->
      is_Some (attrs (learner w) !! nm) \/ nm ∉ inherited (learner w)) /\
     (r.2 = Ok tt \/ exists a, r.2 = Raise (Exc "AttributeError" a))) /\
  (cb ∈ cbs (learner w) ->
     let w' := (LearnerPart1.add_cb E (LearnerPart1.CbInst cb) w).1 in
     cbs (learner w') = cbs (learner w) ++ [cb] /\
     learn (obj (learner w') cb) = true).
Proof.
  intros nm r. split; [|split].
  - intros [c|i]; reflexivity.
  - intros Hn. subst r nm. cbn [LearnerPart1.remove_cb]. rewrite remove_cb_instance_spec.
    rewrite (bool_decide_eq_false_2 _ Hn).
    assert (Hlearn : forall l, learn (obj (upd_obj cb (set_learn false) l) cb) = false)
      by (intros l; by rewrite obj_upd_obj_same).
    case_bool_decide as Hattr; cbn [orb negb fst snd learner log].
    + split; [done|]. split; [exact (Hlearn (learner w))|]. split; [done|].
      split; [|by left]. split; [by left | done].
    + case_bool_decide as Hinh; cbn [orb negb fst snd learner log].
      * split; [done|]. split; [exact (Hlearn (learner w))|]. split; [done|].
        split; [|right; by eexists]. split; [done|]. intros [?|?]; done.
      * split; [done|]. split; [exact (Hlearn (learner w))|]. split; [done|].
        split; [|by left]. split; [by right | done].
  - intros Hin. simpl. split; [done|].
    unfold obj; simpl. unfold obj. by rewrite lookup_insert_eq.
Qed.

(** The callback registered first is removed twice and then added twice. *)
Lemma remove_unknown_add_duplicate_silent_witness :
  let w := (LearnerPart1.remove_cb (LearnerPart1.CbInst 0) (Demo.world_with ["CountBatches"])).1 in
  let w2 := (LearnerPart1.add_cb Demo.E (LearnerPart1.CbInst 0) w).1 in
  cbs (learner w) = [] /\
  (LearnerPart1.remove_cb (LearnerPart1.CbInst 0) w).2 = Ok tt /\
  cbs (learner (LearnerPart1.remove_cb (LearnerPart1.CbInst 0) w).1) = [] /\
  cbs (learner w2) = [0%nat] /\
  (LearnerPart1.add_cb Demo.E (LearnerPart1.CbInst 0) w2).2 = Ok tt /\
  cbs (learner (LearnerPart1.add_cb Demo.E (LearnerPart1.CbInst 0) w2).1) = [0%nat; 0%nat].
Proof.
  intros w w2.
  destruct (remove_unknown_add_duplicate_silent Demo.E 0 w) as (_ & Hunk & _).
  destruct (remove_unknown_add_duplicate_silent Demo.E 0 w2) as (Ha & _ & Hdup).
  split; [reflexivity|].
  destruct Hunk as (Hcbs & _ & _ & Hok & _); [by_compute|].
  split; [apply Hok; right; by_compute|]. split; [rewrite Hcbs; reflexivity|].
  split; [reflexivity|]. split; [apply Ha|].
  destruct Hdup as (-> & _); [by_compute | reflexivity].
Defined.

(** C8 as stated fails: removing a callback that is no longer registered
    returns normally, and so does registering twice the same instance. *)
Lemma remove_unknown_does_not_fail :
  let w := (LearnerPart1.remove_cb (LearnerPart1.CbInst 0) (Demo.world_with ["CountBatches"])).1 in
  (0%nat ∉ cbs (learner w)) /\
  (~ fails_loudly (LearnerPart1.remove_cb (LearnerPart1.CbInst 0) w).2) /\
  (0%nat ∈ cbs (learner (Demo.world_with ["CountBatches"]))) /\
  (~ fails_loudly
      (LearnerPart1.add_cb Demo.E (LearnerPart1.CbInst 0) (Demo.world_with ["CountBatches"])).2).
Proof.
  intros w. split; [by_compute|]. split; [intros [e He]; vm_compute in He; discriminate|].
  split; [by_compute|]. intros [e He]; discriminate.
Qed.

(** A callback named after a method of the learner, never registered: its
    removal raises. *)
Example remove_unregistered_named_fit :
  let w := mkWorld (with_heap {[0%nat := base_callback "Fit" "fit"]} Demo.empty_learner) [] in
  exists a, (LearnerPart1.remove_cb (LearnerPart1.CbInst 0) w).2 = Raise (Exc "AttributeError" a).
Proof. eexists. vm_compute. reflexivity. Qed.

(** ** The stable sort *)

Section sorted.
Context {A : Type} (key : A -> Z).

Lemma insert_by_perm x xs : insert_by key x xs ≡ₚ x :: xs.
Proof.
  induction xs as [|y ys IH]; simpl; [done|].
  destruct (key x <=? key y); [done|]. rewrite IH. apply Permutation_swap.
Qed.

Lemma sorted_perm xs : sorted key xs ≡ₚ xs.
Proof.
  induction xs as [|x xs IH]; simpl; [done|]. by rewrite insert_by_perm, IH.
Qed.

Lemma insert_by_sorted x xs :
  StronglySorted (fun a b => key a <= key b) xs ->
  StronglySorted (fun a b => key a <= key b) (insert_by key x xs).
Proof.
  induction 1 as [|y ys Hs IH Hall]; simpl.
  - repeat constructor.
  - destruct (key x <=? key y) eqn:Hle.
    + apply Z.leb_le in Hle. constructor; [by constructor|].
      constructor; [done|]. eapply Forall_impl; [exact Hall|]. simpl. lia.
    + apply Z.leb_gt in Hle. constructor; [done|].
      rewrite insert_by_perm. constructor; [lia | done].
Qed.

Lemma sorted_sorted xs : StronglySorted (fun a b => key a <= key b) (sorted key xs).
Proof.
  induction xs as [|x xs IH]; simpl; [constructor | by apply insert_by_sorted].
Qed.

(** Inserting never moves an element past another one with the same key. *)
Lemma insert_by_stable k x xs :
  filter (fun a => key a = k) (insert_by key x xs) = filter (fun a => key a = k) (x :: xs).
Proof.
  induction xs as [|y ys IH]; simpl; [done|].
  destruct (key x <=? key y) eqn:Hle; [done|]. apply Z.leb_gt in Hle.
  rewrite (filter_cons _ y), IH, !filter_cons.
  repeat case_decide; try done; lia.
Qed.

Lemma sorted_stable k xs :
  filter (fun a => key a = k) (sorted key xs) = filter (fun a => key a = k) xs.
Proof.
  induction xs as [|x xs IH]; simpl; [done|].
  by rewrite insert_by_stable, !filter_cons, IH.
Qed.

End sorted.

(** ** Shape of what a dispatch adds to the log *)

Lemma new_log_app w w' l : log w' = log w ++ l -> new_log w w' = l.
Proof. intros H. unfold new_log. rewrite H. apply drop_app_length. Qed.

Lemma call_single E ev w : LearnerPart1.__call__ E [ev] w = LearnerPart1._call_one E ev w.
Proof.
  unfold LearnerPart1.__call__; simpl. unfold bind, ret.
  by destruct (LearnerPart1._call_one E ev w) as [w1 [[]|e]].
Qed.

Lemma guarded_call_shape E self ev c w :
  exists l, log (guarded_call E self ev c w).1 = log w ++ l /\
            call_shape self ev l (outcome (guarded_call E self ev c w).2) /\ l ≠ [].
Proof.
  unfold guarded_call, try_except, bind, emit, ext; simpl.
  destruct (getcallable E self ev (learner w)) as [l' [v|e]]; simpl.
  - eexists. split; [done|]. split; [constructor | done].
  - exists [EvCall self ev; EvRaise e].
    destruct e as [k|x [|a0 args]]; simpl; rewrite <- app_assoc;
      (split; [done|]); (split; [|done]); constructor; intros k' [?|?]; congruence.
Qed.

Lemma call_shape_spec E self ev w :
  exists l, log (Callbacks.__call__ E self ev w).1 = log w ++ l /\
            call_shape self ev l (outcome (Callbacks.__call__ E self ev w).2).
Proof.
  destruct (run (obj (learner w) self) && Callbacks._run E (learner w) (obj (learner w) self) ev)
    eqn:Hg.
  - rewrite call_enabled by done. unfold bind.
    destruct (guarded_call_shape E self ev (obj (learner w) self) w) as (l & Hl & Hs & _).
    destruct (guarded_call E self ev (obj (learner w) self) w) as [w1 [v|e]]; simpl in *.
    + exists l. case_bool_decide; by unfold modify, ret.
    + by exists l.
  - rewrite call_disabled by done. exists []. rewrite app_nil_r.
    case_bool_decide; simpl; split; try done; constructor.
Qed.

Lemma call_shape_calls self ev l o : call_shape self ev l o -> calls l `sublist_of` [(self, ev)].
Proof. destruct 1; simpl; [apply sublist_nil_l | done | done]. Qed.

Lemma call_shape_dispatched self ev l o : call_shape self ev l o -> dispatched l = [].
Proof. by destruct 1. Qed.

(** The handlers a loop over callbacks runs are run in the order of the loop. *)
Lemma for_each_calls (ev : string) (body : nat -> M unit) :
  (forall cb w, exists l, log (body cb w).1 = log w ++ l /\
                          calls l `sublist_of` [(cb, ev)] /\ dispatched l = []) ->
  forall xs w, exists l, log (for_each xs body w).1 = log w ++ l /\
                         calls l `sublist_of` ((fun cb => (cb, ev)) <$> xs) /\
                         dispatched l = [].
Proof.
  intros Hb. induction xs as [|x xs IH]; intros w; simpl.
  - exists []. by rewrite app_nil_r.
  - unfold bind. destruct (Hb x w) as (l1 & Hl1 & Hc1 & Hd1).
    destruct (body x w) as [w1 [[]|e]]; simpl in *.
    + destruct (IH w1) as (l2 & Hl2 & Hc2 & Hd2). exists (l1 ++ l2).
      rewrite Hl2, Hl1, app_assoc. split; [done|].
      unfold calls, dispatched in *. rewrite !omap_app. split.
      * exact (sublist_app _ [(x, ev)] _ _ Hc1 Hc2).
      * by rewrite Hd1, Hd2.
    + exists l1. split; [done|]. split; [|done].
      exact (sublist_inserts_r _ _ [(x, ev)] Hc1).
Qed.

Lemma call_body_calls E ev cb w :
  exists l, log ((_ <- Callbacks.__call__ E cb ev ;; ret tt) w).1 = log w ++ l /\
            calls l `sublist_of` [(cb, ev)] /\ dispatched l = [].
Proof.
  destruct (call_shape_spec E cb ev w) as (l & Hl & Hs).
  exists l. unfold bind, ret.
  destruct (Callbacks.__call__ E cb ev w) as [w1 [v|e]]; simpl in *;
    eauto using call_shape_calls, call_shape_dispatched.
Qed.

(** One [_call_one] is one dispatch, followed by handler executions in the
    order of the sorted callback list. *)
Lemma call_one_log E ev w :
  exists rest, log (LearnerPart1._call_one E ev w).1 = log w ++ EvDispatch ev :: rest /\
    dispatched rest = [] /\
    calls rest `sublist_of`
      ((fun cb => (cb, ev)) <$> sorted (fun cb => order (obj (learner w) cb)) (cbs (learner w))).
Proof.
  unfold LearnerPart1._call_one. unfold bind at 1. unfold emit at 1.
  unfold bind at 1. case_bool_decide.
  - unfold ret at 1. unfold bind at 1. unfold get at 1. simpl.
    set (w0 := mkWorld (learner w) (log w ++ [EvDispatch ev])).
    destruct (for_each_calls ev (fun cb => _ <- Callbacks.__call__ E cb ev ;; ret tt)
                (call_body_calls E ev)
                (sorted (fun cb => order (obj (learner w) cb)) (cbs (learner w))) w0)
      as (l & Hl & Hc & Hd).
    exists l. split; [|done]. rewrite Hl. simpl. by rewrite <- app_assoc.
  - exists []. simpl. split; [done|]. split; [done|]. apply sublist_nil_l.
Qed.

Lemma run_cbs_log E cbs' ev w :
  exists l, log (LearnerPart2.run_cbs E cbs' ev w).1 = log w ++ l /\
    calls l `sublist_of`
      ((fun cb => (cb, ev)) <$> sorted (fun cb => order (obj (learner w) cb)) cbs').
Proof.
  unfold LearnerPart2.run_cbs. unfold bind at 1. unfold get at 1.
  edestruct (for_each_calls ev) as (l & Hl & Hc & _); [|by eauto].
  intros cb w0. unfold bind at 1. unfold get at 1.
  destruct (methods E (cls (obj (learner w0) cb)) ev) as [m|].
  - unfold bind, emit, ext, ret; simpl.
    destruct (m cb (learner w0)) as [l' [v|e]]; simpl.
    + by exists [EvCall cb ev].
    + exists [EvCall cb ev; EvRaise e]. by rewrite <- app_assoc.
  - exists []. simpl. rewrite app_nil_r. split; [done|]. split; [apply sublist_nil_l | done].
Qed.

(** What a loop over callbacks executes, from what each step does. *)
Lemma for_each_handled (test : Learner -> nat -> bool) (step : nat -> M unit) (ev : string) :
  (forall cb w, exists l, log (step cb w).1 = log w ++ l /\
                          calls l = if test (learner w) cb then [(cb, ev)] else []) ->
  forall xs w, exists l, log (for_each xs step w).1 = log w ++ l /\
                         calls l = handled test step ev xs w.
Proof.
  intros Hstep. induction xs as [|x xs IH]; intros w; cbn [for_each handled].
  - exists []. by rewrite app_nil_r.
  - unfold bind. destruct (Hstep x w) as (l1 & Hl1 & Hc1).
    destruct (step x w) as [w1 [[]|e]]; cbn [fst snd] in *.
    + destruct (IH w1) as (l2 & Hl2 & Hc2). exists (l1 ++ l2).
      rewrite Hl2, Hl1, app_assoc. split; [done|].
      unfold calls in *. by rewrite omap_app, Hc1, Hc2.
    + exists l1. split; [done|]. by rewrite app_nil_r.
Qed.

Lemma call_step_calls E ev cb w :
  exists l, log (call_step E ev cb w).1 = log w ++ l /\
            calls l = if passes E ev (learner w) cb then [(cb, ev)] else [].
Proof.
  unfold call_step, passes.
  destruct (run (obj (learner w) cb) && Callbacks._run E (learner w) (obj (learner w) cb) ev)
    eqn:Hg.
  - unfold bind at 1. rewrite call_enabled by done. unfold bind.
    pose proof (guarded_call_log E cb ev (obj (learner w) cb) w) as Hl.
    destruct (guarded_call E cb ev (obj (learner w) cb) w) as [w1 [v|e]]; cbn [fst snd] in *.
    + assert (Hlog : log ((if bool_decide (ev = "after_fit")
                           then modify (upd_obj cb (set_run true)) else ret tt) w1).1 = log w1)
        by (by case_bool_decide).
      destruct ((if bool_decide (ev = "after_fit")
                 then modify (upd_obj cb (set_run true)) else ret tt) w1) as [w2 [[]|e]];
        cbn [fst snd ret] in *; rewrite Hlog;
        (destruct Hl as [Hl|[e' Hl]]; rewrite Hl; eauto).
    + destruct Hl as [Hl|[e' Hl]]; rewrite Hl; eauto.
  - unfold bind. pose proof (call_log_disabled E cb ev w Hg) as Hl.
    destruct (Callbacks.__call__ E cb ev w) as [w1 [v|e]]; cbn [fst snd ret] in *;
      exists []; by rewrite app_nil_r.
Qed.

Lemma run_cbs_step_calls E ev cb w :
  exists l, log (run_cbs_step E ev cb w).1 = log w ++ l /\
            calls l = if has_method E ev (learner w) cb then [(cb, ev)] else [].
Proof.
  unfold run_cbs_step, has_method. unfold bind at 1. unfold get at 1.
  destruct (methods E (cls (obj (learner w) cb)) ev) as [m|].
  - rewrite bool_decide_eq_true_2 by (by eexists).
    unfold bind, emit, ext, ret; simpl.
    destruct (m cb (learner w)) as [l' [v|e]]; simpl.
    + by exists [EvCall cb ev].
    + exists [EvCall cb ev; EvRaise e]. by rewrite <- app_assoc.
  - rewrite bool_decide_eq_false_2 by (by intros [? ?]).
    exists []. simpl. by rewrite app_nil_r.
Qed.

(** C3: the list a dispatch iterates over is the registered callbacks sorted
    by [order]: a permutation of them, non-decreasing in [order], with the
    callbacks of equal [order] in registration order.  The handlers that
    [_call_one] (fastai) executes for a known event are exactly those of the
    callbacks of that list that pass the test of [Callback.__call__] at their
    turn, in the order of the list, up to the first call that raises; for an
    unknown event none is executed.  The methods that [run_cbs] (MiniAI)
    executes are exactly those of the callbacks of the sorted list that have
    the method, in that order, up to the first that raises.  This holds for
    every event name and every state. *)
Theorem dispatch_in_order E (ev : string) (w : World) (registered : list nat) :
  let key := fun cb => order (obj (learner w) cb) in
  (forall xs : list nat,
      sorted key xs ≡ₚ xs /\
      StronglySorted (fun a b => key a <= key b) (sorted key xs) /\
      forall k, filter (fun cb => key cb = k) (sorted key xs) = filter (fun cb => key cb = k) xs) /\
  (ev ∈ event E ->
   calls (new_log w (LearnerPart1._call_one E ev w).1) =
     handled (passes E ev) (call_step E ev) ev (sorted key (cbs (learner w)))
       (emit (EvDispatch ev) w).1) /\
  (ev ∉ event E -> calls (new_log w (LearnerPart1._call_one E ev w).1) = []) /\
  calls (new_log w (LearnerPart2.run_cbs E registered ev w).1) =
    handled (has_method E ev) (run_cbs_step E ev) ev (sorted key registered) w /\
  calls (new_log w (LearnerPart1._call_one E ev w).1)
    `sublist_of` ((fun cb => (cb, ev)) <$> sorted key (cbs (learner w))) /\
  calls (new_log w (LearnerPart2.run_cbs E registered ev w).1)
    `sublist_of` ((fun cb => (cb, ev)) <$> sorted key registered).
Proof.
  intros key. split; [|split; [|split; [|split; [|split]]]].
  - intros xs. split; [apply sorted_perm|]. split; [apply sorted_sorted|].
    intros k. apply sorted_stable.
  - intros Hev.
    destruct (for_each_handled (passes E ev) (call_step E ev) ev (call_step_calls E ev)
                (sorted key (cbs (learner w))) (emit (EvDispatch ev) w).1) as (l & Hl & Hc).
    assert (Hrun : LearnerPart1._call_one E ev w =
              for_each (sorted key (cbs (learner w))) (call_step E ev) (emit (EvDispatch ev) w).1).
    { unfold LearnerPart1._call_one. unfold bind at 1. unfold emit at 1.
      unfold bind at 1. rewrite bool_decide_eq_true_2 by done. reflexivity. }
    rewrite Hrun, (new_log_app w _ (EvDispatch ev :: l)); [exact Hc|].
    rewrite Hl. cbn. by rewrite <- app_assoc.
  - intros Hev. unfold LearnerPart1._call_one. unfold bind at 1. unfold emit at 1.
    unfold bind at 1. rewrite bool_decide_eq_false_2 by done. cbn.
    unfold new_log. cbn. by rewrite drop_app_length.
  - destruct (for_each_handled (has_method E ev) (run_cbs_step E ev) ev
                (run_cbs_step_calls E ev) (sorted key registered) w) as (l & Hl & Hc).
    assert (Hrun : LearnerPart2.run_cbs E registered ev w =
              for_each (sorted key registered) (run_cbs_step E ev) w) by reflexivity.
    rewrite Hrun, <- Hc. f_equal. by apply new_log_app.
  - destruct (call_one_log E ev w) as (rest & Hl & _ & Hc).
    rewrite (new_log_app _ _ _ Hl). done.
  - destruct (run_cbs_log E registered ev w) as (l & Hl & Hc).
    by rewrite (new_log_app _ _ _ Hl).
Qed.

(** [TrainEvalCallback] ([order = -10]) is registered last and handed
    [before_fit] first; the two callbacks of order 0 keep their registration
    order. *)
Example demo_order_of_before_fit :
  calls (new_log (Demo.world_with ["CountBatches"; "StopFit"; "TrainEvalCallback"])
           (LearnerPart1._call_one Demo.E "before_fit"
              (Demo.world_with ["CountBatches"; "StopFit"; "TrainEvalCallback"])).1) =
  [(2%nat, "before_fit"); (0%nat, "before_fit"); (1%nat, "before_fit")].
Proof. reflexivity. Qed.

(** ** [_with_events] *)

Lemma call_log E ev w :
  exists rest, log (LearnerPart1.__call__ E [ev] w).1 = log w ++ EvDispatch ev :: rest /\
               dispatched rest = [].
Proof.
  rewrite call_single. destruct (call_one_log E ev w) as (rest & Hl & Hd & _). eauto.
Qed.

(** The three ways out of [_with_events], by the outcome of its [try:] suite. *)
Lemma with_events_cases E f event_type ex final w :
  LearnerPart1._with_events E f event_type ex final w =
    match (try_suite E f event_type w).2 with
    | Ok _ =>
        (LearnerPart1.__call__ E ["after_" +:+ event_type] ;; final)
          (try_suite E f event_type w).1
    | Raise e =>
        if isinstance_cancel ex e
        then (LearnerPart1.__call__ E ["after_cancel_" +:+ event_type] ;;
              LearnerPart1.__call__ E ["after_" +:+ event_type] ;; final)
               (try_suite E f event_type w).1
        else ((try_suite E f event_type w).1, Raise e)
    end.
Proof.
  unfold LearnerPart1._with_events.
  change (LearnerPart1.__call__ E ["before_" +:+ event_type] ;; f)
    with (try_suite E f event_type).
  unfold bind at 1. unfold try_except.
  destruct (try_suite E f event_type w) as [w1 [[]|e]]; simpl; [done|].
  destruct (isinstance_cancel ex e); [|done].
  unfold bind.
  by destruct (LearnerPart1.__call__ E ["after_cancel_" +:+ event_type] w1) as [w2 [[]|e2]].
Qed.

(** C1: [_with_events] first dispatches [before_{event_type}] and runs [f]
    on the state that leaves.  When that [try:] suite returns, it goes on
    with the dispatch of [after_{event_type}] and then [final].  When the
    suite raises the cancellation class [ex], from [f] or from a handler of
    the first dispatch, it dispatches [after_cancel_{event_type}], then
    [after_{event_type}], then runs [final], and the cancellation is gone.
    Any other exception leaves [_with_events] as it is.  Each of the
    dispatches named is a single dispatch. *)
Theorem with_events_phase E (f : M unit) (event_type : string) (ex : CancelKind)
    (final : M unit) (w : World) :
  let before := LearnerPart1.__call__ E ["before_" +:+ event_type] w in
  let tried := try_suite E f event_type w in
  (exists rest, log before.1 = log w ++ EvDispatch ("before_" +:+ event_type) :: rest /\
                dispatched rest = []) /\
  tried = match before.2 with
          | Ok _ => f before.1
          | Raise e => (before.1, Raise e)
          end /\
  LearnerPart1._with_events E f event_type ex final w =
    match tried.2 with
    | Ok _ => (LearnerPart1.__call__ E ["after_" +:+ event_type] ;; final) tried.1
    | Raise e =>
        if isinstance_cancel ex e
        then (LearnerPart1.__call__ E ["after_cancel_" +:+ event_type] ;;
              LearnerPart1.__call__ E ["after_" +:+ event_type] ;; final) tried.1
        else (tried.1, Raise e)
    end /\
  (forall e, isinstance_cancel ex e = true <-> e = Cancel ex) /\
  (forall ev w0, exists rest,
      log (LearnerPart1.__call__ E [ev] w0).1 = log w0 ++ EvDispatch ev :: rest /\
      dispatched rest = []).
Proof.
  intros before tried. split; [apply call_log|]. split; [|split; [|split]].
  - subst tried before. unfold try_suite. unfold bind at 1.
    by destruct (LearnerPart1.__call__ E ["before_" +:+ event_type] w) as [w1 [[]|e]].
  - apply with_events_cases.
  - intros [k|c a]; simpl; [|done]. rewrite bool_decide_eq_true. split; congruence.
  - intros ev w0. apply call_log.
Qed.

(** The batch phase of the demo run with [StopTrain]: [before_batch] raises
    [CancelTrainException], which the batch boundary lets through and the
    train boundary turns into [after_cancel_train], [after_train]. *)
Example demo_batch_phase_cancelled :
  let w := Demo.in_phase true ["TrainEvalCallback"; "StopTrain"] in
  (LearnerPart1._with_events Demo.E (LearnerPart1._do_one_batch Demo.E) "batch"
     CancelBatch LearnerPart1.noop w).2 = Raise (Cancel CancelTrain) /\
  dispatched (log (LearnerPart1._with_events Demo.E (LearnerPart1._do_one_batch Demo.E) "batch"
     CancelBatch LearnerPart1.noop w).1) = ["before_batch"] /\
  (LearnerPart1._with_events Demo.E (LearnerPart1._do_one_batch Demo.E) "batch"
     CancelTrain LearnerPart1.noop w).2 = Ok tt /\
  dispatched (log (LearnerPart1._with_events Demo.E (LearnerPart1._do_one_batch Demo.E) "batch"
     CancelTrain LearnerPart1.noop w).1) = ["before_batch"; "after_cancel_batch"; "after_batch"].
Proof. repeat split; reflexivity. Qed.

(** ** What the training loop adds to the log *)

Section extends_by.
Context {bad : string} {P : list LogItem -> option exn -> Prop} (HP : inner_pred bad P).

Lemma ext_unchanged {A} (m : M A) :
  (forall w, exists a, m w = (w, Ok a)) -> extends_by P m.
Proof.
  intros Hm w. destruct (Hm w) as [a ->]. exists []. simpl.
  rewrite app_nil_r. split; [done | apply HP].
Qed.

Lemma ext_ret {A} (a : A) : extends_by P (ret a).
Proof. apply ext_unchanged. intros w. by exists a. Qed.

Lemma ext_modify f : extends_by P (modify f).
Proof. intros w. exists []. simpl. rewrite app_nil_r. split; [done | apply HP]. Qed.

Lemma ext_raise_exc {A} c a : extends_by P (raise (A:=A) (Exc c a)).
Proof. intros w. exists []. simpl. rewrite app_nil_r. split; [done | apply HP]. Qed.

Lemma ext_bind {A B} (m : M A) (k : A -> M B) :
  extends_by P m -> (forall a, extends_by P (k a)) -> extends_by P (bind m k).
Proof.
  intros Hm Hk w. unfold bind. destruct (Hm w) as (l1 & Hl1 & H1).
  destruct (m w) as [w1 [a|e]]; simpl in *.
  - destruct (Hk a w1) as (l2 & Hl2 & H2). exists (l1 ++ l2).
    rewrite Hl2, Hl1, app_assoc. split; [done|]. by apply HP.
  - by exists l1.
Qed.

(** [l <- get ;; k l] *)
Lemma ext_get {B} (k : Learner -> M B) :
  (forall l, extends_by P (k l)) -> extends_by P (bind get k).
Proof. intros Hk w. unfold bind, get. apply Hk. Qed.

Lemma ext_for_each {A} (xs : list A) (body : A -> M unit) :
  (forall x, extends_by P (body x)) -> extends_by P (for_each xs body).
Proof.
  intros Hb. induction xs as [|x xs IH]; simpl; [apply ext_ret|].
  apply ext_bind; [apply Hb | done].
Qed.

Lemma ext_ext {A} (f : Ext A) : extends_by P (ext f).
Proof.
  intros w. unfold ext. destruct (f (learner w)) as [l' [a|e]]; simpl.
  - exists []. rewrite app_nil_r. split; [done | apply HP].
  - exists [EvRaise e]. split; [done | apply HP].
Qed.

Lemma ext_callback_call E cb ev : extends_by P (Callbacks.__call__ E cb ev).
Proof.
  intros w. destruct (call_shape_spec E cb ev w) as (l & Hl & Hs).
  exists l. split; [done|]. by eapply ip_call.
Qed.

Lemma ext_call_one E ev : ev ≠ bad -> extends_by P (LearnerPart1._call_one E ev).
Proof.
  intros Hev. unfold LearnerPart1._call_one.
  apply ext_bind.
  { intros w. exists [EvDispatch ev]. split; [done|]. by apply HP. }
  intros _. apply ext_bind.
  { case_bool_decide; [apply ext_ret | apply ext_raise_exc]. }
  intros _. apply ext_get. intros l. apply ext_for_each. intros cb.
  apply ext_bind; [apply ext_callback_call | intros; apply ext_ret].
Qed.

Lemma ext_call E ev : ev ≠ bad -> extends_by P (LearnerPart1.__call__ E [ev]).
Proof.
  intros Hev. unfold LearnerPart1.__call__. simpl.
  apply ext_bind; [by apply ext_call_one | intros; apply ext_ret].
Qed.

Lemma ext_with_events E f event_type ex final :
  "before_" +:+ event_type ≠ bad ->
  "after_cancel_" +:+ event_type ≠ bad ->
  "after_" +:+ event_type ≠ bad ->
  ex ≠ CancelFit ->
  extends_by P f -> extends_by P final ->
  extends_by P (LearnerPart1._with_events E f event_type ex final).
Proof.
  intros Hb Hc Ha Hex Hf Hfin. unfold LearnerPart1._with_events.
  apply ext_bind; [|intros _; apply ext_bind; [by apply ext_call | done]].
  intros w. unfold try_except.
  assert (Hs : extends_by P (LearnerPart1.__call__ E ["before_" +:+ event_type] ;; f)).
  { apply ext_bind; [by apply ext_call | done]. }
  destruct (Hs w) as (l1 & Hl1 & H1).
  destruct ((LearnerPart1.__call__ E ["before_" +:+ event_type] ;; f) w) as [w1 [[]|e]];
    simpl in *; [by exists l1|].
  destruct (isinstance_cancel ex e) eqn:Hi; [|by exists l1].
  destruct e as [k|c a]; simpl in Hi; [|done]. apply bool_decide_eq_true in Hi. subst k.
  destruct (ext_call E ("after_cancel_" +:+ event_type) Hc w1) as (l2 & Hl2 & H2).
  exists (l1 ++ l2). rewrite Hl2, Hl1, app_assoc. split; [done|].
  by eapply ip_catch.
Qed.

Hypothesis Hbad : bad ∉ batch_body_events.

Lemma batch_body_event_ne ev : ev ∈ batch_body_events -> ev ≠ bad.
Proof. intros Hin ->. done. Qed.

Lemma ext_do_one_batch E : extends_by P (LearnerPart1._do_one_batch E).
Proof.
  unfold LearnerPart1._do_one_batch.
  apply ext_get. intros l. apply ext_bind; [apply ext_ext|]. intros p.
  apply ext_bind; [apply ext_modify|]. intros _.
  apply ext_bind; [apply ext_call, batch_body_event_ne; by_compute|]. intros _.
  apply ext_get. intros l1. apply ext_bind.
  { case_bool_decide; [|apply ext_ret]. destruct (pred l1); [|apply ext_raise_exc].
    apply ext_bind; [apply ext_ext|]. intros g.
    apply ext_bind; [apply ext_modify | intros; apply ext_modify]. }
  intros _. apply ext_bind; [apply ext_call, batch_body_event_ne; by_compute|]. intros _.
  apply ext_get. intros l2. destruct (training l2) as [t|]; [|apply ext_raise_exc].
  destruct (negb t || bool_decide (length (yb l2) = 0%nat)); [apply ext_ret|].
  apply ext_bind.
  { apply ext_with_events; try (apply batch_body_event_ne; by_compute); try done.
    - unfold LearnerPart1._backward. apply ext_get. intros l3.
      destruct (loss_grad l3); [apply ext_ext | apply ext_raise_exc].
    - apply ext_ret. }
  intros _. apply ext_bind; [|intros; apply ext_ext].
  apply ext_with_events; try (apply batch_body_event_ne; by_compute); try done.
  - apply ext_ext.
  - apply ext_ret.
Qed.

End extends_by.

Section fit_body.
Context {bad : string} {P : list LogItem -> option exn -> Prop} (HP : inner_pred bad P).
Hypothesis Hbad : bad ∉ fit_body_events.

Lemma fit_body_event_ne ev : ev ∈ fit_body_events -> ev ≠ bad.
Proof. intros Hin ->. done. Qed.

Lemma bad_not_batch_body : bad ∉ batch_body_events.
Proof.
  intros Hin. apply Hbad. unfold fit_body_events. apply elem_of_app. by right.
Qed.

Lemma ext_set_device b : extends_by P (LearnerPart1._set_device b).
Proof.
  unfold LearnerPart1._set_device. apply ext_get. intros l.
  destruct (model_device l); [|apply (ext_raise_exc HP)].
  case_bool_decide; apply (ext_ret HP).
Qed.

Lemma ext_split b : extends_by P (LearnerPart1._split b).
Proof.
  unfold LearnerPart1._split. apply ext_get. intros l. apply (ext_modify HP).
Qed.

Lemma ext_one_batch E i b : extends_by P (LearnerPart1.one_batch E i b).
Proof.
  unfold LearnerPart1.one_batch.
  apply (ext_bind HP); [apply (ext_modify HP)|]. intros _.
  apply (ext_bind HP); [apply ext_set_device|]. intros b'.
  apply (ext_bind HP); [apply ext_split|]. intros _.
  apply (ext_with_events HP); try (apply fit_body_event_ne; by_compute); try done.
  - apply (ext_do_one_batch HP), bad_not_batch_body.
  - apply (ext_ret HP).
Qed.

Lemma ext_all_batches E : extends_by P (LearnerPart1.all_batches E).
Proof.
  unfold LearnerPart1.all_batches. apply ext_get. intros l.
  apply (ext_bind HP); [apply (ext_modify HP)|]. intros _.
  apply (ext_for_each HP). intros o. apply ext_one_batch.
Qed.

Lemma ext_do_epoch_train E : extends_by P (LearnerPart1._do_epoch_train E).
Proof.
  unfold LearnerPart1._do_epoch_train. apply ext_get. intros l.
  apply (ext_bind HP).
  { destruct (dls l !! 0%nat); [apply (ext_modify HP) | apply (ext_raise_exc HP)]. }
  intros _.
  apply (ext_with_events HP); try (apply fit_body_event_ne; by_compute); try done.
  - apply ext_all_batches.
  - apply (ext_ret HP).
Qed.

Lemma ext_do_epoch_validate E ds_idx dl : extends_by P (LearnerPart1._do_epoch_validate E ds_idx dl).
Proof.
  unfold LearnerPart1._do_epoch_validate. apply (ext_bind HP).
  { destruct dl; [apply (ext_ret HP)|]. apply ext_get. intros l.
    destruct (dls l !! ds_idx); [apply (ext_ret HP) | apply (ext_raise_exc HP)]. }
  intros d. apply (ext_bind HP); [apply (ext_modify HP)|]. intros _.
  apply (ext_with_events HP); try (apply fit_body_event_ne; by_compute); try done.
  - apply ext_all_batches.
  - apply (ext_ret HP).
Qed.

Lemma ext_do_epoch E : extends_by P (LearnerPart1._do_epoch E).
Proof.
  unfold LearnerPart1._do_epoch.
  apply (ext_bind HP); [apply ext_do_epoch_train | intros; apply ext_do_epoch_validate].
Qed.

Lemma ext_do_fit E : extends_by P (LearnerPart1._do_fit E).
Proof.
  unfold LearnerPart1._do_fit. apply ext_get. intros l.
  apply (ext_for_each HP). intros epoch.
  apply (ext_bind HP); [apply (ext_modify HP)|]. intros _.
  apply (ext_with_events HP); try (apply fit_body_event_ne; by_compute); try done.
  - apply ext_do_epoch.
  - apply (ext_ret HP).
Qed.

End fit_body.

(** ** The [CancelFitException] signal below the fit phase *)

Lemma quiet_app l1 l2 : quiet l1 -> quiet l2 -> quiet (l1 ++ l2).
Proof. unfold quiet. intros. by apply Forall_app. Qed.

Lemma fit_signal_tracked_app l1 l2 o :
  quiet l1 -> fit_signal_tracked l2 o -> fit_signal_tracked (l1 ++ l2) o.
Proof.
  intros H1 [[H2 Ho]|(l0 & -> & H0 & ->)].
  - left. split; [by apply quiet_app | done].
  - right. exists (l1 ++ l0). rewrite app_assoc. split; [done|]. split; [|done].
    by apply quiet_app.
Qed.

Lemma fit_signal_tracked_quiet l o :
  fit_signal_tracked l o -> o ≠ Some (Cancel CancelFit) -> quiet l.
Proof. intros [[H _]|(l0 & _ & _ & ->)] Ho; done. Qed.

Lemma fit_signal_inner : inner_pred "after_fit" fit_signal_tracked.
Proof.
  split.
  - left. split; [constructor | done].
  - intros l1 l2 o H1 H2. apply fit_signal_tracked_app; [|done].
    by apply (fit_signal_tracked_quiet _ _ H1).
  - intros l1 l2 o k Hk H1 H2. apply fit_signal_tracked_app; [|done].
    apply (fit_signal_tracked_quiet _ _ H1). congruence.
  - intros c a. left. split; [constructor | done].
  - intros e. destruct (decide (e = Cancel CancelFit)) as [->|Hne].
    + right. exists []. split; [done|]. split; [constructor | done].
    + left. split; [|congruence]. repeat constructor; congruence.
  - intros self ev l o [| |e e' He].
    + left. split; [constructor | done].
    + left. split; [|done]. repeat constructor; congruence.
    + destruct (decide (e = Cancel CancelFit)) as [->|Hne].
      * right. exists [EvCall self ev]. split; [done|]. split.
        -- repeat constructor; congruence.
        -- f_equal. apply (He CancelFit). by left.
      * left. split; [repeat constructor; congruence|].
        intros [= ->]. apply Hne. symmetry. apply (He CancelFit). by right.
  - intros ev Hev. left. split; [|done]. repeat constructor; congruence.
Qed.

Lemma quiet_spec l :
  quiet l -> (EvRaise (Cancel CancelFit) ∉ l) /\ ("after_fit" ∉ dispatched l).
Proof.
  unfold quiet. rewrite Forall_forall. intros H. split.
  - intros Hin. by destruct (H _ Hin).
  - unfold dispatched. rewrite list_elem_of_omap. intros (it & Hin & Hit).
    destruct it; try done. injection Hit as ->. by destruct (H _ Hin).
Qed.

(** ** Counting the batches *)

Lemma batches_begun_app l1 l2 : batches_begun (l1 ++ l2) = (batches_begun l1 + batches_begun l2)%nat.
Proof. unfold batches_begun, dispatched. by rewrite omap_app, filter_app, length_app. Qed.

Lemma no_batch_inner : inner_pred "before_batch" (fun l _ => batches_begun l = 0%nat).
Proof.
  split; try done.
  - intros l1 l2 o H1 H2. by rewrite batches_begun_app, H1, H2.
  - intros l1 l2 o k _ H1 H2. by rewrite batches_begun_app, H1, H2.
  - intros self ev l o Hs. unfold batches_begun. by rewrite (call_shape_dispatched _ _ _ _ Hs).
  - intros ev Hev. unfold batches_begun. simpl. by rewrite filter_cons_False.
Qed.

Lemma ext_bind_gen {A B} (P1 P2 P : list LogItem -> option exn -> Prop)
    (m : M A) (k : A -> M B) :
  extends_by P1 m -> (forall a, extends_by P2 (k a)) ->
  (forall l1 l2 o, P1 l1 None -> P2 l2 o -> P (l1 ++ l2) o) ->
  (forall l1 e, P1 l1 (Some e) -> P l1 (Some e)) ->
  extends_by P (bind m k).
Proof.
  intros Hm Hk Happ Hraise w. unfold bind. destruct (Hm w) as (l1 & Hl1 & H1).
  destruct (m w) as [w1 [a|e]]; simpl in *.
  - destruct (Hk a w1) as (l2 & Hl2 & H2). exists (l1 ++ l2).
    rewrite Hl2, Hl1, app_assoc. split; [done|]. by apply Happ.
  - exists l1. split; [done|]. by apply Hraise.
Qed.

(** The batch phase dispatches [before_batch] once, however it ends. *)
Lemma batch_phase_begins_once E :
  extends_by (fun l _ => batches_begun l = 1%nat)
    (LearnerPart1._with_events E (LearnerPart1._do_one_batch E) "batch" CancelBatch
       LearnerPart1.noop).
Proof.
  assert (Hzero : forall ev, ev ≠ "before_batch" ->
            extends_by (fun l _ => batches_begun l = 0%nat) (LearnerPart1.__call__ E [ev])).
  { intros ev Hev. by apply (ext_call no_batch_inner). }
  assert (Hsuite : extends_by (fun l _ => batches_begun l = 1%nat)
                     (LearnerPart1.__call__ E ["before_batch"] ;; LearnerPart1._do_one_batch E)).
  { apply (ext_bind_gen (fun l _ => batches_begun l = 1%nat) (fun l _ => batches_begun l = 0%nat)).
    - intros w. destruct (call_log E "before_batch" w) as (rest & Hl & Hd).
      eexists. split; [exact Hl|]. unfold batches_begun. simpl. by rewrite Hd.
    - intros _. apply (ext_do_one_batch no_batch_inner). by_compute.
    - intros l1 l2 o H1 H2. by rewrite batches_begun_app, H1, H2.
    - done. }
  unfold LearnerPart1._with_events.
  change ("before_" +:+ "batch") with "before_batch".
  change ("after_cancel_" +:+ "batch") with "after_cancel_batch".
  change ("after_" +:+ "batch") with "after_batch".
  apply (ext_bind_gen (fun l _ => batches_begun l = 1%nat) (fun l _ => batches_begun l = 0%nat)).
  - intros w. unfold try_except. destruct (Hsuite w) as (l1 & Hl1 & H1).
    destruct ((LearnerPart1.__call__ E ["before_batch"] ;; LearnerPart1._do_one_batch E) w)
      as [w1 [[]|e]]; simpl in *; [by exists l1|].
    destruct (isinstance_cancel CancelBatch e); [|by exists l1].
    destruct (Hzero "after_cancel_batch" ltac:(done) w1) as (l2 & Hl2 & H2).
    exists (l1 ++ l2). rewrite Hl2, Hl1, app_assoc. split; [done|].
    by rewrite batches_begun_app, H1, H2.
  - intros _. apply (ext_bind no_batch_inner); [by apply Hzero|].
    intros _. apply (ext_ret no_batch_inner).
  - intros l1 l2 o H1 H2. by rewrite batches_begun_app, H1, H2.
  - done.
Qed.

Lemma one_batch_begins_once E i b :
  extends_by (fun l o => o = None -> batches_begun l = 1%nat) (LearnerPart1.one_batch E i b).
Proof.
  unfold LearnerPart1.one_batch.
  apply (ext_bind_gen (fun l _ => batches_begun l = 0%nat)
           (fun l o => o = None -> batches_begun l = 1%nat));
    [apply (ext_modify no_batch_inner) | | | done].
  2:{ intros l1 l2 o H1 H2 Ho. by rewrite batches_begun_app, H1, H2. }
  intros _.
  apply (ext_bind_gen (fun l _ => batches_begun l = 0%nat)
           (fun l o => o = None -> batches_begun l = 1%nat));
    [apply (ext_set_device no_batch_inner) | | | done].
  2:{ intros l1 l2 o H1 H2 Ho. by rewrite batches_begun_app, H1, H2. }
  intros b'.
  apply (ext_bind_gen (fun l _ => batches_begun l = 0%nat)
           (fun l o => o = None -> batches_begun l = 1%nat));
    [apply (ext_split no_batch_inner) | | | done].
  2:{ intros l1 l2 o H1 H2 Ho. by rewrite batches_begun_app, H1, H2. }
  intros _ w. destruct (batch_phase_begins_once E w) as (l & Hl & H1). eauto.
Qed.

Lemma for_each_batches_begun E (xs : list (nat * Batch)) :
  extends_by (fun l o => o = None -> batches_begun l = length xs)
    (for_each xs (fun o => LearnerPart1.one_batch E o.1 o.2)).
Proof.
  induction xs as [|x xs IH]; simpl.
  - intros w. exists []. simpl. by rewrite app_nil_r.
  - apply (ext_bind_gen (fun l o => o = None -> batches_begun l = 1%nat)
             (fun l o => o = None -> batches_begun l = length xs));
      [apply one_batch_begins_once | done | | done].
    intros l1 l2 o H1 H2 Ho. by rewrite batches_begun_app, H1, H2.
Qed.

(** When [all_batches] returns, [before_batch] was dispatched once for every
    batch of [self.dl]. *)
Lemma all_batches_begins_every_batch E w w' :
  LearnerPart1.all_batches E w = (w', Ok tt) ->
  batches_begun (new_log w w') = length (dl (learner w)).
Proof.
  intros Hrun.
  assert (H : extends_by (fun l o => o = None -> batches_begun l = length (dl (learner w)))
                (fun w0 => for_each (enumerate (dl (learner w)))
                             (fun o => LearnerPart1.one_batch E o.1 o.2) w0)).
  { intros w0. destruct (for_each_batches_begun E (enumerate (dl (learner w))) w0)
      as (l & Hl & Hn).
    exists l. split; [done|]. intros Ho. rewrite (Hn Ho). unfold enumerate.
    apply length_imap. }
  unfold LearnerPart1.all_batches in Hrun. unfold bind at 1 in Hrun. unfold get at 1 in Hrun.
  unfold bind at 1 in Hrun. unfold modify at 1 in Hrun.
  destruct (H (mkWorld (with_n_iter (length (dl (learner w))) (learner w)) (log w)))
    as (l & Hl & Hn).
  rewrite Hrun in Hl, Hn. simpl in Hl, Hn.
  rewrite (new_log_app _ _ _ Hl). by apply Hn.
Qed.

(** ** Sequencing *)

Lemma dispatched_app l1 l2 : dispatched (l1 ++ l2) = dispatched l1 ++ dispatched l2.
Proof. apply omap_app. Qed.

Lemma dispatched_cons ev l : dispatched (EvDispatch ev :: l) = ev :: dispatched l.
Proof. done. Qed.

Lemma bind_ok {A B} (m : M A) (k : A -> M B) w w' a :
  m w = (w', Ok a) -> bind m k w = k a w'.
Proof. intros H. unfold bind. by rewrite H. Qed.

Lemma bind_raise {A B} (m : M A) (k : A -> M B) w w' e :
  m w = (w', Raise e) -> bind m k w = (w', Raise e).
Proof. intros H. unfold bind. by rewrite H. Qed.

Lemma bind_noop (m : M unit) w : (m ;; LearnerPart1.noop) w = m w.
Proof. unfold bind, LearnerPart1.noop, ret. by destruct (m w) as [w' [[]|e]]. Qed.

Lemma bind_assoc {A B C} (m : M A) (k : A -> M B) (h : B -> M C) w :
  bind (bind m k) h w = bind m (fun a => bind (k a) h) w.
Proof. unfold bind. by destruct (m w) as [w' [a|e]]. Qed.

Lemma ext_ok_log {A} (f : Ext A) w w' a : ext f w = (w', Ok a) -> log w' = log w.
Proof.
  unfold ext. destruct (f (learner w)) as [l' [a'|e]]; intros [= <- _]; done.
Qed.

(** ** [fit] and [CancelFitException] *)

Lemma fit_unfold E n_epoch lr wd reset_opt w :
  LearnerPart1.fit E n_epoch lr wd reset_opt w =
    (fit_prologue E n_epoch lr wd reset_opt ;; fit_phase E) w.
Proof.
  unfold LearnerPart1.fit, fit_prologue, fit_phase.
  generalize (LearnerPart1._with_events E (LearnerPart1._do_fit E) "fit" CancelFit
                (ext (_end_cleanup E))).
  intros phase. unfold bind, get, modify. simpl.
  repeat case_match; simplify_eq; done.
Qed.

Lemma fit_suite_tracked E :
  extends_by fit_signal_tracked (try_suite E (LearnerPart1._do_fit E) "fit").
Proof.
  unfold try_suite. apply (ext_bind fit_signal_inner).
  - by apply (ext_call fit_signal_inner).
  - intros _. apply (ext_do_fit fit_signal_inner). by_compute.
Qed.

(** A phase that does not catch [CancelFitException] lets it through as it
    is, without any further dispatch. *)
Lemma with_events_lets_cancel_fit_through E f event_type ex final w :
  ex ≠ CancelFit ->
  (try_suite E f event_type w).2 = Raise (Cancel CancelFit) ->
  LearnerPart1._with_events E f event_type ex final w = try_suite E f event_type w.
Proof.
  intros Hex Hr. rewrite with_events_cases.
  destruct (try_suite E f event_type w) as [w1 r]; simpl in *. subst r. simpl.
  by rewrite bool_decide_eq_false_2.
Qed.

(** C2: once [fit] has reached its fit phase, if [CancelFitException] is
    raised by any handler or collaborator below it (in [before_fit], an
    epoch, a train or validate phase, a batch, backward or step), the
    [try:] suite of the fit phase ends with that signal, nothing runs after
    the raise and [after_fit] has not been dispatched; [fit] then is the
    dispatch of [after_cancel_fit], the dispatch of [after_fit] and
    [_end_cleanup], so that when these three return, [fit] returns and
    [after_fit] was dispatched exactly once, last.  No phase with another
    cancellation class stops the signal. *)
Theorem cancel_fit_ends_fit E n_epoch lr wd reset_opt (w w0 w1 : World) (r1 : Res unit) :
  fit_prologue E n_epoch lr wd reset_opt w = (w0, Ok tt) ->
  try_suite E (LearnerPart1._do_fit E) "fit" w0 = (w1, r1) ->
  EvRaise (Cancel CancelFit) ∈ new_log w0 w1 ->
  r1 = Raise (Cancel CancelFit) /\
  (exists l0, new_log w0 w1 = l0 ++ [EvRaise (Cancel CancelFit)] /\
              (EvRaise (Cancel CancelFit) ∉ l0) /\ ("after_fit" ∉ dispatched l0)) /\
  LearnerPart1.fit E n_epoch lr wd reset_opt w =
    (LearnerPart1.__call__ E ["after_cancel_fit"] ;;
     LearnerPart1.__call__ E ["after_fit"] ;;
     ext (_end_cleanup E)) w1 /\
  (forall w2 w3 w4,
     LearnerPart1.__call__ E ["after_cancel_fit"] w1 = (w2, Ok tt) ->
     LearnerPart1.__call__ E ["after_fit"] w2 = (w3, Ok tt) ->
     ext (_end_cleanup E) w3 = (w4, Ok tt) ->
     LearnerPart1.fit E n_epoch lr wd reset_opt w = (w4, Ok tt) /\
     dispatched (new_log w0 w4) =
       dispatched (new_log w0 w1) ++ ["after_cancel_fit"; "after_fit"]) /\
  (forall f event_type ex final w',
     ex ≠ CancelFit ->
     (try_suite E f event_type w').2 = Raise (Cancel CancelFit) ->
     LearnerPart1._with_events E f event_type ex final w' = try_suite E f event_type w').
Proof.
  intros Hpro Hsuite Hsig.
  destruct (fit_suite_tracked E w0) as (l & Hl & Ht). rewrite Hsuite in Hl, Ht. simpl in Hl, Ht.
  rewrite (new_log_app _ _ _ Hl) in *.
  assert (Hout : r1 = Raise (Cancel CancelFit) /\
                 exists l0, l = l0 ++ [EvRaise (Cancel CancelFit)] /\ quiet l0).
  { destruct Ht as [[Hq _]|(l0 & -> & Hq & Ho)].
    - by destruct (quiet_spec _ Hq).
    - split; [|by eauto]. destruct r1; simpl in Ho; congruence. }
  destruct Hout as (-> & l0 & -> & Hq).
  assert (Hfit : LearnerPart1.fit E n_epoch lr wd reset_opt w =
            (LearnerPart1.__call__ E ["after_cancel_fit"] ;;
             LearnerPart1.__call__ E ["after_fit"] ;; ext (_end_cleanup E)) w1).
  { rewrite fit_unfold, (bind_ok _ _ _ _ _ Hpro). unfold fit_phase.
    by rewrite with_events_cases, Hsuite. }
  split; [done|]. split.
  { exists l0. split; [done|]. by apply quiet_spec. }
  split; [done|]. split; [|intros; by apply with_events_lets_cancel_fit_through].
  intros w2 w3 w4 Hac Haf Hend. split.
  - by rewrite Hfit, (bind_ok _ _ _ _ _ Hac), (bind_ok _ _ _ _ _ Haf).
  - destruct (call_log E "after_cancel_fit" w1) as (rest2 & Hl2 & Hd2).
    destruct (call_log E "after_fit" w2) as (rest3 & Hl3 & Hd3).
    rewrite Hac in Hl2. rewrite Haf in Hl3. simpl in Hl2, Hl3.
    apply ext_ok_log in Hend.
    assert (Hl4 : log w4 = log w0 ++ (l0 ++ [EvRaise (Cancel CancelFit)]) ++
                    (EvDispatch "after_cancel_fit" :: rest2) ++
                    (EvDispatch "after_fit" :: rest3)).
    { rewrite Hend, Hl3, Hl2, Hl. by rewrite <- !app_assoc. }
    rewrite (new_log_app _ _ _ Hl4), !dispatched_app, !dispatched_cons, Hd2, Hd3.
    done.
Qed.

(** ** An epoch whose training phase is cancelled *)

(** C4: [_do_epoch] is [_do_epoch_train] followed by [_do_epoch_validate].
    When the [try:] suite of the train phase ends with
    [CancelTrainException], [_do_epoch] goes on with the dispatch of
    [after_cancel_train], the dispatch of [after_train], and then the whole
    of [_do_epoch_validate]; and when the validation suite returns,
    [before_batch] was dispatched once for every batch of its loader before
    [after_validate] ends the epoch. *)
Theorem validate_runs_after_cancelled_train E (w w1 : World) (train : list Batch) :
  dls (learner w) !! 0%nat = Some train ->
  try_suite E (LearnerPart1.all_batches E) "train"
    (mkWorld (with_dl train (learner w)) (log w)) = (w1, Raise (Cancel CancelTrain)) ->
  (forall w', LearnerPart1._do_epoch E w' =
     (LearnerPart1._do_epoch_train E ;; LearnerPart1._do_epoch_validate E 1 None) w') /\
  LearnerPart1._do_epoch E w =
    (LearnerPart1.__call__ E ["after_cancel_train"] ;;
     LearnerPart1.__call__ E ["after_train"] ;;
     LearnerPart1._do_epoch_validate E 1 None) w1 /\
  (forall w2 valid w3 w4,
     (LearnerPart1.__call__ E ["after_cancel_train"] ;;
      LearnerPart1.__call__ E ["after_train"]) w1 = (w2, Ok tt) ->
     dls (learner w2) !! 1%nat = Some valid ->
     LearnerPart1.__call__ E ["before_validate"]
       (mkWorld (with_dl valid (learner w2)) (log w2)) = (w3, Ok tt) ->
     LearnerPart1.all_batches E w3 = (w4, Ok tt) ->
     LearnerPart1._do_epoch E w = LearnerPart1.__call__ E ["after_validate"] w4 /\
     batches_begun (new_log w3 w4) = length (dl (learner w3))).
Proof.
  intros Hdls Hsuite.
  assert (Hepoch : LearnerPart1._do_epoch E w =
    (LearnerPart1.__call__ E ["after_cancel_train"] ;;
     LearnerPart1.__call__ E ["after_train"] ;;
     LearnerPart1._do_epoch_validate E 1 None) w1).
  { unfold LearnerPart1._do_epoch, LearnerPart1._do_epoch_train.
    unfold bind at 1 2. unfold get at 1. rewrite Hdls. unfold bind at 1. unfold modify at 1.
    rewrite with_events_cases, Hsuite. simpl.
    change ("after_cancel_" +:+ "train") with "after_cancel_train".
    change ("after_" +:+ "train") with "after_train".
    unfold bind, LearnerPart1.noop, ret.
    destruct (LearnerPart1.__call__ E ["after_cancel_train"] w1) as [w2 [[]|e2]]; [|done].
    by destruct (LearnerPart1.__call__ E ["after_train"] w2) as [w3 [[]|e3]]. }
  split; [done|]. split; [done|].
  intros w2 valid w3 w4 Hafter Hvalid Hbefore Hall. split.
  - rewrite Hepoch. rewrite <- bind_assoc. rewrite (bind_ok _ _ _ _ _ Hafter).
    unfold LearnerPart1._do_epoch_validate.
    unfold bind at 1 2. unfold get at 1. rewrite Hvalid. unfold ret at 1.
    unfold bind at 1. unfold modify at 1.
    rewrite with_events_cases. unfold try_suite.
    change ("before_" +:+ "validate") with "before_validate".
    change ("after_" +:+ "validate") with "after_validate".
    rewrite (bind_ok _ _ _ _ _ Hbefore), Hall. simpl. apply bind_noop.
  - by apply (all_batches_begins_every_batch E).
Qed.

(** C2 on the demo: [StopFit] raises [CancelFitException] in the first
    [after_loss] of a two-epoch [fit]; [fit] returns, and the dispatches are
    those up to that point, then [after_cancel_fit] and [after_fit]. *)
Lemma cancel_fit_ends_fit_witness :
  let w := Demo.world_with ["CountBatches"; "TrainEvalCallback"; "StopFit"] in
  let w0 := (fit_prologue Demo.E 2 None None false w).1 in
  let w1 := (try_suite Demo.E (LearnerPart1._do_fit Demo.E) "fit" w0).1 in
  fit_prologue Demo.E 2 None None false w = (w0, Ok tt) /\
  try_suite Demo.E (LearnerPart1._do_fit Demo.E) "fit" w0 = (w1, Raise (Cancel CancelFit)) /\
  EvRaise (Cancel CancelFit) ∈ new_log w0 w1 /\
  (LearnerPart1.fit Demo.E 2 None None false w).2 = Ok tt /\
  dispatched (new_log w0 (LearnerPart1.fit Demo.E 2 None None false w).1) =
    ["before_fit"; "before_epoch"; "before_train"; "before_batch"; "after_pred";
     "after_loss"; "after_cancel_fit"; "after_fit"] /\
  Demo.counter "cleanup" (LearnerPart1.fit Demo.E 2 None None false w).1 = 1.
Proof.
  intros w w0 w1.
  assert (Hpro : fit_prologue Demo.E 2 None None false w = (w0, Ok tt))
    by (vm_compute; reflexivity).
  assert (Hsuite : try_suite Demo.E (LearnerPart1._do_fit Demo.E) "fit" w0 =
                     (w1, Raise (Cancel CancelFit)))
    by (vm_compute; reflexivity).
  assert (Hsig : EvRaise (Cancel CancelFit) ∈ new_log w0 w1) by by_compute.
  destruct (cancel_fit_ends_fit Demo.E 2 None None false w w0 w1 _ Hpro Hsuite Hsig)
    as (_ & _ & _ & Hend & _).
  destruct (Hend (LearnerPart1.__call__ Demo.E ["after_cancel_fit"] w1).1
              (LearnerPart1.__call__ Demo.E ["after_fit"]
                 (LearnerPart1.__call__ Demo.E ["after_cancel_fit"] w1).1).1
              (LearnerPart1.fit Demo.E 2 None None false w).1)
    as [Hfit Hdisp]; [vm_compute; reflexivity ..|].
  split; [exact Hpro|]. split; [exact Hsuite|]. split; [exact Hsig|].
  split; [by rewrite Hfit|]. split; [|vm_compute; reflexivity].
  rewrite Hdisp. vm_compute. reflexivity.
Defined.

(** C4 on the demo: [StopTrain] raises [CancelTrainException] in the first
    [before_batch] of the training phase; the validation phase then begins
    both of its batches, and [CountBatches] has seen two [after_batch]. *)
Lemma validate_runs_after_cancelled_train_witness :
  let w := Demo.world_with ["CountBatches"; "TrainEvalCallback"; "StopTrain"] in
  let train := [Demo.batch 1 0; Demo.batch 2 1; Demo.batch 3 0] in
  let valid := [Demo.batch 4 1; Demo.batch 5 0] in
  let w1 := (try_suite Demo.E (LearnerPart1.all_batches Demo.E) "train"
               (mkWorld (with_dl train (learner w)) (log w))).1 in
  let w2 := ((LearnerPart1.__call__ Demo.E ["after_cancel_train"] ;;
              LearnerPart1.__call__ Demo.E ["after_train"]) w1).1 in
  let w3 := (LearnerPart1.__call__ Demo.E ["before_validate"]
               (mkWorld (with_dl valid (learner w2)) (log w2))).1 in
  let w4 := (LearnerPart1.all_batches Demo.E w3).1 in
  dls (learner w) !! 0%nat = Some train /\
  try_suite Demo.E (LearnerPart1.all_batches Demo.E) "train"
    (mkWorld (with_dl train (learner w)) (log w)) = (w1, Raise (Cancel CancelTrain)) /\
  batches_begun (new_log w w1) = 1%nat /\
  LearnerPart1._do_epoch Demo.E w = LearnerPart1.__call__ Demo.E ["after_validate"] w4 /\
  batches_begun (new_log w3 w4) = 2%nat /\
  (LearnerPart1._do_epoch Demo.E w).2 = Ok tt /\
  Demo.counter "count" (LearnerPart1._do_epoch Demo.E w).1 = 2.
Proof.
  intros w train valid w1 w2 w3 w4.
  assert (Hdls : dls (learner w) !! 0%nat = Some train) by reflexivity.
  assert (Hsuite : try_suite Demo.E (LearnerPart1.all_batches Demo.E) "train"
                     (mkWorld (with_dl train (learner w)) (log w)) =
                   (w1, Raise (Cancel CancelTrain)))
    by (vm_compute; reflexivity).
  destruct (validate_runs_after_cancelled_train Demo.E w w1 train Hdls Hsuite)
    as (_ & _ & Hvalid).
  destruct (Hvalid w2 valid w3 w4) as [Hepoch Hcount]; [vm_compute; reflexivity ..|].
  split; [exact Hdls|]. split; [exact Hsuite|]. split; [vm_compute; reflexivity|].
  split; [exact Hepoch|]. split; [rewrite Hcount; vm_compute; reflexivity|].
  split; vm_compute; reflexivity.
Defined.

(** ** The end-to-end scenarios of the specification, run on the demo *)

(** Scenario A: two epochs over three training and two validation batches;
    the callback counting [after_batch] ends at [2 * (3 + 2)]. *)
Example scenario_count_after_batch :
  let r := LearnerPart1.fit Demo.E 2 None None false
             (Demo.world_with ["CountBatches"; "TrainEvalCallback"]) in
  r.2 = Ok tt /\ Demo.counter "count" r.1 = 10 /\ Demo.counter "steps" r.1 = 6.
Proof. repeat split; vm_compute; reflexivity. Qed.

(** Scenario B: [CancelTrainException] in the first [before_batch] of every
    training phase; no training batch completes, every validation batch
    does. *)
Example scenario_cancel_train :
  let r := LearnerPart1.fit Demo.E 2 None None false
             (Demo.world_with ["CountBatches"; "TrainEvalCallback"; "StopTrain"]) in
  r.2 = Ok tt /\ Demo.counter "steps" r.1 = 0 /\ Demo.counter "count" r.1 = 4.
Proof. repeat split; vm_compute; reflexivity. Qed.

(** Scenario C: a [RuntimeError] in [after_loss] leaves [fit] wrapped with
    the class of the callback and the event; [after_fit] is not dispatched
    and [_end_cleanup] is not run. *)
Example scenario_handler_error :
  let r := LearnerPart1.fit Demo.E 2 None None false
             (Demo.world_with ["TrainEvalCallback"; "Broken"]) in
  r.2 = Raise (Exc "RuntimeError" [occured_msg "Broken" "after_loss" "boom"]) /\
  ("after_fit" ∉ dispatched (log r.1)) /\
  Demo.counter "cleanup" r.1 = 0.
Proof. split; [vm_compute; reflexivity|]. split; [by_compute | vm_compute; reflexivity]. Qed.

(** * Further properties of the code *)

(** ** The callback registry *)

Lemma remove_cb_instance_clean cb w :
  is_Some (attrs (learner w) !! name (obj (learner w) cb)) \/
    name (obj (learner w) cb) ∉ inherited (learner w) ->
  LearnerPart1.remove_cb_instance cb w =
    (mkWorld
       (with_cbs (if bool_decide (cb ∈ cbs (learner w))
                  then list_remove_first cb (cbs (learner w))
                  else cbs (learner w))
          (with_attrs (delete (name (obj (learner w) cb)) (attrs (learner w)))
             (upd_obj cb (set_learn false) (learner w))))
       (log w), Ok tt).
Proof.
  intros Hok. rewrite remove_cb_instance_spec. destruct Hok as [Hok|Hok].
  - by rewrite (bool_decide_eq_true_2 _ Hok).
  - by rewrite (bool_decide_eq_false_2 _ Hok), orb_true_r.
Qed.

Lemma obj_with_cbs c l i : obj (with_cbs c l) i = obj l i.
Proof. done. Qed.

Lemma obj_with_attrs a l i : obj (with_attrs a l) i = obj l i.
Proof. done. Qed.

Lemma list_remove_first_app_notin x xs ys :
  x ∉ xs -> list_remove_first x (xs ++ ys) = xs ++ list_remove_first x ys.
Proof.
  induction xs as [|y xs IH]; simpl; [done|]. intros Hn.
  rewrite bool_decide_eq_false_2
    by (intros ->; apply Hn; apply elem_of_cons; by left).
  f_equal. apply IH. intros Hin. apply Hn. apply elem_of_cons. by right.
Qed.

Lemma list_remove_first_head x xs : list_remove_first x (x :: xs) = xs.
Proof. simpl. by rewrite bool_decide_eq_true_2. Qed.

(** X1: registering an instance that is not registered and removing it again
    gives back the callback list; the callback is detached and the learner
    attribute of its name is gone. *)
Theorem add_cb_remove_cb_round_trip E (cb : nat) (w : World) :
  cb ∉ cbs (learner w) ->
  let w1 := (LearnerPart1.add_cb E (LearnerPart1.CbInst cb) w).1 in
  let w2 := (LearnerPart1.remove_cb (LearnerPart1.CbInst cb) w1).1 in
  cb ∈ cbs (learner w1) /\
  attrs (learner w1) !! name (obj (learner w) cb) = Some cb /\
  learn (obj (learner w1) cb) = true /\
  cbs (learner w2) = cbs (learner w) /\
  learn (obj (learner w2) cb) = false /\
  attrs (learner w2) !! name (obj (learner w) cb) = None /\
  log w2 = log w.
Proof.
  intros Hn w1 w2. subst w2. simpl. rewrite remove_cb_instance_clean.
  2:{ left. subst w1. simpl.
      rewrite !obj_with_cbs, !obj_with_attrs, !obj_upd_obj_same. simpl.
      rewrite lookup_insert_eq. by eexists. }
  subst w1. simpl.
  rewrite !obj_with_cbs, !obj_with_attrs, !obj_upd_obj_same,
    !obj_with_cbs, !obj_with_attrs, !obj_upd_obj_same. simpl.
  assert (Hin : cb ∈ cbs (learner w) ++ [cb])
    by (apply elem_of_app; right; by apply list_elem_of_singleton).
  split; [done|]. split; [by rewrite lookup_insert_eq|]. split; [done|].
  split.
  { rewrite bool_decide_eq_true_2 by done.
    rewrite list_remove_first_app_notin by done. simpl.
    rewrite bool_decide_eq_true_2 by done. apply app_nil_r. }
  split; [done|]. split; [|done]. apply lookup_delete_eq.
Qed.

Lemma add_cb_remove_cb_round_trip_witness :
  cbs (learner (LearnerPart1.remove_cb (LearnerPart1.CbInst 7)
                  (LearnerPart1.add_cb Demo.E (LearnerPart1.CbInst 7)
                     (Demo.world_with ["CountBatches"; "StopFit"])).1).1) = [0%nat; 1%nat].
Proof.
  refine (proj1 (proj2 (proj2 (proj2
    (add_cb_remove_cb_round_trip Demo.E 7 (Demo.world_with ["CountBatches"; "StopFit"]) _))))).
  by_compute.
Defined.

(** The class test of [_grab_cbs] does not depend on what [remove_cb] writes. *)
Lemma mro_upd_set_learn l cb b i : mro (obj (upd_obj cb (set_learn b) l) i) = mro (obj l i).
Proof.
  unfold obj at 1, upd_obj. simpl. destruct (decide (cb = i)) as [->|Hne].
  - by rewrite lookup_insert_eq.
  - by rewrite lookup_insert_ne.
Qed.

Lemma name_upd_set_learn l cb b i : name (obj (upd_obj cb (set_learn b) l) i) = name (obj l i).
Proof.
  unfold obj at 1, upd_obj. simpl. destruct (decide (cb = i)) as [->|Hne].
  - by rewrite lookup_insert_eq.
  - by rewrite lookup_insert_ne.
Qed.

Lemma remove_grabbed (c : string) (l0 : Learner) (rest pre : list nat) (w : World) :
  (forall i, mro (obj (learner w) i) = mro (obj l0 i)) ->
  (forall i, name (obj (learner w) i) = name (obj l0 i)) ->
  inherited (learner w) = inherited l0 ->
  cbs (learner w) = pre ++ rest ->
  Forall (fun cb => c ∉ mro (obj l0 cb)) pre ->
  Forall (fun cb => c ∈ mro (obj l0 cb) -> name (obj l0 cb) ∉ inherited l0) rest ->
  let r := for_each (filter (fun cb => c ∈ mro (obj l0 cb)) rest)
             LearnerPart1.remove_cb_instance w in
  r.2 = Ok tt /\
  cbs (learner r.1) = pre ++ filter (fun cb => c ∉ mro (obj l0 cb)) rest /\
  (forall i, mro (obj (learner r.1) i) = mro (obj l0 i)) /\
  log r.1 = log w.
Proof.
  revert pre w. induction rest as [|x rest IH];
    intros pre w Hmro Hname Hinh Hcbs Hpre Hfree; simpl.
  - done.
  - apply Forall_cons in Hfree. destruct Hfree as [Hx0 Hfree].
    rewrite filter_cons. destruct (decide (c ∈ mro (obj l0 x))) as [Hx|Hx].
    + rewrite filter_cons_False by (intros ?; done). simpl.
      unfold bind. rewrite remove_cb_instance_clean
        by (right; rewrite Hname, Hinh; by apply Hx0).
      set (w1 := mkWorld _ _).
      destruct (IH pre w1) as (Hok & Hc & Hm & Hl).
      * intros i. subst w1. simpl.
        change (mro (obj (upd_obj x (set_learn false) (learner w)) i) = mro (obj l0 i)).
        by rewrite mro_upd_set_learn.
      * intros i. subst w1. simpl.
        change (name (obj (upd_obj x (set_learn false) (learner w)) i) = name (obj l0 i)).
        by rewrite name_upd_set_learn.
      * exact Hinh.
      * subst w1. simpl. rewrite Hcbs.
        rewrite bool_decide_eq_true_2
          by (apply elem_of_app; right; apply elem_of_cons; by left).
        rewrite list_remove_first_app_notin, list_remove_first_head; [done|].
        intros Hin. rewrite Forall_forall in Hpre. by apply (Hpre x).
      * done.
      * done.
      * done.
    + rewrite filter_cons_True by done.
      destruct (IH (pre ++ [x]) w) as (Hok & Hc & Hm & Hl); try done.
      * by rewrite <- app_assoc.
      * apply Forall_app. split; [done|]. by constructor.
      * rewrite Hc. by rewrite <- app_assoc.
Qed.

Lemma filter_disjoint_nil {A} (P Q : A -> Prop) `{!forall x, Decision (P x)}
    `{!forall x, Decision (Q x)} (xs : list A) :
  (forall x, P x -> Q x -> False) -> filter P (filter Q xs) = [].
Proof.
  intros HPQ. induction xs as [|x xs IH]; [done|].
  rewrite (filter_cons Q). destruct (decide (Q x)); [|done].
  rewrite filter_cons_False; [done|]. intros ?. by eapply HPQ.
Qed.

(** X2: [remove_cb] of a class, when the names of its registered instances
    are not names that [hasattr] finds on the class [Learner] or on the
    model, does not raise and removes every registered instance of the class
    (every occurrence, through [_grab_cbs] and the instance branch), keeping
    the other callbacks in their order. *)
Theorem remove_cb_type_removes_all (c : string) (w : World) :
  (forall cb, cb ∈ LearnerPart1._grab_cbs c (learner w) ->
     name (obj (learner w) cb) ∉ inherited (learner w)) ->
  let r := LearnerPart1.remove_cb (LearnerPart1.CbType c) w in
  r.2 = Ok tt /\
  cbs (learner r.1) = filter (fun cb => c ∉ mro (obj (learner w) cb)) (cbs (learner w)) /\
  LearnerPart1._grab_cbs c (learner r.1) = [] /\
  log r.1 = log w.
Proof.
  intros Hfree.
  assert (Hrun : LearnerPart1.remove_cb (LearnerPart1.CbType c) w =
            for_each (filter (fun cb => c ∈ mro (obj (learner w) cb)) (cbs (learner w)))
              LearnerPart1.remove_cb_instance w) by done.
  cbv zeta. rewrite Hrun.
  destruct (remove_grabbed c (learner w) (cbs (learner w)) [] w) as (Hok & Hc & Hm & Hl);
    [done | done | done | done | done | |].
  { apply Forall_forall. intros cb Hin Hcls. apply Hfree.
    unfold LearnerPart1._grab_cbs. by apply list_elem_of_filter. }
  simpl in Hc. split; [exact Hok|]. split; [exact Hc|]. split; [|exact Hl].
  unfold LearnerPart1._grab_cbs. rewrite Hc.
  apply filter_disjoint_nil. intros cb Hin Hout. apply Hout. by rewrite <- Hm.
Qed.

(** Two [CountBatches] and a [StopFit]: removing the class [CountBatches]
    leaves the [StopFit]. *)
Lemma remove_cb_type_removes_all_witness :
  let w := Demo.world_with ["CountBatches"; "StopFit"; "CountBatches"] in
  let r := LearnerPart1.remove_cb (LearnerPart1.CbType "CountBatches") w in
  r.2 = Ok tt /\ cbs (learner r.1) = [1%nat].
Proof.
  intros w r.
  destruct (remove_cb_type_removes_all "CountBatches" w) as (Hok & Hc & _).
  - intros cb Hin. vm_compute in Hin.
    apply elem_of_cons in Hin. destruct Hin as [->|Hin]; [by_compute|].
    apply list_elem_of_singleton in Hin. subst cb. by_compute.
  - split; [exact Hok|]. subst r. rewrite Hc. vm_compute. reflexivity.
Defined.

Lemma add_cb_type_spec E (c : string) (w : World) :
  exists l',
    LearnerPart1.add_cb E (LearnerPart1.CbType c) w = (mkWorld l' (log w), Ok tt) /\
    heap l' = <[next_id (learner w) := set_learn true (new_cb E c)]> (heap (learner w)) /\
    next_id l' = S (next_id (learner w)) /\
    cbs l' = cbs (learner w) ++ [next_id (learner w)] /\
    attrs l' = <[name (new_cb E c) := next_id (learner w)]> (attrs (learner w)).
Proof.
  eexists. split; [reflexivity|]. cbn -[insert lookup].
  unfold obj. cbn -[insert lookup]. rewrite !lookup_insert_eq. cbn -[insert lookup].
  rewrite insert_insert_eq. repeat (split; [done|]).
  unfold obj. cbn -[insert lookup]. by rewrite lookup_insert_eq.
Qed.

(** X3: registering the same class twice creates two distinct objects, both
    registered and attached, in that order; the learner attribute of their
    common name refers to the second; writing to one does not change the
    other. *)
Theorem add_cb_class_twice E (c : string) (w : World) :
  let n := next_id (learner w) in
  let r := LearnerPart1.add_cbs E [LearnerPart1.CbType c; LearnerPart1.CbType c] w in
  r.2 = Ok tt /\
  cbs (learner r.1) = cbs (learner w) ++ [n; S n] /\
  obj (learner r.1) n = set_learn true (new_cb E c) /\
  obj (learner r.1) (S n) = set_learn true (new_cb E c) /\
  attrs (learner r.1) !! name (new_cb E c) = Some (S n) /\
  (forall f, obj (upd_obj n f (learner r.1)) (S n) = obj (learner r.1) (S n)).
Proof.
  intros n r.
  destruct (add_cb_type_spec E c w) as (l1 & Hrun1 & Hh1 & Hn1 & Hc1 & Ha1).
  destruct (add_cb_type_spec E c (mkWorld l1 (log w)))
    as (l2 & Hrun2 & Hh2 & Hn2 & Hc2 & Ha2).
  cbn [learner log] in *.
  assert (Hr : r = (mkWorld l2 (log w), Ok tt)).
  { subst r. unfold LearnerPart1.add_cbs. cbn [for_each]. unfold bind at 1.
    rewrite Hrun1. unfold bind at 1. by rewrite Hrun2. }
  rewrite Hr. cbn [fst snd learner]. fold n in Hh1, Hn1, Hc1, Ha1.
  rewrite Hn1 in *. rewrite Hh1 in Hh2. rewrite Hc1 in Hc2. rewrite Ha1 in Ha2.
  unfold obj, upd_obj, with_heap. cbn [heap]. rewrite Hh2, Hc2, Ha2.
  split; [done|]. split; [by rewrite <- app_assoc|].
  split. { rewrite lookup_insert_ne by lia. by rewrite lookup_insert_eq. }
  split. { by rewrite lookup_insert_eq. }
  split. { by rewrite lookup_insert_eq. }
  intros f. rewrite lookup_insert_ne by lia. by rewrite lookup_insert_eq.
Qed.

Lemma list_remove_first_keeps x y xs : y ≠ x -> y ∈ xs -> y ∈ list_remove_first x xs.
Proof.
  intros Hne. induction xs as [|z xs IH]; simpl; [done|].
  intros [->|Hin]%elem_of_cons.
  - rewrite bool_decide_eq_false_2 by done. apply elem_of_cons. by left.
  - case_bool_decide; [done|]. apply elem_of_cons. right. by apply IH.
Qed.

(** X4: the learner attribute is deleted by name: removing one of two
    registered callbacks that have the same [name] deletes the attribute
    although the other one stays registered. *)
Theorem remove_cb_deletes_shared_name (a b : nat) (w : World) :
  a ≠ b ->
  b ∈ cbs (learner w) ->
  name (obj (learner w) a) = name (obj (learner w) b) ->
  let w' := (LearnerPart1.remove_cb (LearnerPart1.CbInst a) w).1 in
  b ∈ cbs (learner w') /\
  obj (learner w') b = obj (learner w) b /\
  attrs (learner w') !! name (obj (learner w') b) = None.
Proof.
  intros Hne Hb Hname w'. subst w'. simpl. rewrite remove_cb_instance_spec.
  assert (Hobj : obj (upd_obj a (set_learn false) (learner w)) b = obj (learner w) b).
  { unfold obj at 1, upd_obj. simpl. by rewrite lookup_insert_ne. }
  case_bool_decide as Hattr; cbn [orb negb]; [|case_bool_decide as Hinh; cbn [negb]]; simpl;
    rewrite ?obj_with_cbs, ?obj_with_attrs, Hobj.
  - split; [|split; [done|]].
    + case_bool_decide; [|done]. by apply list_remove_first_keeps.
    + rewrite <- Hname. apply lookup_delete_eq.
  - split; [done|]. split; [done|]. rewrite <- Hname.
    destruct (attrs (learner w) !! name (obj (learner w) a)) eqn:Heq; [|done].
    exfalso. apply Hattr. by eexists.
  - split; [|split; [done|]].
    + case_bool_decide; [|done]. by apply list_remove_first_keeps.
    + rewrite <- Hname. apply lookup_delete_eq.
Qed.

Lemma remove_cb_deletes_shared_name_witness :
  let w := Demo.world_with ["CountBatches"; "CountBatches"] in
  attrs (learner w) !! "CountBatches" = Some 1%nat /\
  (1%nat ∈ cbs (learner (LearnerPart1.remove_cb (LearnerPart1.CbInst 0) w).1)) /\
  attrs (learner (LearnerPart1.remove_cb (LearnerPart1.CbInst 0) w).1) !! "CountBatches" = None.
Proof.
  intros w.
  destruct (remove_cb_deletes_shared_name 0 1 w) as (Hin & Hobj & Hattr);
    [lia | by_compute | reflexivity |].
  split; [reflexivity|]. split; [exact Hin|]. rewrite Hobj in Hattr. exact Hattr.
Defined.

(** ** Dispatching *)

Lemma call_one_unknown E ev w :
  ev ∉ event E ->
  LearnerPart1._call_one E ev w =
    (mkWorld (learner w) (log w ++ [EvDispatch ev]), Raise (Exc "Exception" ["missing " +:+ ev])).
Proof.
  intros Hev. unfold LearnerPart1._call_one, bind, emit, raise. simpl.
  by rewrite bool_decide_eq_false_2.
Qed.

(** X5: [Learner.__call__] on a list of event names dispatches them in the
    order given and stops at the first dispatch that raises: the events
    dispatched are a prefix of the list, the whole list when the call
    returns; a name outside [event] makes the call raise, and dispatched
    alone it raises [Exception('missing ...')] without running a handler or
    changing the learner. *)
Theorem learner_call_event_list E (evs : list string) (w : World) :
  let r := LearnerPart1.__call__ E evs w in
  dispatched (new_log w r.1) `prefix_of` evs /\
  (r.2 = Ok tt -> dispatched (new_log w r.1) = evs) /\
  (forall ev, ev ∈ evs -> ev ∉ event E -> exists e, r.2 = Raise e) /\
  (forall ev, ev ∉ event E ->
     LearnerPart1.__call__ E [ev] w =
       (mkWorld (learner w) (log w ++ [EvDispatch ev]),
        Raise (Exc "Exception" ["missing " +:+ ev]))).
Proof.
  intros r. subst r.
  assert (Hshape : forall evs w, exists l,
            log (LearnerPart1.__call__ E evs w).1 = log w ++ l /\
            dispatched l `prefix_of` evs /\
            ((LearnerPart1.__call__ E evs w).2 = Ok tt -> dispatched l = evs) /\
            (forall ev, ev ∈ evs -> ev ∉ event E ->
               exists e, (LearnerPart1.__call__ E evs w).2 = Raise e)).
  { clear evs w. induction evs as [|ev evs IH]; intros w.
    - exists []. simpl. rewrite app_nil_r. repeat split; try done.
      intros ev Hin. by apply elem_of_nil in Hin.
    - unfold LearnerPart1.__call__. simpl. unfold bind.
      destruct (call_one_log E ev w) as (rest & Hl & Hd & _).
      destruct (LearnerPart1._call_one E ev w) as [w1 [[]|e]] eqn:Hone; simpl in *.
      + destruct (IH w1) as (l2 & Hl2 & Hp & Hok & Hunk).
        fold (LearnerPart1.__call__ E evs w1).
        exists ((EvDispatch ev :: rest) ++ l2).
        rewrite Hl2, Hl, <- app_assoc. split; [done|].
        rewrite dispatched_app, dispatched_cons, Hd. simpl.
        split; [by apply prefix_cons|]. split; [intros H; by rewrite Hok|].
        intros ev' [->|Hin]%elem_of_cons Hev'; [|by apply (Hunk ev')].
        rewrite (call_one_unknown E _ w Hev') in Hone. done.
      + exists (EvDispatch ev :: rest). split; [done|].
        rewrite dispatched_cons, Hd.
        split; [apply prefix_cons, prefix_nil|]. split; [done|]. eauto. }
  destruct (Hshape evs w) as (l & Hl & Hp & Hok & Hunk).
  rewrite (new_log_app _ _ _ Hl). split; [done|]. split; [done|]. split; [done|].
  intros ev Hev. rewrite call_single. by apply call_one_unknown.
Qed.

(** X6: a dispatch to callbacks that are all disabled ([run = False]) runs
    no handler and changes nothing in the learner, for every known event
    other than [after_fit]. *)
Theorem dispatch_to_disabled_callbacks E (ev : string) (w : World) :
  ev ∈ event E ->
  ev ≠ "after_fit" ->
  (forall cb, cb ∈ cbs (learner w) -> run (obj (learner w) cb) = false) ->
  LearnerPart1._call_one E ev w =
    (mkWorld (learner w) (log w ++ [EvDispatch ev]), Ok tt).
Proof.
  intros Hev Hne Hoff.
  unfold LearnerPart1._call_one. unfold bind at 1. unfold emit at 1.
  unfold bind at 1. rewrite bool_decide_eq_true_2 by done. unfold ret at 1.
  unfold bind at 1. unfold get at 1. simpl.
  set (w0 := mkWorld (learner w) (log w ++ [EvDispatch ev])).
  assert (Hloop : forall xs, (forall cb, cb ∈ xs -> run (obj (learner w0) cb) = false) ->
            for_each xs (fun cb => _ <- Callbacks.__call__ E cb ev ;; ret tt) w0 = (w0, Ok tt)).
  { induction xs as [|x xs IH]; intros Hxs; simpl; [done|].
    unfold bind at 1. unfold bind at 1. rewrite call_disabled.
    - rewrite bool_decide_eq_false_2 by done. simpl. apply IH.
      intros cb Hin. apply Hxs. apply elem_of_cons. by right.
    - rewrite Hxs; [done|]. apply elem_of_cons. by left. }
  apply Hloop. intros cb Hin. apply Hoff.
  by rewrite (sorted_perm _ _) in Hin.
Qed.

Lemma dispatch_to_disabled_callbacks_witness :
  let w := mkWorld (upd_obj 0 (set_run false) (learner (Demo.world_with ["CountBatches"]))) [] in
  LearnerPart1._call_one Demo.E "after_batch" w =
    (mkWorld (learner w) [EvDispatch "after_batch"], Ok tt).
Proof.
  intros w. apply (dispatch_to_disabled_callbacks Demo.E "after_batch" w).
  - by_compute.
  - discriminate.
  - intros cb Hin. apply list_elem_of_singleton in Hin. subst cb. reflexivity.
Defined.



(** X8: [_set_device] puts every tensor of the batch on the device of the
    model's parameters, whatever the device of the data loaders, and keeps
    the data and the length of the batch; for a model without parameters it
    raises [StopIteration].  The learner is not changed. *)
Theorem set_device_follows_model (b : Batch) (w : World) :
  match model_device (learner w) with
  | Some d =>
      exists b', LearnerPart1._set_device b w = (w, Ok b') /\
                 Forall (fun t => t_device t = d) b' /\
                 t_data <$> b' = t_data <$> b /\
                 length b' = length b
  | None => LearnerPart1._set_device b w = (w, Raise (Exc "StopIteration" []))
  end.
Proof.
  unfold LearnerPart1._set_device, bind, get.
  destruct (model_device (learner w)) as [d|]; [|done].
  exists (to_device b d). split.
  - case_bool_decide as Hd; [|done]. by rewrite <- Hd.
  - unfold to_device. split; [|split].
    + apply Forall_forall. intros t Hin. apply list_elem_of_fmap in Hin as (t0 & -> & _). done.
    + rewrite <- list_fmap_compose. by apply list_fmap_ext.
    + apply length_map.
Qed.

(** ** [_with_events] is not a [finally] *)

(** X9: only the [try:] suite of [_with_events] is guarded.  An exception
    raised by a handler of [after_{event_type}], the phase's own cancellation
    class included, leaves [_with_events] without [final] being run; and an
    exception raised by a handler of [after_cancel_{event_type}] leaves it
    before [after_{event_type}] is dispatched. *)
Theorem after_handler_error_skips_final E (f : M unit) (event_type : string)
    (ex : CancelKind) (final : M unit) (w w1 : World) :
  (forall w2 e,
     try_suite E f event_type w = (w1, Ok tt) ->
     LearnerPart1.__call__ E ["after_" +:+ event_type] w1 = (w2, Raise e) ->
     LearnerPart1._with_events E f event_type ex final w = (w2, Raise e)) /\
  (forall w2 e,
     try_suite E f event_type w = (w1, Raise (Cancel ex)) ->
     LearnerPart1.__call__ E ["after_cancel_" +:+ event_type] w1 = (w2, Raise e) ->
     LearnerPart1._with_events E f event_type ex final w = (w2, Raise e)) /\
  (forall w2 w3 e,
     try_suite E f event_type w = (w1, Raise (Cancel ex)) ->
     LearnerPart1.__call__ E ["after_cancel_" +:+ event_type] w1 = (w2, Ok tt) ->
     LearnerPart1.__call__ E ["after_" +:+ event_type] w2 = (w3, Raise e) ->
     LearnerPart1._with_events E f event_type ex final w = (w3, Raise e)).
Proof.
  split; [|split].
  - intros w2 e Hs Ha. rewrite with_events_cases, Hs. simpl.
    by rewrite (bind_raise _ _ _ _ _ Ha).
  - intros w2 e Hs Hc. rewrite with_events_cases, Hs. simpl.
    rewrite bool_decide_eq_true_2 by done. by rewrite (bind_raise _ _ _ _ _ Hc).
  - intros w2 w3 e Hs Hc Ha. rewrite with_events_cases, Hs. simpl.
    rewrite bool_decide_eq_true_2 by done.
    by rewrite (bind_ok _ _ _ _ _ Hc), (bind_raise _ _ _ _ _ Ha).
Qed.

(** On the second demo: [StopLate] raises [CancelFitException] in
    [after_fit]; the fit phase ends with it and [_end_cleanup] has not run. *)
Lemma after_handler_error_skips_final_witness :
  let w := Demo.world_with ["TrainEvalCallback"; "StopLate"] in
  let w1 := (try_suite Demo2.E (LearnerPart1._do_fit Demo2.E) "fit" w).1 in
  let w2 := (LearnerPart1.__call__ Demo2.E ["after_fit"] w1).1 in
  fit_phase Demo2.E w = (w2, Raise (Cancel CancelFit)) /\
  Demo.counter "cleanup" w2 = 0.
Proof.
  intros w w1 w2. split; [|vm_compute; reflexivity].
  destruct (after_handler_error_skips_final Demo2.E (LearnerPart1._do_fit Demo2.E) "fit"
              CancelFit (ext (_end_cleanup Demo2.E)) w w1) as (Hret & _ & _).
  apply Hret; vm_compute; reflexivity.
Defined.

(** ** The order of the events of a batch *)

Lemma extends_weaken {A} (P Q : list LogItem -> option exn -> Prop) (m : M A) :
  (forall l o, P l o -> Q l o) -> extends_by P m -> extends_by Q m.
Proof. intros HPQ Hm w. destruct (Hm w) as (l & Hl & HP). eauto. Qed.

Lemma silent_unchanged {A} (m : M A) :
  (forall w, exists r, m w = (mkWorld (learner (m w).1) (log w), r)) ->
  extends_by (always (fun d => d = [])) m.
Proof.
  intros Hm w. destruct (Hm w) as (r & Hr). exists []. rewrite Hr. simpl.
  by rewrite app_nil_r.
Qed.

Lemma silent_ret {A} (a : A) : extends_by (always (fun d => d = [])) (ret a).
Proof. intros w. exists []. simpl. by rewrite app_nil_r. Qed.

Lemma silent_raise {A} e : extends_by (always (fun d => d = [])) (raise (A:=A) e).
Proof. intros w. exists []. simpl. by rewrite app_nil_r. Qed.

Lemma silent_modify f : extends_by (always (fun d => d = [])) (modify f).
Proof. intros w. exists []. simpl. by rewrite app_nil_r. Qed.

Lemma silent_ext {A} (f : Ext A) : extends_by (always (fun d => d = [])) (ext f).
Proof.
  intros w. unfold ext. destruct (f (learner w)) as [l' [a|e]]; simpl.
  - exists []. by rewrite app_nil_r.
  - by exists [EvRaise e].
Qed.

Lemma silent_bind {A B} (m : M A) (k : A -> M B) :
  extends_by (always (fun d => d = [])) m ->
  (forall a, extends_by (always (fun d => d = [])) (k a)) ->
  extends_by (always (fun d => d = [])) (bind m k).
Proof.
  intros Hm Hk. eapply ext_bind_gen; [exact Hm | exact Hk | |done].
  unfold always. intros l1 l2 o H1 H2. by rewrite dispatched_app, H1, H2.
Qed.

Lemma call_dispatches E ev :
  extends_by (always (fun d => d = [ev])) (LearnerPart1.__call__ E [ev]).
Proof.
  intros w. destruct (call_log E ev w) as (rest & Hl & Hd).
  eexists. split; [exact Hl|]. unfold always. by rewrite dispatched_cons, Hd.
Qed.

(** After [m], which dispatches exactly [d1], comes [k]. *)
Lemma bind_after_always {A B} (d1 : list string) (S S' : list string -> Prop)
    (m : M A) (k : A -> M B) :
  extends_by (always (fun d => d = d1)) m ->
  (forall a, extends_by (on_return S) (k a)) ->
  (forall d2, S d2 -> S' (d1 ++ d2)) ->
  extends_by (on_return S') (bind m k).
Proof.
  intros Hm Hk HS. eapply ext_bind_gen; [exact Hm | exact Hk | |done].
  unfold always, on_return. intros l1 l2 o H1 H2 Ho.
  rewrite dispatched_app, H1. by apply HS, H2.
Qed.

Lemma bind_on_return {A B} (S1 S2 S' : list string -> Prop) (m : M A) (k : A -> M B) :
  extends_by (on_return S1) m ->
  (forall a, extends_by (on_return S2) (k a)) ->
  (forall d1 d2, S1 d1 -> S2 d2 -> S' (d1 ++ d2)) ->
  extends_by (on_return S') (bind m k).
Proof.
  intros Hm Hk HS. eapply ext_bind_gen; [exact Hm | exact Hk | |done].
  unfold on_return. intros l1 l2 o H1 H2 Ho.
  rewrite dispatched_app. auto.
Qed.

Lemma always_on_return {A} (S : list string -> Prop) (m : M A) :
  extends_by (always S) m -> extends_by (on_return S) m.
Proof. apply extends_weaken. unfold always, on_return. auto. Qed.

(** A phase whose body dispatches nothing: when it returns it has dispatched
    its [before] and [after] events, with [after_cancel] in between exactly
    when it was cancelled.  *)
Lemma silent_phase_shape E (f : M unit) (event_type : string) (ex : CancelKind) :
  extends_by (always (fun d => d = [])) f ->
  extends_by (on_return (phase_shape event_type))
    (LearnerPart1._with_events E f event_type ex LearnerPart1.noop).
Proof.
  intros Hf.
  assert (Hsuite : extends_by (always (fun d => d = ["before_" +:+ event_type]))
                     (LearnerPart1.__call__ E ["before_" +:+ event_type] ;; f)).
  { eapply ext_bind_gen; [apply call_dispatches | intros _; exact Hf | |done].
    unfold always. intros l1 l2 o H1 H2. by rewrite dispatched_app, H1, H2. }
  unfold LearnerPart1._with_events.
  eapply (ext_bind_gen
            (always (fun d => exists cancelled,
               (cancelled = [] \/ cancelled = ["after_cancel_" +:+ event_type]) /\
               d = ["before_" +:+ event_type] ++ cancelled))
            (always (fun d => d = ["after_" +:+ event_type]))).
  - intros w. unfold try_except. destruct (Hsuite w) as (l1 & Hl1 & H1).
    unfold always in *.
    destruct ((LearnerPart1.__call__ E ["before_" +:+ event_type] ;; f) w)
      as [w1 [[]|e]]; cbn [fst snd] in *.
    + exists l1. split; [done|]. exists []. split; [by left|]. by rewrite app_nil_r.
    + destruct (isinstance_cancel ex e).
      * destruct (call_dispatches E ("after_cancel_" +:+ event_type) w1) as (l2 & Hl2 & H2).
        unfold always in H2. exists (l1 ++ l2). rewrite Hl2, Hl1, app_assoc.
        split; [done|]. exists ["after_cancel_" +:+ event_type].
        split; [by right|]. by rewrite dispatched_app, H1, H2.
      * exists l1. split; [done|]. exists []. split; [by left|]. by rewrite app_nil_r.
  - intros _. eapply ext_bind_gen;
      [apply call_dispatches | intros _; apply (silent_ret tt) | |done].
    unfold always. intros l1 l2 o H1 H2. by rewrite dispatched_app, H1, H2.
  - unfold always, on_return. intros l1 l2 o (c & Hc & H1) H2 _.
    exists c. split; [done|]. by rewrite dispatched_app, H1, H2, <- app_assoc.
  - done.
Qed.

Lemma backward_step_shape E :
  extends_by
    (on_return (fun d => exists d1 d2,
       phase_shape "backward" d1 /\ phase_shape "step" d2 /\ d = d1 ++ d2))
    (LearnerPart1._with_events E (LearnerPart1._backward E) "backward" CancelBackward
       LearnerPart1.noop ;;
     LearnerPart1._with_events E (LearnerPart1._step E) "step" CancelStep
       LearnerPart1.noop ;;
     ext (opt_zero_grad E)).
Proof.
  eapply (bind_on_return (phase_shape "backward") (phase_shape "step")).
  - apply silent_phase_shape. unfold LearnerPart1._backward. apply ext_get. intros l.
    destruct (loss_grad l); [apply silent_ext | apply silent_raise].
  - intros _. eapply (bind_on_return (phase_shape "step") (fun d => d = [])).
    + apply silent_phase_shape. apply silent_ext.
    + intros _. apply always_on_return, silent_ext.
    + intros d1 d2 H1 ->. rewrite app_nil_r. exact H1.
  - intros d1 d2 H1 H2. eauto.
Qed.

Lemma do_one_batch_shape E :
  extends_by (on_return batch_body_shape) (LearnerPart1._do_one_batch E).
Proof.
  set (tail := fun d : list string => d = [] \/ exists d1 d2,
         phase_shape "backward" d1 /\ phase_shape "step" d2 /\ d = d1 ++ d2).
  assert (Htail : forall d, tail d -> batch_body_shape (["after_pred"; "after_loss"] ++ d)).
  { intros d [->|(d1 & d2 & (cb & Hcb & ->) & (cs & Hcs & ->) & ->)]; [by left|].
    right. exists cb, cs. split; [done|]. split; [done|].
    change ("before_" +:+ "backward") with "before_backward".
    change ("after_" +:+ "backward") with "after_backward".
    change ("before_" +:+ "step") with "before_step".
    change ("after_" +:+ "step") with "after_step".
    change ("after_cancel_" +:+ "backward") with "after_cancel_backward".
    change ("after_cancel_" +:+ "step") with "after_cancel_step".
    cbn [app]. rewrite <- !app_assoc. done. }
  unfold LearnerPart1._do_one_batch.
  apply ext_get. intros l.
  apply (bind_after_always [] (fun d => batch_body_shape d) batch_body_shape);
    [apply silent_ext | | done].
  intros p.
  apply (bind_after_always [] (fun d => batch_body_shape d) batch_body_shape);
    [apply silent_modify | | done].
  intros _.
  apply (bind_after_always ["after_pred"]
           (fun d => batch_body_shape ("after_pred" :: d)) batch_body_shape);
    [apply call_dispatches | | done].
  intros _. apply ext_get. intros l1.
  apply (bind_after_always [] (fun d => batch_body_shape ("after_pred" :: d))
           (fun d => batch_body_shape ("after_pred" :: d))); [ | | done].
  { case_bool_decide; [|apply silent_ret]. destruct (pred l1); [|apply silent_raise].
    apply silent_bind; [apply silent_ext|]. intros g.
    apply silent_bind; [apply silent_modify | intros; apply silent_modify]. }
  intros _.
  apply (bind_after_always ["after_loss"] tail
           (fun d => batch_body_shape ("after_pred" :: d)));
    [apply call_dispatches | | exact Htail].
  intros _. apply ext_get. intros l2.
  destruct (training l2) as [t|].
  - destruct (negb t || bool_decide (length (yb l2) = 0%nat)).
    + intros w. exists []. cbn. rewrite app_nil_r. split; [done|]. intros _. by left.
    + eapply extends_weaken; [|apply backward_step_shape].
      unfold on_return, tail. intros l0 o Hs Ho. right. by apply Hs.
  - intros w. exists []. cbn. rewrite app_nil_r. split; [done|]. intros Ho. done.
Qed.

(** X10: when [_do_one_batch] returns it has dispatched [after_pred] and
    [after_loss], and then either nothing more (validation, or no targets),
    or the backward phase followed by the step phase, each complete with its
    [before] and [after] events: a backward phase that is cancelled does not
    prevent the step phase. *)
Theorem do_one_batch_events E (w w' : World) :
  LearnerPart1._do_one_batch E w = (w', Ok tt) ->
  batch_body_shape (dispatched (new_log w w')).
Proof.
  intros Hrun. destruct (do_one_batch_shape E w) as (l & Hl & Hs).
  rewrite Hrun in Hl, Hs. simpl in *. rewrite (new_log_app _ _ _ Hl). by apply Hs.
Qed.

(** On the second demo, [SkipBackward] cancels the backward phase of a
    training batch; the step phase is run all the same. *)
Lemma do_one_batch_events_witness :
  let w := mkWorld (with_xb_yb [mkTensor 1 0] [mkTensor 0 0]
                      (learner (Demo.in_phase true ["SkipBackward"]))) [] in
  dispatched (new_log w (LearnerPart1._do_one_batch Demo2.E w).1) =
    ["after_pred"; "after_loss"; "before_backward"; "after_cancel_backward";
     "after_backward"; "before_step"; "after_step"] /\
  Demo.counter "steps" (LearnerPart1._do_one_batch Demo2.E w).1 = 1 /\
  batch_body_shape (dispatched (new_log w (LearnerPart1._do_one_batch Demo2.E w).1)).
Proof.
  intros w. split; [vm_compute; reflexivity|]. split; [vm_compute; reflexivity|].
  apply (do_one_batch_events Demo2.E w). vm_compute. reflexivity.
Defined.

(** ** The epochs of a fit *)

Section batch_loop.
Context {bad : string} {P : list LogItem -> option exn -> Prop} (HP : inner_pred bad P).
Hypothesis Hbad : bad ∉ batch_loop_events.

Lemma loop_all_batches E : extends_by P (LearnerPart1.all_batches E).
Proof.
  assert (Hne : forall ev, ev ∈ batch_loop_events -> ev ≠ bad) by (intros ev Hin ->; done).
  assert (Hbody : bad ∉ batch_body_events).
  { intros Hin. apply Hbad. unfold batch_loop_events. apply elem_of_app. by right. }
  unfold LearnerPart1.all_batches. apply ext_get. intros l.
  apply (ext_bind HP); [apply (ext_modify HP)|]. intros _.
  apply (ext_for_each HP). intros o. unfold LearnerPart1.one_batch.
  apply (ext_bind HP); [apply (ext_modify HP)|]. intros _.
  apply (ext_bind HP); [apply (ext_set_device HP)|]. intros b'.
  apply (ext_bind HP); [apply (ext_split HP)|]. intros _.
  apply (ext_with_events HP); try (apply Hne; by_compute); try done.
  - by apply (ext_do_one_batch HP).
  - apply (ext_ret HP).
Qed.

End batch_loop.

Section epoch_body.
Context {bad : string} {P : list LogItem -> option exn -> Prop} (HP : inner_pred bad P).
Hypothesis Hbad : bad ∉ epoch_body_events.

Lemma epoch_body_event_ne ev : ev ∈ epoch_body_events -> ev ≠ bad.
Proof. intros Hin ->. done. Qed.

Lemma epoch_body_batch_loop : bad ∉ batch_loop_events.
Proof.
  intros Hin. apply Hbad. unfold epoch_body_events, batch_loop_events in *.
  rewrite elem_of_app, !elem_of_cons in *. tauto.
Qed.

Lemma epoch_do_epoch E : extends_by P (LearnerPart1._do_epoch E).
Proof.
  unfold LearnerPart1._do_epoch. apply (ext_bind HP).
  - unfold LearnerPart1._do_epoch_train. apply ext_get. intros l.
    apply (ext_bind HP).
    { destruct (dls l !! 0%nat); [apply (ext_modify HP) | apply (ext_raise_exc HP)]. }
    intros _.
    apply (ext_with_events HP); try (apply epoch_body_event_ne; by_compute); try done.
    + apply (loop_all_batches HP), epoch_body_batch_loop.
    + apply (ext_ret HP).
  - intros _. unfold LearnerPart1._do_epoch_validate. apply (ext_bind HP).
    { apply ext_get. intros l.
      destruct (dls l !! 1%nat); [apply (ext_ret HP) | apply (ext_raise_exc HP)]. }
    intros d. apply (ext_bind HP); [apply (ext_modify HP)|]. intros _.
    apply (ext_with_events HP); try (apply epoch_body_event_ne; by_compute); try done.
    + apply (loop_all_batches HP), epoch_body_batch_loop.
    + apply (ext_ret HP).
Qed.

End epoch_body.

Lemma count_dispatch_app ev l1 l2 :
  count_dispatch ev (l1 ++ l2) = (count_dispatch ev l1 + count_dispatch ev l2)%nat.
Proof. unfold count_dispatch. by rewrite dispatched_app, filter_app, length_app. Qed.

Lemma count_inner ev : inner_pred ev (fun l _ => count_dispatch ev l = 0%nat).
Proof.
  split; try done.
  - intros l1 l2 o H1 H2. by rewrite count_dispatch_app, H1, H2.
  - intros l1 l2 o k _ H1 H2. by rewrite count_dispatch_app, H1, H2.
  - intros self ev' l o Hs. unfold count_dispatch.
    by rewrite (call_shape_dispatched _ _ _ _ Hs).
  - intros ev' Hev. unfold count_dispatch. rewrite dispatched_cons. cbn [dispatched omap].
    by rewrite filter_cons_False.
Qed.

Lemma call_counts_once E ev :
  extends_by (fun l _ => count_dispatch ev l = 1%nat) (LearnerPart1.__call__ E [ev]).
Proof.
  eapply extends_weaken; [|apply call_dispatches].
  unfold always, count_dispatch. intros l _ ->. by rewrite filter_cons_True.
Qed.

Lemma extends_conj {A} (P Q : list LogItem -> option exn -> Prop) (m : M A) :
  extends_by P m -> extends_by Q m -> extends_by (fun l o => P l o /\ Q l o) m.
Proof.
  intros HP HQ w. destruct (HP w) as (l & Hl & H1). destruct (HQ w) as (l' & Hl' & H2).
  rewrite Hl in Hl'. apply app_inv_head in Hl'. subst l'. eauto.
Qed.

(** What one epoch, and then a run of [n] epochs, does to the numbers of
    [before_epoch] and [after_epoch] dispatches. *)
Lemma epoch_phase_counts E :
  extends_by
    (fun l o => count_dispatch "before_epoch" l = 1%nat /\
                (count_dispatch "after_epoch" l <= 1)%nat /\
                (o = None -> count_dispatch "after_epoch" l = 1%nat))
    (LearnerPart1._with_events E (LearnerPart1._do_epoch E) "epoch" CancelEpoch
       LearnerPart1.noop).
Proof.
  assert (Hother : forall ev ev', ev' ≠ ev ->
            extends_by (fun l _ => count_dispatch ev l = 0%nat) (LearnerPart1.__call__ E [ev'])).
  { intros ev ev' Hne. by apply (ext_call (count_inner ev)). }
  assert (Hbody : forall ev, ev ∉ epoch_body_events ->
            extends_by (fun l _ => count_dispatch ev l = 0%nat) (LearnerPart1._do_epoch E)).
  { intros ev Hev. by apply (epoch_do_epoch (count_inner ev)). }
  assert (Htry : forall ev n,
            extends_by (fun l _ => count_dispatch ev l = n) (LearnerPart1.__call__ E ["before_epoch"]) ->
            ev ∉ epoch_body_events -> ev ≠ "after_cancel_epoch" ->
            extends_by (fun l _ => count_dispatch ev l = n)
              (try_except
                 (LearnerPart1.__call__ E ["before_" +:+ "epoch"] ;; LearnerPart1._do_epoch E)
                 (fun e => if isinstance_cancel CancelEpoch e
                           then Some (LearnerPart1.__call__ E ["after_cancel_" +:+ "epoch"])
                           else None))).
  { intros ev n Hfirst Hev Hne.
    assert (Hsuite : extends_by (fun l _ => count_dispatch ev l = n)
              (LearnerPart1.__call__ E ["before_epoch"] ;; LearnerPart1._do_epoch E)).
    { eapply ext_bind_gen; [exact Hfirst | intros _; by apply Hbody | |done].
      cbv beta. intros l1 l2 o H1 H2. rewrite count_dispatch_app, H1, H2. lia. }
    intros w. unfold try_except.
    change ("before_" +:+ "epoch") with "before_epoch".
    change ("after_cancel_" +:+ "epoch") with "after_cancel_epoch".
    destruct (Hsuite w) as (l1 & Hl1 & H1).
    destruct ((LearnerPart1.__call__ E ["before_epoch"] ;; LearnerPart1._do_epoch E) w)
      as [w1 [[]|e]]; cbn [fst snd] in *.
    - by exists l1.
    - destruct (isinstance_cancel CancelEpoch e).
      + destruct (Hother ev "after_cancel_epoch" (not_eq_sym Hne) w1) as (l2 & Hl2 & H2).
        exists (l1 ++ l2). rewrite Hl2, Hl1, app_assoc. split; [done|].
        rewrite count_dispatch_app, H1, H2. lia.
      + by exists l1. }
  apply extends_conj.
  - unfold LearnerPart1._with_events.
    change ("after_" +:+ "epoch") with "after_epoch".
    eapply ext_bind_gen; [apply (Htry "before_epoch" 1%nat) | | |done].
    + apply call_counts_once.
    + by_compute.
    + done.
    + intros _. instantiate (1 := fun l _ => count_dispatch "before_epoch" l = 0%nat).
      apply (ext_bind (count_inner "before_epoch")); [by apply Hother|].
      intros _. apply (ext_ret (count_inner "before_epoch")).
    + cbv beta. intros l1 l2 o H1 H2. by rewrite count_dispatch_app, H1, H2.
  - unfold LearnerPart1._with_events.
    change ("after_" +:+ "epoch") with "after_epoch".
    eapply ext_bind_gen; [apply (Htry "after_epoch" 0%nat) | | |].
    + by apply Hother.
    + by_compute.
    + done.
    + intros _. instantiate (1 := fun l _ => count_dispatch "after_epoch" l = 1%nat).
      eapply ext_bind_gen;
        [apply call_counts_once
        | intros _; apply (ext_ret (count_inner "after_epoch")) | |done].
      cbv beta. intros l1 l2 o H1 H2. by rewrite count_dispatch_app, H1, H2.
    + cbv beta. intros l1 l2 o H1 H2. rewrite count_dispatch_app, H1, H2. lia.
    + cbv beta. intros l1 e H1. rewrite H1. split; [lia | done].
Qed.

Lemma epochs_counts E (epochs : list nat) :
  extends_by
    (fun l o => (count_dispatch "after_epoch" l <= count_dispatch "before_epoch" l)%nat /\
                (count_dispatch "before_epoch" l <= length epochs)%nat /\
                (o = None -> count_dispatch "after_epoch" l = length epochs))
    (for_each epochs
       (fun epoch =>
          modify (with_epoch epoch) ;;
          LearnerPart1._with_events E (LearnerPart1._do_epoch E) "epoch" CancelEpoch
            LearnerPart1.noop)).
Proof.
  induction epochs as [|epoch epochs IH]; cbn [for_each length].
  - intros w. exists []. cbn. rewrite app_nil_r. split; [done|]. by cbv.
  - eapply ext_bind_gen; [|intros _; exact IH| |].
    + intros w. exact (epoch_phase_counts E (mkWorld (with_epoch epoch (learner w)) (log w))).
    + cbv beta. intros l1 l2 o (Hb1 & Ha1 & Hr1) (Hab & Hb2 & Hr2).
      rewrite !count_dispatch_app, Hb1, (Hr1 eq_refl).
      split; [lia|]. split; [lia|]. intros Ho. rewrite (Hr2 Ho). lia.
    + cbv beta. intros l1 e (Hb1 & Ha1 & _). rewrite Hb1. split; [lia|]. split; [lia|done].
Qed.

(** X11: [_do_fit] runs the number of epochs it reads from [n_epoch] when it
    starts, whatever the callbacks do: [before_epoch] is dispatched at most
    that many times and [after_epoch] never more often than [before_epoch];
    when [_do_fit] returns, both were dispatched exactly [n_epoch] times, so
    an epoch that was cancelled still has its [after_epoch] and is followed
    by the remaining epochs. *)
Theorem do_fit_epoch_events E (w : World) :
  let r := LearnerPart1._do_fit E w in
  let d := new_log w r.1 in
  (count_dispatch "after_epoch" d <= count_dispatch "before_epoch" d)%nat /\
  (count_dispatch "before_epoch" d <= n_epoch (learner w))%nat /\
  (r.2 = Ok tt ->
   count_dispatch "before_epoch" d = n_epoch (learner w) /\
   count_dispatch "after_epoch" d = n_epoch (learner w)).
Proof.
  intros r d.
  destruct (epochs_counts E (seq 0 (n_epoch (learner w))) w) as (l & Hl & Hab & Hb & Hr).
  rewrite length_seq in Hb, Hr.
  assert (Hd : d = l) by (apply new_log_app; exact Hl).
  rewrite Hd. split; [done|]. split; [done|].
  intros Hok. assert (Ha : count_dispatch "after_epoch" l = n_epoch (learner w)).
  { apply Hr. change (outcome r.2 = None). by rewrite Hok. }
  lia.
Qed.

(** On the second demo, [SkipEpoch] cancels every epoch before its first
    batch: a fit of two epochs returns, no batch was begun, and both epochs
    were begun and ended. *)
Example scenario_skip_epoch :
  let w := Demo.world_with ["SkipEpoch"; "CountBatches"] in
  let r := LearnerPart1.fit Demo2.E 2 None None false w in
  r.2 = Ok tt /\
  batches_begun (log r.1) = 0%nat /\
  count_dispatch "after_cancel_epoch" (log r.1) = 2%nat /\
  count_dispatch "after_epoch" (log r.1) = 2%nat.
Proof. vm_compute. repeat split. Qed.

(** ** The order of the events of a fit *)

Lemma count_zero_notin ev l : count_dispatch ev l = 0%nat -> ev ∉ dispatched l.
Proof.
  unfold count_dispatch. generalize (dispatched l). intros d.
  induction d as [|x d IH]; [intros _; apply not_elem_of_nil|].
  rewrite filter_cons. destruct (decide (x = ev)) as [->|Hne]; [done|].
  intros H. apply not_elem_of_cons. split; [congruence | by apply IH].
Qed.

Lemma silent_set_device b : extends_by (always (fun d => d = [])) (LearnerPart1._set_device b).
Proof.
  unfold LearnerPart1._set_device. apply ext_get. intros l.
  destruct (model_device l); [|apply silent_raise]. case_bool_decide; apply silent_ret.
Qed.

Lemma silent_split b : extends_by (always (fun d => d = [])) (LearnerPart1._split b).
Proof. unfold LearnerPart1._split. apply ext_get. intros l. apply silent_modify. Qed.

Lemma phase_events_spec et ev :
  ev ∈ phase_events et <->
  ev = "before_" +:+ et \/ ev = "after_cancel_" +:+ et \/ ev = "after_" +:+ et.
Proof.
  unfold phase_events. rewrite !elem_of_cons. split; [|tauto].
  intros [?|[?|[?|Hnil]]]; auto. by apply elem_of_nil in Hnil.
Qed.

(** The events of a phase that returns, from what its body does. *)
Lemma with_events_trace E (f final : M unit) (event_type : string) (ex : CancelKind)
    (completed : list string -> Prop) :
  (forall ev, ev ∈ phase_events event_type ->
     extends_by (fun l _ => count_dispatch ev l = 0%nat) f) ->
  extends_by (on_return completed) f ->
  extends_by (always (fun d => d = [])) final ->
  extends_by (on_return (phase_trace event_type completed))
    (LearnerPart1._with_events E f event_type ex final).
Proof.
  intros Hquiet Hdone Hfinal.
  set (inner := fun d : list string => Forall (fun ev => ev ∉ phase_events event_type) d).
  assert (Hf : extends_by (fun l o => inner (dispatched l) /\
                                      (o = None -> completed (dispatched l))) f).
  { apply extends_conj; [|exact Hdone]. intros w.
    destruct (Hquiet ("before_" +:+ event_type)) with (w := w) as (l & Hl & H1);
      [apply phase_events_spec; auto|].
    destruct (Hquiet ("after_cancel_" +:+ event_type)) with (w := w) as (l2 & Hl2 & H2);
      [apply phase_events_spec; auto|].
    destruct (Hquiet ("after_" +:+ event_type)) with (w := w) as (l3 & Hl3 & H3);
      [apply phase_events_spec; auto|].
    rewrite Hl in Hl2, Hl3. apply app_inv_head in Hl2, Hl3. subst l2 l3.
    exists l. split; [done|]. apply Forall_forall. intros ev Hin Hev.
    apply count_zero_notin in H1, H2, H3.
    apply phase_events_spec in Hev. destruct Hev as [Hev|[Hev|Hev]]; subst ev; done. }
  assert (Hsuite : extends_by
            (fun l o => exists body, dispatched l = ["before_" +:+ event_type] ++ body /\
                                     inner body /\ (o = None -> completed body))
            (LearnerPart1.__call__ E ["before_" +:+ event_type] ;; f)).
  { eapply ext_bind_gen; [apply call_dispatches | intros _; exact Hf | |].
    - unfold always. intros l1 l2 o H1 (Hin & Hc). exists (dispatched l2).
      by rewrite dispatched_app, H1.
    - unfold always. intros l1 e H1. exists []. rewrite H1.
      split; [done|]. split; [by constructor | done]. }
  unfold LearnerPart1._with_events.
  eapply (ext_bind_gen
            (fun l o => exists body cancelled,
               dispatched l = ["before_" +:+ event_type] ++ body ++ cancelled /\
               inner body /\
               ((cancelled = [] /\ (o = None -> completed body)) \/
                cancelled = ["after_cancel_" +:+ event_type]))
            (always (fun d => d = ["after_" +:+ event_type]))).
  - intros w. unfold try_except. destruct (Hsuite w) as (l1 & Hl1 & body & H1 & Hin & Hc).
    destruct ((LearnerPart1.__call__ E ["before_" +:+ event_type] ;; f) w)
      as [w1 [[]|e]]; cbn [fst snd] in *.
    + exists l1. split; [done|]. exists body, []. rewrite app_nil_r. auto.
    + destruct (isinstance_cancel ex e).
      * destruct (call_dispatches E ("after_cancel_" +:+ event_type) w1) as (l2 & Hl2 & H2).
        unfold always in H2. exists (l1 ++ l2). rewrite Hl2, Hl1, app_assoc.
        split; [done|]. exists body, ["after_cancel_" +:+ event_type].
        rewrite dispatched_app, H1, H2, <- app_assoc. auto.
      * exists l1. split; [done|]. exists body, []. rewrite app_nil_r.
        split; [done|]. split; [done|]. left. split; [done|]. intros Ho. done.
  - intros _. eapply ext_bind_gen; [apply call_dispatches | intros _; exact Hfinal | |done].
    unfold always. intros l1 l2 o H1 H2. by rewrite dispatched_app, H1, H2, app_nil_r.
  - unfold always, on_return. intros l1 l2 o (body & c & H1 & Hin & Hc) H2 _.
    exists body, c. rewrite dispatched_app, H1, H2, <- !app_assoc.
    split; [done|]. split; [done|]. destruct Hc as [[-> Hc]| ->]; auto.
  - done.
Qed.

Lemma for_each_repeated {A} (S : list string -> Prop) (xs : list A) (body : A -> M unit) :
  (forall x, extends_by (on_return S) (body x)) ->
  extends_by (on_return (repeated (length xs) S)) (for_each xs body).
Proof.
  intros Hb. induction xs as [|x xs IH]; cbn [for_each length].
  - intros w. exists []. cbn. rewrite app_nil_r. split; [done|]. intros _.
    exists []. by repeat split.
  - eapply bind_on_return; [apply Hb | intros _; exact IH|].
    intros d1 d2 H1 (ds & -> & Hn & Hall). exists (d1 :: ds). cbn.
    split; [done|]. split; [by rewrite Hn | by constructor].
Qed.

Lemma one_batch_trace E i b :
  extends_by (on_return batch_trace) (LearnerPart1.one_batch E i b).
Proof.
  unfold LearnerPart1.one_batch.
  apply (bind_after_always [] batch_trace batch_trace); [apply silent_modify | | done].
  intros _.
  apply (bind_after_always [] batch_trace batch_trace); [apply silent_set_device | | done].
  intros b'.
  apply (bind_after_always [] batch_trace batch_trace); [apply silent_split | | done].
  intros _. apply with_events_trace.
  - intros ev Hev. apply (ext_do_one_batch (count_inner ev)).
    apply phase_events_spec in Hev. destruct Hev as [Hev|[Hev|Hev]]; subst ev; by_compute.
  - apply do_one_batch_shape.
  - apply silent_ret.
Qed.

Lemma all_batches_trace E w :
  exists l, log (LearnerPart1.all_batches E w).1 = log w ++ l /\
    ((LearnerPart1.all_batches E w).2 = Ok tt ->
     repeated (length (dl (learner w))) batch_trace (dispatched l)).
Proof.
  destruct (for_each_repeated batch_trace (enumerate (dl (learner w)))
              (fun o => LearnerPart1.one_batch E o.1 o.2)
              (fun o => one_batch_trace E o.1 o.2)
              (mkWorld (with_n_iter (length (dl (learner w))) (learner w)) (log w)))
    as (l & Hl & Hs).
  exists l. split; [exact Hl|]. intros Hok.
  unfold enumerate in Hs. rewrite length_imap in Hs. apply Hs.
  change (outcome (LearnerPart1.all_batches E w).2 = None). by rewrite Hok.
Qed.

(** X12: when [all_batches] returns, the events it has dispatched are, for
    every batch of the loader in turn, the events of one batch:
    [before_batch], the events of [_do_one_batch], and [after_batch],
    preceded by [after_cancel_batch] when the batch was cancelled.  A
    cancelled batch neither loses its [after_batch] nor stops the loop. *)
Theorem all_batches_events E (w w' : World) :
  LearnerPart1.all_batches E w = (w', Ok tt) ->
  repeated (length (dl (learner w))) batch_trace (dispatched (new_log w w')).
Proof.
  intros Hrun. destruct (all_batches_trace E w) as (l & Hl & Hs).
  rewrite Hrun in Hl, Hs. cbn [fst snd] in *. rewrite (new_log_app _ _ _ Hl). by apply Hs.
Qed.

(** On the demo, in training mode: three batches, each with its backward
    and step phases. *)
Lemma all_batches_events_witness :
  let w := mkWorld (with_dl [Demo.batch 1 0; Demo.batch 2 1; Demo.batch 3 0]
                      (learner (Demo.in_phase true ["CountBatches"]))) [] in
  repeated 3 batch_trace (dispatched (new_log w (LearnerPart1.all_batches Demo.E w).1)) /\
  Demo.counter "count" (LearnerPart1.all_batches Demo.E w).1 = 3.
Proof.
  intros w. split; [|vm_compute; reflexivity].
  apply (all_batches_events Demo.E w). vm_compute. reflexivity.
Defined.

Lemma all_batches_on_return E :
  extends_by (on_return batches_trace) (LearnerPart1.all_batches E).
Proof.
  intros w. destruct (all_batches_trace E w) as (l & Hl & Hs).
  exists l. split; [done|]. intros Ho. exists (length (dl (learner w))). apply Hs.
  destruct ((LearnerPart1.all_batches E w).2) as [[]|e]; [done | discriminate].
Qed.

Lemma batches_phase_trace E (event_type : string) (ex : CancelKind) :
  (forall ev, ev ∈ phase_events event_type -> ev ∉ batch_loop_events) ->
  extends_by (on_return (phase_trace event_type batches_trace))
    (LearnerPart1._with_events E (LearnerPart1.all_batches E) event_type ex LearnerPart1.noop).
Proof.
  intros Hev. apply with_events_trace.
  - intros ev Hin. apply (loop_all_batches (count_inner ev)). by apply Hev.
  - apply all_batches_on_return.
  - apply silent_ret.
Qed.

Lemma do_epoch_trace E :
  extends_by (on_return epoch_body_trace) (LearnerPart1._do_epoch E).
Proof.
  unfold LearnerPart1._do_epoch.
  eapply (bind_on_return (phase_trace "train" batches_trace)
            (phase_trace "validate" batches_trace)).
  - unfold LearnerPart1._do_epoch_train. apply ext_get. intros l.
    apply (bind_after_always [] (phase_trace "train" batches_trace)
             (phase_trace "train" batches_trace)); [ | | done].
    { destruct (dls l !! 0%nat); [apply silent_modify | apply silent_raise]. }
    intros _. apply batches_phase_trace. intros ev Hin.
    apply phase_events_spec in Hin. destruct Hin as [Hin|[Hin|Hin]]; subst ev; by_compute.
  - intros _. unfold LearnerPart1._do_epoch_validate.
    apply (bind_after_always [] (phase_trace "validate" batches_trace)
             (phase_trace "validate" batches_trace)); [ | | done].
    { apply ext_get. intros l.
      destruct (dls l !! 1%nat); [apply silent_ret | apply silent_raise]. }
    intros d.
    apply (bind_after_always [] (phase_trace "validate" batches_trace)
             (phase_trace "validate" batches_trace)); [apply silent_modify | | done].
    intros _. apply batches_phase_trace. intros ev Hin.
    apply phase_events_spec in Hin. destruct Hin as [Hin|[Hin|Hin]]; subst ev; by_compute.
  - intros d1 d2 H1 H2. exists d1, d2. auto.
Qed.

Lemma do_fit_trace E : extends_by (on_return epochs_trace) (LearnerPart1._do_fit E).
Proof.
  unfold LearnerPart1._do_fit. apply ext_get. intros l.
  eapply extends_weaken;
    [|apply (for_each_repeated (phase_trace "epoch" epoch_body_trace))].
  - unfold on_return. intros l0 o Hs Ho. eexists. by apply Hs.
  - intros epoch.
    apply (bind_after_always [] (phase_trace "epoch" epoch_body_trace)
             (phase_trace "epoch" epoch_body_trace)); [apply silent_modify | | done].
    intros _. apply with_events_trace.
    + intros ev Hin. apply (epoch_do_epoch (count_inner ev)).
      apply phase_events_spec in Hin. destruct Hin as [Hin|[Hin|Hin]]; subst ev; by_compute.
    + apply do_epoch_trace.
    + apply silent_ret.
Qed.

Lemma fit_on_return E n_epoch lr wd reset_opt :
  extends_by (on_return fit_trace) (LearnerPart1.fit E n_epoch lr wd reset_opt).
Proof.
  unfold LearnerPart1.fit. apply ext_get. intros l.
  apply (bind_after_always [] fit_trace fit_trace); [ | | done].
  { destruct (reset_opt || negb (opt l)); [apply silent_ext | apply silent_ret]. }
  intros _. apply ext_get. intros l1.
  apply (bind_after_always [] fit_trace fit_trace); [ | | done].
  { destruct (match wd with None => store l1 !! "wd" | Some _ => wd end);
      [apply silent_ext | apply silent_ret]. }
  intros _. apply ext_get. intros l2.
  apply (bind_after_always [] fit_trace fit_trace); [ | | done].
  { destruct (match lr with None => store l2 !! "lr" | Some _ => lr end);
      [apply silent_ext | apply silent_raise]. }
  intros _.
  apply (bind_after_always [] fit_trace fit_trace); [apply silent_modify | | done].
  intros _. apply with_events_trace.
  - intros ev Hin. apply (ext_do_fit (count_inner ev)).
    apply phase_events_spec in Hin. destruct Hin as [Hin|[Hin|Hin]]; subst ev; by_compute.
  - apply do_fit_trace.
  - apply silent_ext.
Qed.

(** X13: the order of the events of a fit.  When [fit] returns, what it has
    dispatched is [before_fit], then the epochs, then [after_fit], with
    [after_cancel_fit] before [after_fit] when the fit was cancelled.  Unless
    cancelled, the epochs are a sequence of epoch phases, each made of
    [before_epoch], the training phase, the validation phase and
    [after_epoch]; a training or validation phase that was not cancelled is a
    sequence of batches between its [before] and [after] events.  At every
    level a cancellation adds the [after_cancel] event and leaves out none of
    the [after] events. *)
Theorem fit_events E (n_epoch : nat) (lr wd : option Z) (reset_opt : bool) (w w' : World) :
  LearnerPart1.fit E n_epoch lr wd reset_opt w = (w', Ok tt) ->
  fit_trace (dispatched (new_log w w')).
Proof.
  intros Hrun. destruct (fit_on_return E n_epoch lr wd reset_opt w) as (l & Hl & Hs).
  rewrite Hrun in Hl, Hs. cbn [fst snd] in *. rewrite (new_log_app _ _ _ Hl). by apply Hs.
Qed.

(** On the demo: a fit of one epoch, with [StopTrain] cancelling the
    training phase at its first batch. *)
Lemma fit_events_witness :
  let w := Demo.world_with ["TrainEvalCallback"; "StopTrain"] in
  let r := LearnerPart1.fit Demo.E 1 None None false w in
  dispatched (new_log w r.1) =
    ["before_fit"; "before_epoch"; "before_train"; "before_batch"; "after_cancel_train";
     "after_train"; "before_validate";
     "before_batch"; "after_pred"; "after_loss"; "after_batch";
     "before_batch"; "after_pred"; "after_loss"; "after_batch";
     "after_validate"; "after_epoch"; "after_fit"] /\
  fit_trace (dispatched (new_log w r.1)).
Proof.
  intros w r. split; [vm_compute; reflexivity|].
  apply (fit_events Demo.E 1 None None false w). vm_compute. reflexivity.
Defined.

(** ** The callback context manager *)

Lemma silent_for_each {A} (xs : list A) (body : A -> M unit) :
  (forall x, extends_by (always (fun d => d = [])) (body x)) ->
  extends_by (always (fun d => d = [])) (for_each xs body).
Proof.
  intros Hb. induction xs as [|x xs IH]; cbn [for_each]; [apply silent_ret|].
  apply silent_bind; [apply Hb | intros _; exact IH].
Qed.

Lemma run_cbs_silent E cbs' method_nm :
  extends_by (always (fun d => d = [])) (LearnerPart2.run_cbs E cbs' method_nm).
Proof.
  unfold LearnerPart2.run_cbs. apply ext_get. intros l.
  apply silent_for_each. intros cb. apply ext_get. intros l0.
  destruct (methods E (cls (obj l0 cb)) method_nm) as [m|]; [|apply silent_ret].
  apply silent_bind.
  { intros w. exists [EvCall cb method_nm]. split; [done|]. by cbv. }
  intros _. apply silent_bind; [apply silent_ext | intros; apply silent_ret].
Qed.

Lemma callback_dispatches E method_nm :
  extends_by (always (fun d => d = [method_nm])) (FlexibleLearner.callback E method_nm).
Proof.
  unfold FlexibleLearner.callback.
  eapply ext_bind_gen.
  - intros w. exists [EvDispatch method_nm]. split; [done|].
    instantiate (1 := always (fun d => d = [method_nm])). by cbv.
  - intros _. apply ext_get. intros l. apply run_cbs_silent.
  - unfold always. intros l1 l2 o H1 H2. by rewrite dispatched_app, H1, H2.
  - done.
Qed.

Lemma on_raise_always {A} (S : list string -> Prop) (f : exn -> exn) (m : M A) :
  extends_by (always S) m -> extends_by (always S) (FlexibleLearner.on_raise f m).
Proof.
  intros Hm w. destruct (Hm w) as (l & Hl & Hs). unfold FlexibleLearner.on_raise.
  destruct (m w) as [w1 [a|e]]; by exists l.
Qed.

Lemma finally_dispatches E nm :
  extends_by (always (fun d => d = ["after_" +:+ nm])) (FlexibleLearner.finally_suite E nm).
Proof. apply on_raise_always, callback_dispatches. Qed.

(** X14: in [with self.callback_ctx(nm): body] the [after] callbacks are
    run in every case, last and once.  When the [before] callbacks raise, the
    block is not entered: the statement ends in the state the [after]
    callbacks leave on the state of the failed [before] callbacks, and
    [before_{nm}] and [after_{nm}] are all that was dispatched.  When they
    return, the block is run, whether it returns, is cancelled or raises the
    statement ends in the state the [after] callbacks leave on the state the
    block leaves, and what was dispatched is [before_{nm}], what the block
    dispatched, and [after_{nm}]. *)
Theorem callback_ctx_after_always E (globals : string -> option CancelKind)
    (nm : string) (body : M unit) (w : World) :
  let before := FlexibleLearner.callback E ("before_" +:+ nm) w in
  let r := FlexibleLearner.with_callback_ctx E globals nm body w in
  match before.2 with
  | Raise _ =>
      r.1 = (FlexibleLearner.finally_suite E nm before.1).1 /\
      dispatched (new_log w r.1) = ["before_" +:+ nm; "after_" +:+ nm]
  | Ok _ =>
      r.1 = (FlexibleLearner.finally_suite E nm (body before.1).1).1 /\
      ((exists l, log (body before.1).1 = log before.1 ++ l) ->
       dispatched (new_log w r.1) =
         ["before_" +:+ nm] ++ dispatched (new_log before.1 (body before.1).1) ++
         ["after_" +:+ nm])
  end.
Proof.
  intros before r. subst before r.
  destruct (callback_dispatches E ("before_" +:+ nm) w) as (l1 & Hl1 & H1).
  unfold always in H1.
  destruct (FlexibleLearner.callback E ("before_" +:+ nm) w) as [w1 [[]|e]] eqn:Hb;
    cbn [fst snd] in *.
  - destruct (finally_dispatches E nm (body w1).1) as (l3 & Hl3 & H3). unfold always in H3.
    assert (Hr : (FlexibleLearner.with_callback_ctx E globals nm body w).1 =
                 (FlexibleLearner.finally_suite E nm (body w1).1).1).
    { unfold FlexibleLearner.with_callback_ctx, try_except, bind, ret, raise. rewrite Hb.
      destruct (body w1) as [w2 [[]|e]]; cbn [fst snd]; [done|].
      destruct (FlexibleLearner.finally_suite E nm w2) as [w3 [[]|e3]]; [|done].
      by destruct (FlexibleLearner.except_clause globals nm e). }
    split; [exact Hr|]. intros (l2 & Hl2). rewrite Hr.
    rewrite (new_log_app w1 _ l2 Hl2).
    rewrite (new_log_app w _ (l1 ++ l2 ++ l3)); [by rewrite !dispatched_app, H1, H3|].
    rewrite Hl3, Hl2, Hl1. by rewrite <- !app_assoc.
  - destruct (finally_dispatches E nm w1) as (l3 & Hl3 & H3). unfold always in H3.
    assert (Hr : (FlexibleLearner.with_callback_ctx E globals nm body w).1 =
                 (FlexibleLearner.finally_suite E nm w1).1).
    { unfold FlexibleLearner.with_callback_ctx, try_except, bind, ret, raise. rewrite Hb.
      destruct (FlexibleLearner.finally_suite E nm w1) as [w3 [[]|e3]]; [|done].
      by destruct (FlexibleLearner.except_clause globals nm e). }
    split; [exact Hr|]. rewrite Hr.
    rewrite (new_log_app w _ (l1 ++ l3)); [by rewrite dispatched_app, H1, H3|].
    rewrite Hl3, Hl1. by rewrite <- app_assoc.
Qed.

(** With the classes of fastai: [StopEarly] cancels the fit in
    [before_fit]; the block, which would count a step, is not run, and
    [after_fit] is dispatched.  Without [StopEarly] the block is run. *)
Lemma callback_ctx_after_always_witness :
  let body := modify (Demo.bump "steps") in
  let r := FlexibleLearner.with_callback_ctx Demo2.E fastai_globals "fit" body
             (Demo.world_with ["StopEarly"]) in
  let r' := FlexibleLearner.with_callback_ctx Demo2.E fastai_globals "fit" body
              (Demo.world_with ["CountBatches"]) in
  dispatched (new_log (Demo.world_with ["StopEarly"]) r.1) = ["before_fit"; "after_fit"] /\
  Demo.counter "steps" r.1 = 0 /\
  dispatched (new_log (Demo.world_with ["CountBatches"]) r'.1) = ["before_fit"; "after_fit"] /\
  Demo.counter "steps" r'.1 = 1.
Proof.
  intros body r r'. split; [|split; [vm_compute; reflexivity|split; [|vm_compute; reflexivity]]].
  - pose proof (callback_ctx_after_always Demo2.E fastai_globals "fit" body
                  (Demo.world_with ["StopEarly"])) as H.
    cbv zeta in H.
    destruct (FlexibleLearner.callback Demo2.E ("before_" +:+ "fit")
                (Demo.world_with ["StopEarly"])) as [w1 [[]|e]] eqn:Hb; cbn [fst snd] in H.
    + vm_compute in Hb. discriminate.
    + exact (proj2 H).
  - pose proof (callback_ctx_after_always Demo2.E fastai_globals "fit" body
                  (Demo.world_with ["CountBatches"])) as H.
    cbv zeta in H.
    destruct (FlexibleLearner.callback Demo2.E ("before_" +:+ "fit")
                (Demo.world_with ["CountBatches"])) as [w1 [[]|e]] eqn:Hb; cbn [fst snd] in H.
    + destruct H as [_ H]. subst r'. rewrite H.
      * unfold new_log, body, modify. cbn [fst log]. by rewrite drop_all.
      * exists []. unfold body, modify. cbn [fst log]. by rewrite app_nil_r.
    + vm_compute in Hb. discriminate.
Defined.

(** X15: what the [with] statement does with an exception, when the class
    [Cancel{Nm}Exception] exists.  That cancellation raised by the block is
    swallowed: the statement ends as the [after] callbacks end.  Raised by a
    [before] callback it is swallowed inside the generator, which then ends
    without yielding: the block is not run and the statement raises
    [RuntimeError("generator didn't yield")].  Any other exception of the
    block is raised again, unchanged, once the [after] callbacks have
    returned. *)
Theorem callback_ctx_cancel E (globals : string -> option CancelKind) (nm : string)
    (k : CancelKind) (body : M unit) (w w1 : World) :
  globals ("Cancel" +:+ FlexibleLearner.title nm +:+ "Exception") = Some k ->
  (FlexibleLearner.callback E ("before_" +:+ nm) w = (w1, Ok tt) ->
   forall w2, body w1 = (w2, Raise (Cancel k)) ->
     FlexibleLearner.with_callback_ctx E globals nm body w =
       FlexibleLearner.finally_suite E nm w2) /\
  (FlexibleLearner.callback E ("before_" +:+ nm) w = (w1, Raise (Cancel k)) ->
   forall w2, FlexibleLearner.callback E ("after_" +:+ nm) w1 = (w2, Ok tt) ->
     FlexibleLearner.with_callback_ctx E globals nm body w =
       (w2, Raise (Exc "RuntimeError" ["generator didn't yield"]))) /\
  (FlexibleLearner.callback E ("before_" +:+ nm) w = (w1, Ok tt) ->
   forall e w2 w3, body w1 = (w2, Raise e) -> e ≠ Cancel k ->
     FlexibleLearner.callback E ("after_" +:+ nm) w2 = (w3, Ok tt) ->
     FlexibleLearner.with_callback_ctx E globals nm body w = (w3, Raise e)).
Proof.
  intros Hclass.
  assert (Hmatch : FlexibleLearner.except_clause globals nm (Cancel k) = None).
  { unfold FlexibleLearner.except_clause. rewrite Hclass. cbn.
    by rewrite bool_decide_eq_true_2. }
  split; [|split].
  - intros Hbefore w2 Hbody.
    unfold FlexibleLearner.with_callback_ctx, try_except, bind, ret.
    rewrite Hbefore, Hbody, Hmatch.
    by destruct (FlexibleLearner.finally_suite E nm w2) as [w3 [[]|e]].
  - intros Hbefore w2 Hafter.
    unfold FlexibleLearner.with_callback_ctx, try_except, bind, raise,
      FlexibleLearner.finally_suite, FlexibleLearner.on_raise.
    by rewrite Hbefore, Hafter, Hmatch.
  - intros Hbefore e w2 w3 Hbody Hne Hafter.
    assert (Hpending : FlexibleLearner.except_clause globals nm e = Some e).
    { unfold FlexibleLearner.except_clause. rewrite Hclass.
      destruct e as [k'|c a]; cbn; [|done].
      rewrite bool_decide_eq_false_2; [done|]. congruence. }
    unfold FlexibleLearner.with_callback_ctx, try_except, bind, ret, raise,
      FlexibleLearner.finally_suite, FlexibleLearner.on_raise.
    by rewrite Hbefore, Hbody, Hafter, Hpending.
Qed.

Lemma callback_ctx_cancel_witness :
  let w := Demo.world_with ["StopEarly"] in
  let w1 := (FlexibleLearner.callback Demo2.E "before_fit" w).1 in
  FlexibleLearner.with_callback_ctx Demo2.E fastai_globals "fit" (modify (Demo.bump "steps")) w =
    ((FlexibleLearner.callback Demo2.E "after_fit" w1).1,
     Raise (Exc "RuntimeError" ["generator didn't yield"])).
Proof.
  intros w w1.
  destruct (callback_ctx_cancel Demo2.E fastai_globals "fit" CancelFit
              (modify (Demo.bump "steps")) w w1 eq_refl) as (_ & Hbefore & _).
  apply Hbefore; vm_compute; reflexivity.
Defined.

(** X16: the class is looked up by name only when an exception reaches the
    [except] clause.  For a name without such a class, as [one_batch], whose
    title is [One_Batch], a block that returns is not affected, and every
    exception of the block is replaced by the [KeyError] of the lookup, once
    the [after] callbacks have returned. *)
Theorem callback_ctx_unknown_class E (globals : string -> option CancelKind) (nm : string)
    (body : M unit) (w w1 w2 w3 : World) :
  globals ("Cancel" +:+ FlexibleLearner.title nm +:+ "Exception") = None ->
  FlexibleLearner.callback E ("before_" +:+ nm) w = (w1, Ok tt) ->
  FlexibleLearner.callback E ("after_" +:+ nm) w2 = (w3, Ok tt) ->
  (body w1 = (w2, Ok tt) ->
   FlexibleLearner.with_callback_ctx E globals nm body w = (w3, Ok tt)) /\
  (forall e, body w1 = (w2, Raise e) ->
   FlexibleLearner.with_callback_ctx E globals nm body w =
     (w3, Raise (Exc "KeyError" ["Cancel" +:+ FlexibleLearner.title nm +:+ "Exception"]))).
Proof.
  intros Hclass Hbefore Hafter. split.
  - intros Hbody.
    unfold FlexibleLearner.with_callback_ctx, try_except, bind, ret,
      FlexibleLearner.finally_suite, FlexibleLearner.on_raise.
    by rewrite Hbefore, Hbody, Hafter.
  - intros e Hbody.
    unfold FlexibleLearner.with_callback_ctx, try_except, bind, ret, raise,
      FlexibleLearner.finally_suite, FlexibleLearner.on_raise,
      FlexibleLearner.except_clause.
    by rewrite Hbefore, Hbody, Hafter, Hclass.
Qed.

Lemma callback_ctx_unknown_class_witness :
  let w := Demo.world_with ["CountBatches"] in
  FlexibleLearner.title "one_batch" = "One_Batch" /\
  FlexibleLearner.with_callback_ctx Demo2.E fastai_globals "one_batch"
    (raise (Cancel CancelBatch)) w =
    (mkWorld (learner w) [EvDispatch "before_one_batch"; EvDispatch "after_one_batch"],
     Raise (Exc "KeyError" ["CancelOne_BatchException"])).
Proof.
  intros w. split; [reflexivity|].
  destruct (callback_ctx_unknown_class Demo2.E fastai_globals "one_batch"
              (raise (Cancel CancelBatch)) w
              (mkWorld (learner w) [EvDispatch "before_one_batch"])
              (mkWorld (learner w) [EvDispatch "before_one_batch"])
              (mkWorld (learner w) [EvDispatch "before_one_batch"; EvDispatch "after_one_batch"]))
    as (_ & Hraise); [reflexivity | vm_compute; reflexivity | vm_compute; reflexivity |].
  apply (Hraise (Cancel CancelBatch)). reflexivity.
Defined.

(** ** The optimizer: reading, clearing, saving and loading its state *)

Section optimizer_facts.
Context {V : Type}.
Implicit Types (o : Optimizers.Optimizer V) (p q : nat).

Lemma grown_refl ps o : Optimizers.grown ps o o.
Proof. by repeat split. Qed.

Lemma grown_trans ps1 ps2 o1 o2 o3 :
  Optimizers.grown ps1 o1 o2 -> Optimizers.grown ps2 o2 o3 -> Optimizers.grown (ps1 ++ ps2) o1 o3.
Proof.
  intros (Hp1 & Hh1 & Hf1 & Hv1 & Hs1 & Ho1) (Hp2 & Hh2 & Hf2 & Hv2 & Hs2 & Ho2).
  repeat split; try congruence.
  - intros q Hq. by apply Hs2, Hs1.
  - intros q Hq. rewrite elem_of_app in Hq. rewrite Ho2, Ho1; tauto.
Qed.

Lemma getitem_spec p o :
  Optimizers.state_is_defaultdict o = true \/ is_Some (Optimizers.state o !! p) ->
  exists o', Optimizers.getitem p o = (o', Optimizers.Done (Optimizers.state_of o p)) /\
             Optimizers.grown [p] o o' /\ is_Some (Optimizers.state o' !! p) /\
             (is_Some (Optimizers.state o !! p) -> o' = o).
Proof.
  intros Hread. unfold Optimizers.getitem, Optimizers.state_of.
  destruct (Optimizers.state o !! p) as [s|] eqn:Hp.
  - exists o. split; [done|]. split; [apply grown_refl|]. rewrite Hp. split; [by eexists | done].
  - destruct Hread as [Hd|[s Hs]]; [|done]. rewrite Hd. eexists. split; [done|].
    cbn. split; [|split].
    + repeat split; cbn; try done.
      * intros q. unfold Optimizers.state_of. cbn.
        destruct (decide (q = p)) as [->|Hne].
        -- by rewrite lookup_insert_eq, Hp.
        -- by rewrite lookup_insert_ne.
      * intros q [s Hs]. destruct (decide (q = p)) as [->|Hne]; [congruence|].
        rewrite lookup_insert_ne by done. by eexists.
      * intros q Hq. rewrite lookup_insert_ne; [done|]. intros ->. apply Hq.
        by apply list_elem_of_singleton.
    + rewrite lookup_insert_eq. by eexists.
    + by intros [s Hs].
Qed.

Lemma getitems_spec ps o :
  Optimizers.state_is_defaultdict o = true \/
    (forall p, p ∈ ps -> is_Some (Optimizers.state o !! p)) ->
  exists o', Optimizers.getitems ps o =
               (o', Optimizers.Done (Optimizers.state_of o <$> ps)) /\
             Optimizers.grown ps o o' /\ (forall p, p ∈ ps -> is_Some (Optimizers.state o' !! p)) /\
             ((forall p, p ∈ ps -> is_Some (Optimizers.state o !! p)) -> o' = o).
Proof.
  revert o. induction ps as [|p ps IH]; intros o Hread; cbn [Optimizers.getitems].
  - exists o. split; [done|]. split; [apply grown_refl|]. split; [|done]. intros p Hp.
    by apply elem_of_nil in Hp.
  - destruct (getitem_spec p o) as (o1 & -> & Hg1 & Hp1 & Hsame1).
    { destruct Hread as [?|Hall]; [by left|]. right. apply Hall, elem_of_cons. by left. }
    destruct (IH o1) as (o2 & -> & Hg2 & Hp2 & Hsame2).
    { destruct Hg1 as (_ & _ & Hf & _ & Hs & _).
      destruct Hread as [Hd|Hall]; [left; congruence|]. right. intros q Hq.
      apply Hs, Hall, elem_of_cons. by right. }
    exists o2. split; [|split; [|split]].
    + cbn. f_equal. f_equal. f_equal. apply list_fmap_ext. intros _ q _.
      by destruct Hg1 as (_ & _ & _ & Hv & _).
    + by apply (grown_trans [p] ps o o1 o2).
    + intros q [->|Hq]%elem_of_cons; [|by apply Hp2]. by apply Hg2.
    + intros Hall. rewrite Hsame1 in * by (apply Hall, elem_of_cons; by left).
      apply Hsame2. intros q Hq. apply Hall, elem_of_cons. by right.
Qed.

Lemma all_params_of_spec groups o :
  Optimizers.state_is_defaultdict o = true \/
    (forall p, p ∈ concat groups.*1 -> is_Some (Optimizers.state o !! p)) ->
  exists o' res, Optimizers.all_params_of groups o = (o', Optimizers.Done res) /\
    Optimizers.grown (concat groups.*1) o o' /\
    (fun it : Optimizers.Item => it.1.1.1) <$> res = concat groups.*1 /\
    Forall (fun it : Optimizers.Item => it.1.2 = Optimizers.state_of o it.1.1.1) res /\
    (forall p, p ∈ concat groups.*1 -> is_Some (Optimizers.state o' !! p)) /\
    ((forall p, p ∈ concat groups.*1 -> is_Some (Optimizers.state o !! p)) -> o' = o).
Proof.
  revert o. induction groups as [|[pg hyper] groups IH]; intros o Hread;
    cbn [Optimizers.all_params_of].
  - exists o, []. split; [done|]. split; [apply grown_refl|].
    split; [done|]. split; [done|]. split; [|done].
    intros p Hp. by apply elem_of_nil in Hp.
  - cbn [fmap list_fmap fst concat] in *.
    destruct (getitems_spec pg o) as (o1 & -> & Hg1 & Hp1 & Hsame1).
    { destruct Hread as [?|Hall]; [by left|]. right. intros p Hp.
      apply Hall, elem_of_app. by left. }
    destruct (IH o1) as (o2 & res & -> & Hg2 & Hkeys & Hvals & Hp2 & Hsame2).
    { destruct Hg1 as (_ & _ & Hf & _ & Hs & _).
      destruct Hread as [Hd|Hall]; [left; congruence|]. right. intros q Hq.
      apply Hs, Hall, elem_of_app. by right. }
    eexists o2, _. split; [done|]. split; [by apply (grown_trans _ _ o o1 o2)|].
    split; [|split; [|split]].
    + rewrite fmap_app, Hkeys. f_equal. rewrite <- list_fmap_compose.
      transitivity ((zip pg (Optimizers.state_of o <$> pg)).*1);
        [done | apply fst_zip; by rewrite length_fmap].
    + apply Forall_app. split.
      * apply Forall_fmap, Forall_forall. intros [p s] Hin. cbn.
        apply list_elem_of_lookup in Hin. destruct Hin as (i & Hi).
        apply lookup_zip_with_Some in Hi.
        destruct Hi as (p' & s' & Heq & Hp' & Hs'). simplify_eq.
        rewrite list_lookup_fmap, Hp' in Hs'. cbn in Hs'. by simplify_eq.
      * eapply Forall_impl; [exact Hvals|]. intros it Hit. cbn in Hit. rewrite Hit.
        by destruct Hg1 as (_ & _ & _ & Hv & _).
    + intros p [Hp|Hp]%elem_of_app; [|by apply Hp2]. by apply Hg2, Hp1.
    + intros Hall. rewrite Hsame1 in * by (intros q Hq; apply Hall, elem_of_app; by left).
      apply Hsame2. intros q Hq. apply Hall, elem_of_app. by right.
Qed.

Lemma zip_fst_concat o :
  length (Optimizers.hypers o) = length (Optimizers.param_lists o) ->
  concat (zip (Optimizers.param_lists o) (Optimizers.hypers o)).*1 =
    concat (Optimizers.param_lists o).
Proof. intros Hlen. rewrite fst_zip; [done | lia]. Qed.

Lemma all_params_spec has_grad o :
  Optimizers.readable o ->
  length (Optimizers.hypers o) = length (Optimizers.param_lists o) ->
  exists o' res, Optimizers.all_params has_grad false o = (o', Optimizers.Done res) /\
    Optimizers.grown (concat (Optimizers.param_lists o)) o o' /\
    (fun it : Optimizers.Item => it.1.1.1) <$> res = concat (Optimizers.param_lists o) /\
    Forall (fun it : Optimizers.Item => it.1.2 = Optimizers.state_of o it.1.1.1) res /\
    (forall p, p ∈ concat (Optimizers.param_lists o) -> is_Some (Optimizers.state o' !! p)) /\
    ((forall p, p ∈ concat (Optimizers.param_lists o) -> is_Some (Optimizers.state o !! p)) ->
     o' = o).
Proof.
  intros Hread Hlen. unfold Optimizers.all_params.
  destruct (all_params_of_spec (zip (Optimizers.param_lists o) (Optimizers.hypers o)) o)
    as (o' & res & -> & Hg & Hkeys & Hvals & Hp & Hsame).
  { rewrite zip_fst_concat by done. exact Hread. }
  rewrite zip_fst_concat in Hg, Hkeys, Hp, Hsame by done. by exists o', res.
Qed.

(** On a plain dict the first parameter without an entry raises
    [KeyError], and nothing has been written. *)
Lemma getitems_missing ps o :
  Optimizers.state_is_defaultdict o = false ->
  (exists p, p ∈ ps /\ Optimizers.state o !! p = None) ->
  exists p, p ∈ ps /\ Optimizers.state o !! p = None /\
            Optimizers.getitems ps o = (o, Optimizers.Fail (Optimizers.KeyError p)).
Proof.
  intros Hd. induction ps as [|a ps IH]; intros (p & Hin & Hp).
  - by apply elem_of_nil in Hin.
  - cbn [Optimizers.getitems]. unfold Optimizers.getitem.
    destruct (Optimizers.state o !! a) as [s|] eqn:Ha.
    + destruct IH as (p' & Hin' & Hp' & ->).
      { exists p. split; [|done]. apply elem_of_cons in Hin as [->|Hin]; [congruence|done]. }
      exists p'. split; [|done]. apply elem_of_cons. by right.
    + rewrite Hd. exists a. split; [|done]. apply elem_of_cons. by left.
Qed.

Lemma all_params_of_missing groups o :
  Optimizers.state_is_defaultdict o = false ->
  (exists p, p ∈ concat groups.*1 /\ Optimizers.state o !! p = None) ->
  exists p, p ∈ concat groups.*1 /\ Optimizers.state o !! p = None /\
            Optimizers.all_params_of groups o = (o, Optimizers.Fail (Optimizers.KeyError p)).
Proof.
  intros Hd. induction groups as [|[pg hyper] groups IH]; intros (p & Hin & Hp);
    cbn [fmap list_fmap fst concat] in *.
  - by apply elem_of_nil in Hin.
  - cbn [Optimizers.all_params_of].
    destruct (decide (Forall (fun q => is_Some (Optimizers.state o !! q)) pg)) as [Hall|Hsome].
    + rewrite Forall_forall in Hall.
      destruct (getitems_spec pg o) as (o1 & -> & _ & _ & Hsame); [by right|].
      rewrite (Hsame Hall).
      destruct IH as (p' & Hin' & Hp' & ->).
      { exists p. split; [|done]. apply elem_of_app in Hin as [Hin|Hin]; [|done].
        apply Hall in Hin. rewrite Hp in Hin. by destruct Hin. }
      exists p'. split; [|done]. apply elem_of_app. by right.
    + apply not_Forall_Exists in Hsome; [|apply _]. apply Exists_exists in Hsome.
      destruct Hsome as (q & Hq & Hnone). cbn in Hnone. apply eq_None_not_Some in Hnone.
      destruct (getitems_missing pg o Hd) as (p' & Hin' & Hp' & ->); [by exists q|].
      exists p'. split; [|done]. apply elem_of_app. by left.
Qed.

Lemma dict_of_lookup (f : nat -> gmap string V) (ps : list nat) q :
  Optimizers.dict_of (zip ps (f <$> ps)) !! q = if decide (q ∈ ps) then Some (f q) else None.
Proof.
  unfold Optimizers.dict_of.
  assert (Hgen : forall (d : gmap nat (gmap string V)),
            foldl (fun d ps => <[ps.1 := ps.2]> d) d (zip ps (f <$> ps)) !! q =
              if decide (q ∈ ps) then Some (f q) else d !! q).
  { induction ps as [|p ps IH]; intros d; cbn.
    - by rewrite decide_False by apply not_elem_of_nil.
    - rewrite IH. destruct (decide (q ∈ ps)) as [Hin|Hout].
      + rewrite decide_True; [done|]. apply elem_of_cons. by right.
      + destruct (decide (q = p)) as [->|Hne].
        * rewrite decide_True by (apply elem_of_cons; by left). by rewrite lookup_insert_eq.
        * rewrite decide_False by (rewrite elem_of_cons; tauto).
          by rewrite lookup_insert_ne. }
  rewrite Hgen. by destruct (decide (q ∈ ps)).
Qed.

Lemma elem_of_concat {A} (x : A) (xss : list (list A)) :
  x ∈ concat xss <-> exists xs, x ∈ xs /\ xs ∈ xss.
Proof.
  induction xss as [|xs xss IH]; cbn.
  - split; [by intros ?%elem_of_nil | by intros (? & _ & ?%elem_of_nil)].
  - rewrite elem_of_app, IH. split.
    + intros [Hx|(ys & Hx & Hys)]; [exists xs | exists ys]; rewrite elem_of_cons; auto.
    + intros (ys & Hx & [->|Hys]%elem_of_cons); [by left | right; eauto].
Qed.

Lemma sum_list_length_concat {A} (xss : list (list A)) :
  sum_list (length <$> xss) = length (concat xss).
Proof. induction xss as [|xs xss IH]; cbn; [done|]. by rewrite length_app, IH. Qed.

(** X17: saving and loading.  For an optimizer whose state can be read,
    [state_dict] returns the state of every parameter, in the order of the
    parameter groups, and the hyper-parameters.  Loading it back succeeds
    exactly when there are as many hyper-parameter dicts as parameter
    groups; it then leaves the hyper-parameters and the state of every
    parameter as they were, and [self.state] has an entry for the parameters
    and for nothing else.  Otherwise [load_state_dict] fails on its first
    assertion and changes nothing. *)
Theorem state_dict_round_trip (has_grad : nat -> bool) o :
  Optimizers.readable o ->
  exists o1 sd,
    Optimizers.state_dict has_grad o = (o1, Optimizers.Done sd) /\
    Optimizers.sd_hypers sd = Optimizers.hypers o /\
    (length (Optimizers.hypers o) = length (Optimizers.param_lists o) ->
     Optimizers.sd_state sd = Optimizers.state_of o <$> concat (Optimizers.param_lists o) /\
     exists o2,
       Optimizers.load_state_dict has_grad sd o1 = (o2, Optimizers.Done tt) /\
       Optimizers.param_lists o2 = Optimizers.param_lists o /\
       Optimizers.hypers o2 = Optimizers.hypers o /\
       forall p, Optimizers.state o2 !! p =
                 if decide (p ∈ concat (Optimizers.param_lists o))
                 then Some (Optimizers.state_of o p) else None) /\
    (length (Optimizers.hypers o) ≠ length (Optimizers.param_lists o) ->
     Optimizers.load_state_dict has_grad sd o1 = (o1, Optimizers.Fail Optimizers.AssertionError)).
Proof.
  intros Hread.
  set (groups := zip (Optimizers.param_lists o) (Optimizers.hypers o)).
  assert (Hsub : forall p, p ∈ concat groups.*1 -> p ∈ concat (Optimizers.param_lists o)).
  { intros p Hp. apply elem_of_concat in Hp. destruct Hp as (pg & Hp & Hpg).
    apply elem_of_concat. exists pg. split; [done|].
    apply list_elem_of_fmap in Hpg. destruct Hpg as ([pg' h] & -> & Hin).
    by apply elem_of_zip_l in Hin. }
  destruct (all_params_of_spec groups o) as (o1 & res & Hall & Hg1 & Hkeys & Hvals & Hp1 & _).
  { destruct Hread as [?|Hread]; [by left|]. right. intros p Hp. by apply Hread, Hsub. }
  destruct (getitems_spec ((fun it : Optimizers.Item => it.1.1.1) <$> res) o1)
    as (o2 & Hget & Hg2 & Hp2 & _).
  { right. rewrite Hkeys. exact Hp1. }
  pose proof (grown_trans _ _ _ _ _ Hg1 Hg2) as Hg.
  exists o2. eexists. split.
  { unfold Optimizers.state_dict, Optimizers.all_params. fold groups.
    rewrite Hall, Hget. reflexivity. }
  cbn [Optimizers.sd_hypers Optimizers.sd_state].
  destruct Hg as (Hpl & Hhy & Hfl & Hview & Hsome & _).
  split; [done|]. split.
  - intros Hlen.
    assert (Hgroups : concat groups.*1 = concat (Optimizers.param_lists o))
      by (by apply zip_fst_concat).
    rewrite Hkeys, Hgroups.
    assert (Hstates : Optimizers.state_of o1 <$> concat (Optimizers.param_lists o) =
                      Optimizers.state_of o <$> concat (Optimizers.param_lists o)).
    { apply list_fmap_ext. intros _ q _. by destruct Hg1 as (_ & _ & _ & Hv & _). }
    split; [done|].
    unfold Optimizers.load_state_dict. cbn [Optimizers.sd_hypers Optimizers.sd_state].
    rewrite Hpl, Hhy.
    rewrite (bool_decide_eq_true_2 _ Hlen). cbn [negb].
    rewrite bool_decide_eq_true_2
      by (by rewrite length_fmap, sum_list_length_concat).
    cbn [negb].
    destruct (all_params_spec has_grad
                (Optimizers.mkOptimizer (Optimizers.param_lists o) (Optimizers.hypers o)
                   (Optimizers.state o2) (Optimizers.state_is_defaultdict o2)))
      as (o3 & res3 & Hall3 & Hg3 & Hkeys3 & _).
    { right. cbn. intros p Hp. apply Hp2. rewrite Hkeys, Hgroups. exact Hp. }
    { done. }
    rewrite Hall3. eexists. split; [reflexivity|].
    destruct Hg3 as (Hpl3 & Hhy3 & _). cbn in Hpl3, Hhy3, Hkeys3.
    cbn [Optimizers.param_lists Optimizers.hypers Optimizers.state].
    split; [done|]. split; [done|]. intros p.
    rewrite Hkeys3, Hstates. apply dict_of_lookup.
  - intros Hlen. unfold Optimizers.load_state_dict. cbn [Optimizers.sd_hypers].
    rewrite Hpl, Hhy. by rewrite (bool_decide_eq_false_2 _ Hlen).
Qed.

Lemma kept_lookup (s : gmap string V) (k : string) :
  Optimizers.kept s !! k = if decide (k ∈ Optimizers._keep_on_clear) then s !! k else None.
Proof.
  unfold Optimizers.kept, Optimizers._keep_on_clear. cbn [foldl].
  destruct (decide (k = "force_train")) as [->|Hft].
  { rewrite decide_True by (rewrite !elem_of_cons; auto).
    destruct (s !! "force_train") eqn:H1, (s !! "do_wd") eqn:H2;
      rewrite ?lookup_insert_ne, ?lookup_insert_eq, ?lookup_empty by done; done. }
  destruct (decide (k = "do_wd")) as [->|Hwd].
  { rewrite decide_True by (rewrite !elem_of_cons; auto).
    destruct (s !! "force_train") eqn:H1, (s !! "do_wd") eqn:H2;
      rewrite ?lookup_insert_eq, ?lookup_insert_ne, ?lookup_empty by done; done. }
  rewrite decide_False.
  2:{ rewrite !elem_of_cons. intros [?|[?|?%elem_of_nil]]; done. }
  destruct (s !! "force_train"), (s !! "do_wd");
    rewrite ?lookup_insert_ne, ?lookup_empty by done; done.
Qed.

Lemma kept_kept (s : gmap string V) : Optimizers.kept (Optimizers.kept s) = Optimizers.kept s.
Proof.
  apply map_eq. intros k. rewrite !kept_lookup.
  by destruct (decide (k ∈ Optimizers._keep_on_clear)).
Qed.

Lemma fold_insert_lookup (g : nat -> gmap string V) (ps : list nat)
    (d : gmap nat (gmap string V)) q :
  foldl (fun d p => <[p := g p]> d) d ps !! q =
    if decide (q ∈ ps) then Some (g q) else d !! q.
Proof.
  revert d. induction ps as [|p ps IH]; intros d; cbn.
  - by rewrite decide_False by apply not_elem_of_nil.
  - rewrite IH. destruct (decide (q ∈ ps)) as [Hin|Hout].
    + rewrite decide_True; [done|]. apply elem_of_cons. by right.
    + destruct (decide (q = p)) as [->|Hne].
      * rewrite decide_True by (apply elem_of_cons; by left). by rewrite lookup_insert_eq.
      * rewrite decide_False by (rewrite elem_of_cons; tauto).
        by rewrite lookup_insert_ne.
Qed.

Lemma clear_fold (f : nat -> gmap string V) (res : list Optimizers.Item) o :
  Forall (fun it : Optimizers.Item => it.1.2 = f it.1.1.1) res ->
  foldl (fun o' (it : Optimizers.Item) =>
           Optimizers.with_state (<[it.1.1.1 := Optimizers.kept it.1.2]> (Optimizers.state o')) o')
        o res =
  Optimizers.with_state
    (foldl (fun d p => <[p := Optimizers.kept (f p)]> d) (Optimizers.state o)
           ((fun it : Optimizers.Item => it.1.1.1) <$> res)) o.
Proof.
  revert o. induction res as [|it res IH]; intros o Hres; cbn [foldl fmap list_fmap].
  - by destruct o.
  - inversion Hres as [|? ? Hit Hrest]; subst. rewrite IH by done.
    rewrite Hit. by destruct o.
Qed.

(** X18: [clear_state], on an optimizer whose state can be read and which
    has one hyper-parameter dict per group, keeps of the state of every
    parameter the entries [force_train] and [do_wd], with their values, and
    nothing else; the entries of [self.state] for other keys are not
    touched; and clearing a second time changes nothing. *)
Theorem clear_state_keeps (has_grad : nat -> bool) o :
  Optimizers.readable o ->
  length (Optimizers.hypers o) = length (Optimizers.param_lists o) ->
  exists o',
    Optimizers.clear_state has_grad o = (o', Optimizers.Done tt) /\
    (forall p k, p ∈ concat (Optimizers.param_lists o) ->
       Optimizers.state_of o' p !! k =
         if decide (k ∈ Optimizers._keep_on_clear) then Optimizers.state_of o p !! k else None) /\
    (forall p, p ∉ concat (Optimizers.param_lists o) ->
       Optimizers.state o' !! p = Optimizers.state o !! p) /\
    Optimizers.clear_state has_grad o' = (o', Optimizers.Done tt).
Proof.
  intros Hread Hlen.
  destruct (all_params_spec has_grad o Hread Hlen)
    as (o1 & res & Hall & Hg & Hkeys & Hvals & Hp & _).
  destruct Hg as (Hpl & Hhy & Hfl & Hview & Hsome & Hother).
  unfold Optimizers.clear_state. rewrite Hall.
  rewrite (clear_fold (Optimizers.state_of o) res o1 Hvals), Hkeys.
  set (st := foldl _ _ _).
  assert (Hst : forall q, st !! q =
            if decide (q ∈ concat (Optimizers.param_lists o))
            then Some (Optimizers.kept (Optimizers.state_of o q))
            else Optimizers.state o1 !! q) by (intros q; apply fold_insert_lookup).
  eexists. split; [reflexivity|]. split; [|split].
  - intros p k Hin. unfold Optimizers.state_of at 1. cbn. rewrite Hst, decide_True by done.
    cbn. apply kept_lookup.
  - intros p Hout. cbn. rewrite Hst, decide_False by done. by apply Hother.
  - set (o' := Optimizers.with_state st o1).
    assert (Hpl' : Optimizers.param_lists o' = Optimizers.param_lists o) by exact Hpl.
    assert (Hhy' : Optimizers.hypers o' = Optimizers.hypers o) by exact Hhy.
    assert (Hpresent : forall p, p ∈ concat (Optimizers.param_lists o') ->
              is_Some (Optimizers.state o' !! p)).
    { intros p Hin. rewrite Hpl' in Hin. change (is_Some (st !! p)).
      rewrite Hst, decide_True by done. by eexists. }
    destruct (all_params_spec has_grad o')
      as (o2 & res2 & Hall2 & _ & Hkeys2 & Hvals2 & _ & Hsame);
      [by right | congruence |].
    rewrite (Hsame Hpresent) in Hall2. rewrite Hall2. f_equal.
    rewrite (clear_fold (Optimizers.state_of o') res2 o' Hvals2), Hkeys2, Hpl'.
    assert (Hstate : foldl (fun d p => <[p := Optimizers.kept (Optimizers.state_of o' p)]> d)
                       (Optimizers.state o') (concat (Optimizers.param_lists o)) = st).
    { apply map_eq. intros q. rewrite fold_insert_lookup. change (Optimizers.state o') with st.
      destruct (decide (q ∈ concat (Optimizers.param_lists o))) as [Hin|Hout]; [|done].
      unfold Optimizers.state_of. change (Optimizers.state o') with st.
      rewrite Hst, decide_True by done. f_equal. apply kept_kept. }
    rewrite Hstate. reflexivity.
Qed.

Lemma dict_of_zip_lookup (ps : list nat) (ss : list (gmap string V))
    (d : gmap nat (gmap string V)) :
  length ss = length ps ->
  (forall q, q ∉ ps ->
     foldl (fun d ps => <[ps.1 := ps.2]> d) d (zip ps ss) !! q = d !! q) /\
  (NoDup ps -> forall i p, ps !! i = Some p ->
     foldl (fun d ps => <[ps.1 := ps.2]> d) d (zip ps ss) !! p = ss !! i).
Proof.
  revert ss d. induction ps as [|p0 ps IH]; intros [|s0 ss] d Hlen; try done.
  cbn in Hlen. destruct (IH ss (<[p0 := s0]> d)) as [Hout Hin]; [lia|]. cbn. split.
  - intros q Hq. rewrite not_elem_of_cons in Hq. rewrite Hout by tauto.
    rewrite lookup_insert_ne; [done|]. intros ->. tauto.
  - intros Hnd i p Hi. apply NoDup_cons in Hnd. destruct Hnd as [Hp0 Hnd].
    destruct i as [|i]; cbn in Hi.
    + simplify_eq. rewrite Hout by done. by rewrite lookup_insert_eq.
    + by apply Hin.
Qed.

(** X19: [load_state_dict] raises [AssertionError] and changes nothing
    unless the state dict has one hyper-parameter dict per parameter group and
    one state per parameter.  When the lengths fit:
    - on a readable optimizer ([self.state] is the [defaultdict], or has an
      entry for every parameter) it succeeds: it takes the hyper-parameters as
      they are and drops every entry [self.state] had; [self.state] then is a
      plain dict, no longer a [defaultdict], with entries for the parameters
      only, and, when no parameter occurs twice in the parameter lists, the
      states are paired with the parameters by position;
    - on an optimizer that is not readable (a plain dict without an entry for
      some parameter) it raises [KeyError] for such a parameter, after
      [self.hypers] has been replaced; [self.state] is as it was. *)
Theorem load_state_dict_by_position (has_grad : nat -> bool)
    (sd : Optimizers.StateDict V) o :
  let fits := length (Optimizers.sd_hypers sd) = length (Optimizers.param_lists o) /\
              length (Optimizers.sd_state sd) = length (concat (Optimizers.param_lists o)) in
  (~ fits ->
   Optimizers.load_state_dict has_grad sd o = (o, Optimizers.Fail Optimizers.AssertionError)) /\
  (fits -> Optimizers.readable o ->
   exists o',
     Optimizers.load_state_dict has_grad sd o = (o', Optimizers.Done tt) /\
     Optimizers.param_lists o' = Optimizers.param_lists o /\
     Optimizers.hypers o' = Optimizers.sd_hypers sd /\
     Optimizers.state_is_defaultdict o' = false /\
     (forall q, q ∉ concat (Optimizers.param_lists o) -> Optimizers.state o' !! q = None) /\
     (NoDup (concat (Optimizers.param_lists o)) ->
      forall i p, concat (Optimizers.param_lists o) !! i = Some p ->
        Optimizers.state o' !! p = Optimizers.sd_state sd !! i)) /\
  (fits -> ~ Optimizers.readable o ->
   exists p,
     p ∈ concat (Optimizers.param_lists o) /\ Optimizers.state o !! p = None /\
     Optimizers.load_state_dict has_grad sd o =
       (Optimizers.mkOptimizer (Optimizers.param_lists o) (Optimizers.sd_hypers sd)
          (Optimizers.state o) false,
        Optimizers.Fail (Optimizers.KeyError p))).
Proof.
  intros fits. subst fits. unfold Optimizers.load_state_dict.
  rewrite sum_list_length_concat. split; [|split].
  - intros Hfits. case_bool_decide; [|done]. case_bool_decide; [|done]. tauto.
  - intros [Hhy Hst] Hread. rewrite !bool_decide_eq_true_2 by done. cbn [negb].
    destruct (all_params_spec has_grad
                (Optimizers.mkOptimizer (Optimizers.param_lists o) (Optimizers.sd_hypers sd)
                   (Optimizers.state o) (Optimizers.state_is_defaultdict o)))
      as (o1 & res & Hall & Hg & Hkeys & _); [exact Hread | exact Hhy |].
    rewrite Hall. destruct Hg as (Hpl & Hhy1 & _). cbn in Hpl, Hhy1, Hkeys.
    eexists. split; [reflexivity|]. cbn. rewrite Hkeys.
    split; [done|]. split; [done|]. split; [done|].
    destruct (dict_of_zip_lookup (concat (Optimizers.param_lists o))
                (Optimizers.sd_state sd) ∅ Hst) as [Hout Hin].
    split; [|exact Hin]. intros q Hq. unfold Optimizers.dict_of. by rewrite Hout.
  - intros [Hhy Hst] Hread. rewrite !bool_decide_eq_true_2 by done. cbn [negb].
    destruct (Optimizers.state_is_defaultdict o) eqn:Hd; [destruct Hread; by left|].
    assert (Hmiss : exists p, p ∈ concat (Optimizers.param_lists o) /\
                              Optimizers.state o !! p = None).
    { destruct (decide (Forall (fun q => is_Some (Optimizers.state o !! q))
                          (concat (Optimizers.param_lists o)))) as [Hall|Hsome].
      - destruct Hread. right. by apply Forall_forall.
      - apply not_Forall_Exists in Hsome; [|apply _]. apply Exists_exists in Hsome.
        destruct Hsome as (q & Hq & Hnone). cbn in Hnone. apply eq_None_not_Some in Hnone.
        by exists q. }
    unfold Optimizers.all_params. cbn [Optimizers.param_lists Optimizers.hypers].
    destruct (all_params_of_missing
                (zip (Optimizers.param_lists o) (Optimizers.sd_hypers sd))
                (Optimizers.mkOptimizer (Optimizers.param_lists o) (Optimizers.sd_hypers sd)
                   (Optimizers.state o) false)) as (p & Hin & Hp & ->); [done | |].
    { rewrite fst_zip by lia. exact Hmiss. }
    rewrite fst_zip in Hin by lia. by exists p.
Qed.

End optimizer_facts.

(** The state of the demo optimizer is saved for its three parameters, the
    two without a state as empty dicts, and can be loaded back. *)
Lemma state_dict_round_trip_witness :
  Optimizers.readable Optimizers.demo /\
  exists o1 sd,
    Optimizers.state_dict (fun _ => true) Optimizers.demo = (o1, Optimizers.Done sd) /\
    Optimizers.sd_state sd = [{["grad_avg" := 5; "do_wd" := 1]}; ∅; ∅] /\
    (Optimizers.load_state_dict (fun _ => true) sd o1).2 = Optimizers.Done tt.
Proof.
  split; [left; reflexivity|].
  destruct (state_dict_round_trip (fun _ => true) Optimizers.demo)
    as (o1 & sd & Hsave & _ & Hload & _); [left; reflexivity|].
  destruct Hload as (Hstate & o2 & Hload & _); [reflexivity|].
  exists o1, sd. split; [exact Hsave|]. split; [rewrite Hstate; reflexivity|].
  by rewrite Hload.
Defined.

(** Clearing the demo optimizer keeps [do_wd] of the first parameter and
    drops its [grad_avg]. *)
Lemma clear_state_keeps_witness :
  Optimizers.readable Optimizers.demo /\
  exists o',
    Optimizers.clear_state (fun _ => true) Optimizers.demo = (o', Optimizers.Done tt) /\
    Optimizers.state_of o' 0%nat !! "do_wd" = Some 1 /\
    Optimizers.state_of o' 0%nat !! "grad_avg" = None.
Proof.
  split; [left; reflexivity|].
  destruct (clear_state_keeps (fun _ => true) Optimizers.demo)
    as (o' & Hclear & Hkeep & _); [left; reflexivity | reflexivity |].
  exists o'. split; [exact Hclear|].
  split; rewrite Hkeep by by_compute; reflexivity.
Defined.

(** A state dict for two parameters cannot be loaded into the demo
    optimizer, which has three; one for three can.  Into the demo optimizer
    with a plain dict, which has no entry for the second parameter, it cannot
    be loaded either: [KeyError], and the hyper-parameters are the new ones. *)
Lemma load_state_dict_by_position_witness :
  Optimizers.readable Optimizers.demo /\
  Optimizers.load_state_dict (fun _ => true)
    (Optimizers.mkStateDict [∅; ∅] [∅; ∅]) Optimizers.demo =
    (Optimizers.demo, Optimizers.Fail Optimizers.AssertionError) /\
  (Optimizers.load_state_dict (fun _ => true)
     (Optimizers.mkStateDict [∅; {["grad_avg" := 7]}; ∅] [∅; ∅]) Optimizers.demo).2 =
    Optimizers.Done tt /\
  let plain := Optimizers.mkOptimizer (Optimizers.param_lists Optimizers.demo)
                 (Optimizers.hypers Optimizers.demo) (Optimizers.state Optimizers.demo) false in
  exists p,
    Optimizers.load_state_dict (fun _ => true)
      (Optimizers.mkStateDict [∅; {["grad_avg" := 7]}; ∅] [∅; ∅]) plain =
      (Optimizers.mkOptimizer (Optimizers.param_lists plain) [∅; ∅] (Optimizers.state plain) false,
       Optimizers.Fail (Optimizers.KeyError p)).
Proof.
  split; [left; reflexivity|]. split; [|split].
  - destruct (load_state_dict_by_position (fun _ => true)
                (Optimizers.mkStateDict [∅; ∅] [∅; ∅]) Optimizers.demo) as [Hfail _].
    apply Hfail. cbn. lia.
  - destruct (load_state_dict_by_position (fun _ => true)
                (Optimizers.mkStateDict [∅; {["grad_avg" := 7]}; ∅] [∅; ∅]) Optimizers.demo)
      as (_ & Hok & _).
    destruct Hok as (o' & -> & _); [split; reflexivity | left; reflexivity | reflexivity].
  - intros plain.
    destruct (load_state_dict_by_position (fun _ => true)
                (Optimizers.mkStateDict [∅; {["grad_avg" := 7]}; ∅] [∅; ∅]) plain)
      as (_ & _ & Hkey).
    destruct Hkey as (p & _ & _ & Hload); [split; reflexivity | |by exists p].
    intros [Hd|Hall]; [discriminate|].
    destruct (Hall 1%nat) as [s Hs]; [by_compute | vm_compute in Hs; discriminate].
Defined.
